(** * workspace-tools: the [test] command and its environment post-steps

    A shallow embedding of [src/workspace/commands/test.py]:
    the staleness check of a tox environment, the redevelop/recreate branch,
    [strip_version_from_entry_scripts] and [install_editable_dependencies].

    Python 2 byte strings are [string]; the filesystem and [os.environ] are
    finite maps keyed by path or variable name; every function that touches
    the outside world is a computation in the monad [M] below, which threads
    the system state, records the observable events and carries a raised
    exception to the caller. *)

From Stdlib Require Import ZArith Ascii String List Lia Bool Permutation.
From stdpp Require Import gmap strings list fin_maps.

Local Open Scope string_scope.
Local Open Scope Z_scope.

(** ** Byte strings *)

Module Str.

Fixpoint drop (n : nat) (s : string) : string :=
  match n, s with
  | O, _ => s
  | S _, EmptyString => EmptyString
  | S k, String _ s' => drop k s'
  end.

Fixpoint mem (c : ascii) (s : string) : bool :=
  match s with
  | EmptyString => false
  | String d s' => Ascii.eqb c d || mem c s'
  end.

(** [s.startswith(p)] *)
Fixpoint startswith (p s : string) : bool :=
  match p, s with
  | EmptyString, _ => true
  | String _ _, EmptyString => false
  | String a p', String b s' => Ascii.eqb a b && startswith p' s'
  end.

(** [p in s] for strings *)
Fixpoint contains (p s : string) : bool :=
  startswith p s ||
  match s with
  | EmptyString => false
  | String _ s' => contains p s'
  end.

(** [s.endswith(p)] for a one-character [p] *)
Fixpoint ends_with_char (c : ascii) (s : string) : bool :=
  match s with
  | EmptyString => false
  | String d EmptyString => Ascii.eqb c d
  | String _ s' => ends_with_char c s'
  end.

(** [sep.join(l)] *)
Fixpoint join (sep : string) (l : list string) : string :=
  match l with
  | [] => EmptyString
  | [x] => x
  | x :: l' => x ++ sep ++ join sep l'
  end.

(** The whitespace of [str.split()] without argument. *)
Definition is_space (c : ascii) : bool :=
  match nat_of_ascii c with
  | 9%nat | 10%nat | 11%nat | 12%nat | 13%nat | 32%nat => true
  | _ => false
  end.

(** [s.split()]: the maximal runs of non-blank characters, in order. *)
Fixpoint split_go (cur : option string) (s : string) : list string :=
  match s with
  | EmptyString =>
      match cur with Some w => [String.rev w] | None => [] end
  | String c s' =>
      if is_space c
      then match cur with
           | Some w => String.rev w :: split_go None s'
           | None => split_go None s'
           end
      else split_go (Some (String c (default EmptyString cur))) s'
  end.

Definition split (s : string) : list string := split_go None s.

(** [s.split(sep)] for a one-character [sep]: empty fields are kept. *)
Fixpoint split_on_go (sep : ascii) (cur : string) (s : string) : list string :=
  match s with
  | EmptyString => [String.rev cur]
  | String c s' =>
      if Ascii.eqb c sep
      then String.rev cur :: split_on_go sep EmptyString s'
      else split_on_go sep (String c cur) s'
  end.

Definition split_on (sep : ascii) (s : string) : list string :=
  split_on_go sep EmptyString s.

(** A left-to-right scan that replaces non-overlapping matches.
    [m s] is the length of the match that starts at the head of [s], if
    there is one; [skip] counts the characters of the current match that
    are still to be dropped. Both [re.sub] and [str.replace] are this
    scan. *)
Fixpoint scan (m : string → option nat) (repl : string)
    (skip : nat) (s : string) : string :=
  match s with
  | EmptyString =>
      match skip, m EmptyString with
      | O, Some _ => repl
      | _, _ => EmptyString
      end
  | String c s' =>
      match skip with
      | S k => scan m repl k s'
      | O =>
          match m s with
          | Some (S k) => repl ++ scan m repl k s'
          | Some O => repl ++ String c (scan m repl O s')
          | None => String c (scan m repl O s')
          end
      end
  end.

(** [s.replace(old, new)] *)
Definition replace (old new s : string) : string :=
  scan (fun t => if startswith old t then Some (String.length old) else None)
       new 0 s.

End Str.

(** ** The regular expression of the normalizer

    [re.compile('%s==[0-9\.]+' % name)]: the product name is pasted into the
    pattern as it is, so its characters are read as regular-expression
    syntax. The embedding covers the names made of ordinary characters and
    of [.], which the [re] module reads as "any character but a newline";
    a name with another special character is outside the fragment and
    [compile] answers [None] for it. A name of the fragment has no
    backslash, so [re.sub] inserts it unchanged as the replacement. *)

Module Re.

Inductive atom : Type :=
| Lit (c : ascii)
| AnyChar.

Definition special (c : ascii) : bool := Str.mem c ".^$*+?{}[]\|()".

Fixpoint atoms_of (name : string) : option (list atom) :=
  match name with
  | EmptyString => Some []
  | String c name' =>
      match atoms_of name' with
      | None => None
      | Some p =>
          if Ascii.eqb c "." then Some (AnyChar :: p)
          else if special c then None
          else Some (Lit c :: p)
      end
  end.

Definition atom_matches (a : atom) (c : ascii) : bool :=
  match a with
  | Lit d => Ascii.eqb d c
  | AnyChar => negb (Ascii.eqb c "010")
  end.

(** The text left after the atoms have matched at the head of [s]. *)
Fixpoint match_atoms (p : list atom) (s : string) : option string :=
  match p, s with
  | [], _ => Some s
  | _ :: _, EmptyString => None
  | a :: p', String c s' =>
      if atom_matches a c then match_atoms p' s' else None
  end.

(** The class [[0-9\.]]. *)
Definition is_ver (c : ascii) : bool :=
  Ascii.eqb c "." || ((48 <=? nat_of_ascii c)%nat && (nat_of_ascii c <=? 57)%nat).

(** Length of the longest run of class characters at the head of [s]:
    the greedy [+]. *)
Fixpoint span_ver (s : string) : nat :=
  match s with
  | String c s' => if is_ver c then S (span_ver s') else O
  | EmptyString => O
  end.

(** [s] starts with [==]; the rest is returned. *)
Definition eqeq (s : string) : option string :=
  match s with
  | String a (String b r) =>
      if Ascii.eqb a "=" && Ascii.eqb b "=" then Some r else None
  | _ => None
  end.

(** Length of the match of [p==[0-9\.]+] anchored at the head of [s].
    Each atom takes one character and the class run is last, so the
    leftmost-greedy match needs no backtracking. *)
Definition match_at (p : list atom) (s : string) : option nat :=
  match match_atoms p s with
  | Some r =>
      match eqeq r with
      | Some v =>
          match span_ver v with
          | O => None
          | S k => Some (List.length p + 2 + S k)%nat
          end
      | None => None
      end
  | None => None
  end.

(** [pattern.search(s)] as a truth value. *)
Fixpoint search (p : list atom) (s : string) : bool :=
  match match_at p s with
  | Some _ => true
  | None =>
      match s with
      | EmptyString => false
      | String _ s' => search p s'
      end
  end.

(** [pattern.sub(repl, s)] *)
Definition sub (p : list atom) (repl s : string) : string :=
  Str.scan (match_at p) repl 0 s.

End Re.

(** ** The system state: filesystem, process environment, clock *)

Inductive node : Type :=
| File (mtime : Z) (data : string)
| Dir (mtime : Z) (entries : list string).

Definition node_mtime (n : node) : Z :=
  match n with File t _ => t | Dir t _ => t end.

Record sys : Type := Sys {
  fs : gmap string node;          (* path -> node *)
  environ : gmap string string;   (* os.environ *)
  cwd : string;                   (* os.getcwd() *)
  clock : Z                       (* stamps the files that are written *)
}.

Definition set_fs (f : gmap string node) (s : sys) : sys :=
  {| fs := f; environ := environ s; cwd := cwd s; clock := clock s |}.

Definition set_environ (e : gmap string string) (s : sys) : sys :=
  {| fs := fs s; environ := e; cwd := cwd s; clock := clock s |}.

(** ** [os.path] *)

Module Path.

(** [os.path.join(a, b)] of posixpath. *)
Definition join (a b : string) : string :=
  if Str.startswith "/" b then b
  else if String.eqb a "" || Str.ends_with_char "/" a then a ++ b
  else a ++ "/" ++ b.

Definition join3 (a b c : string) : string := join (join a b) c.

(** [os.path.basename(p)]: what follows the last slash. *)
Fixpoint basename (p : string) : string :=
  match p with
  | EmptyString => EmptyString
  | String _ p' => if Str.mem "/" p then basename p' else p
  end.

(** The prefix of [p] up to and including its last slash. *)
Fixpoint head (p : string) : string :=
  match p with
  | EmptyString => EmptyString
  | String c p' => if Str.mem "/" p then String c (head p') else EmptyString
  end.

Fixpoint all_slashes (p : string) : bool :=
  match p with
  | EmptyString => true
  | String c p' => Ascii.eqb c "/" && all_slashes p'
  end.

Fixpoint lstrip_slashes (p : string) : string :=
  match p with
  | String c p' => if Ascii.eqb c "/" then lstrip_slashes p' else p
  | EmptyString => EmptyString
  end.

(** [os.path.dirname(p)] *)
Definition dirname (p : string) : string :=
  let h := head p in
  if all_slashes h then h else String.rev (lstrip_slashes (String.rev h)).

(** A relative path is resolved against the working directory; the map
    of the filesystem is keyed by the resolved text. *)
Definition resolve (s : sys) (p : string) : string := join (cwd s) p.

(** The node at [p]; the empty path names nothing. *)
Definition lookup (s : sys) (p : string) : option node :=
  if String.eqb p "" then None else fs s !! resolve s p.

(** [os.path.exists(p)] *)
Definition exists_ (s : sys) (p : string) : bool :=
  match lookup s p with Some _ => true | None => false end.

End Path.

(** ** Events, exceptions and the monad *)

Inductive command : Type :=
| Argv (argv : list string)     (* run([...]) *)
| Shell (line : string).        (* run('...', shell=True) *)

Inductive level : Type := DEBUG | INFO | ERROR.

Inductive exn : Type :=
| OSError (path : string)                     (* os.stat, os.listdir *)
| IOError (path : string)                     (* open *)
| KeyError (key : string)                     (* os.environ[...] *)
| IndexError                                  (* [...][0], [...][-1] *)
| RunError (cmd : command) (code : Z)         (* run: nonzero exit *)
| SystemExit (code : Z)                       (* sys.exit *)
| RuntimeError                                (* recursion deeper than [test] goes *)
| PatternOutsideFragment (name : string).     (* a name [Re.atoms_of] does not cover *)

Record call : Type := Call {
  env_or_file : list string;
  dependencies : bool;
  redevelop : bool;
  recreate : bool;
  show_output : bool;
  match_test : option string;
  debug : bool
}.

(** Which function was entered: a record of the call itself, kept in the
    event list next to what the function does. *)
Inductive entered : Type :=
| InTest (c : call)
| InStrip (env : string)
| InEditable (env : string)
| InShow (env : string).

Inductive event : Type :=
| EvCall (f : entered)
| EvRun (cmd : command) (dir : option string) (silent : bool) (code : Z)
| EvWrite (path : string)                     (* a file opened for writing and written *)
| EvPrint (line : string)
| EvLog (lvl : level) (msg : string)
| EvLogExn (e : exn).

Record reply (A : Type) : Type := Reply {
  res : A + exn;        (* the value returned, or the exception raised *)
  st : sys;             (* the state left behind, also when raising *)
  evs : list event      (* what happened, oldest first *)
}.
Arguments Reply {A}.
Arguments res {A}.
Arguments st {A}.
Arguments evs {A}.

Definition M (A : Type) : Type := sys → reply A.

Definition ret {A} (a : A) : M A := fun s => Reply (inl a) s [].

Definition bind {A B} (m : M A) (f : A → M B) : M B := fun s =>
  let r := m s in
  match res r with
  | inl a => let r' := f a (st r) in Reply (res r') (st r') (evs r ++ evs r')
  | inr e => Reply (inr e) (st r) (evs r)
  end.

Declare Scope M_scope.
Delimit Scope M_scope with M.
Notation "x ← y ; z" := (bind y (fun x => z))
  (at level 20, y at level 100, z at level 200, only parsing) : M_scope.
Notation "x ;; z" := (bind x (fun _ => z))
  (at level 100, z at level 200, only parsing, right associativity) : M_scope.
Local Open Scope M_scope.

Definition raise {A} (e : exn) : M A := fun s => Reply (inr e) s [].
Definition emit (e : event) : M unit := fun s => Reply (inl tt) s [e].
Definition get : M sys := fun s => Reply (inl s) s [].
Definition put (s : sys) : M unit := fun _ => Reply (inl tt) s [].

(** [for x in l: body(x)] *)
Fixpoint for_each {A} (l : list A) (body : A → M unit) : M unit :=
  match l with
  | [] => ret tt
  | x :: l' => body x ;; for_each l' body
  end.

(** *** Filesystem calls *)

(** [os.path.exists(p)] *)
Definition path_exists (p : string) : M bool :=
  s ← get; ret (Path.exists_ s p).

(** [os.stat(p).st_mtime] *)
Definition stat_mtime (p : string) : M Z :=
  s ← get;
  match Path.lookup s p with
  | Some n => ret (node_mtime n)
  | None => raise (OSError p)
  end.

(** [os.listdir(p)] *)
Definition listdir (p : string) : M (list string) :=
  s ← get;
  match Path.lookup s p with
  | Some (Dir _ entries) => ret entries
  | _ => raise (OSError p)
  end.

(** [open(p).read()] *)
Definition read_file (p : string) : M string :=
  s ← get;
  match Path.lookup s p with
  | Some (File _ data) => ret data
  | _ => raise (IOError p)
  end.

(** [open(p, 'w').write(data)]: an existing file is overwritten in place
    and stamped; a missing one is created in its directory. *)
Definition write_file (p data : string) : M unit :=
  s ← get;
  let key := Path.resolve s p in
  if String.eqb p "" then raise (IOError p) else
  match fs s !! key with
  | Some (File _ _) =>
      put (set_fs (<[key := File (clock s) data]> (fs s)) s) ;;
      emit (EvWrite p)
  | Some (Dir _ _) => raise (IOError p)
  | None =>
      let parent := Path.dirname key in
      match fs s !! parent with
      | Some (Dir _ entries) =>
          put (set_fs (<[key := File (clock s) data]>
                        (<[parent := Dir (clock s) (entries ++ [Path.basename key])%list]> (fs s))) s) ;;
          emit (EvWrite p)
      | _ => raise (IOError p)
      end
  end.

(** ** What the module imports from the rest of the package *)

(** What a child process leaves behind. It cannot touch the environment
    variables or the working directory of its parent. *)
Record proc : Type := Proc {
  p_exit : Z;
  p_out : string;
  p_fs : gmap string node;
  p_clock : Z
}.

(** [workspace.commands.helpers.ToxIni]: the view of [tox.ini]. *)
Record ToxIni : Type := {
  tox_path : string;                          (* tox.path *)
  tox_repo : string;                          (* tox.repo *)
  envlist : list string;                      (* tox.envlist *)
  envdir : string → string;                   (* tox.envdir(env) *)
  bindir : string → option string → string;   (* tox.bindir(env, script=None) *)
  commands : string → list string             (* tox.commands(env) *)
}.

(** The functions of [workspace.scm], [workspace.config],
    [workspace.commands.helpers] and the operating system that [test.py]
    calls, taken as they are. *)
Record outside : Type := {
  spawn : command → option string → sys → proc;   (* a child process, run to its end *)
  repo_check : sys → bool;                        (* repo_check() passes *)
  repo_path : sys → string;                       (* repo_path() *)
  new_ToxIni : sys → string → ToxIni;             (* ToxIni(repo) *)
  product_name : string → string;                 (* product_name(path) *)
  product_path : string → string;                 (* product_path(name) *)
  product_repos : sys → list string;              (* product_repos() *)
  expand_product_groups : list string → list string;
  editable_product_dependencies : option string;  (* config.test.editable_product_dependencies *)
  abspath : sys → string → string                 (* os.path.abspath *)
}.

(** The value of a call that ends without [return] is [None]. *)
Inductive pyval : Type :=
| PyNone
| PyList (l : list string).

(** [if x:] for a string that may be [None]. *)
Definition truthy (o : option string) : bool :=
  match o with
  | Some (String _ _) => true
  | _ => false
  end.

Definition nonempty {A} (l : list A) : bool :=
  match l with [] => false | _ :: _ => true end.

(** [d in l] *)
Definition str_in (d : string) (l : list string) : bool :=
  bool_decide (d ∈ l).

(** [l[-1]] *)
Definition last_of (l : list string) : M string :=
  match last l with
  | Some x => ret x
  | None => raise IndexError
  end.

Section Commands.

Variable W : outside.

(** Modelled from the spec: [workspace.utils.run], which is not among the
    sources. "run(command, cwd=None, shell=False, silent=False,
    raises=True, return_output=False) -> captured output or raises on
    nonzero exit". *)
Definition run (cmd : command) (dir : option string) (silent raises : bool) : M string :=
  s ← get;
  let p := spawn W cmd dir s in
  put (Sys (p_fs p) (environ s) (cwd s) (p_clock p)) ;;
  emit (EvRun cmd dir silent (p_exit p)) ;;
  if raises && negb (p_exit p =? 0)
  then raise (RunError cmd (p_exit p))
  else ret (p_out p).

(** Modelled from the spec: [workspace.utils.log_exception], which is not
    among the sources. A failure inside the block "is caught, logged, and
    does not abort processing". *)
Definition log_exception (title : string) (body : M unit) : M unit := fun s =>
  let r := body s in
  match res r with
  | inl _ => r
  | inr e => Reply (inl tt) (st r) (evs r ++ [EvLog ERROR title; EvLogExn e])
  end.

(** *** [strip_version_from_entry_scripts] *)

(** The body of [for script in os.listdir(script_bin)], with the list
    [removed_from] it appends to. *)
Definition strip_script (p : list Re.atom) (name script_bin script : string)
    (removed_from : list string) : M (list string) :=
  let script_path := Path.join script_bin script in
  content ← read_file script_path;
  if Re.search p content then
    write_file script_path (Re.sub p name content) ;;
    ret (removed_from ++ [Path.basename script_path])%list
  else ret removed_from.

Fixpoint strip_scripts (p : list Re.atom) (name script_bin : string)
    (scripts : list string) (removed_from : list string) : M (list string) :=
  match scripts with
  | [] => ret removed_from
  | script :: rest =>
      removed_from' ← strip_script p name script_bin script removed_from;
      strip_scripts p name script_bin rest removed_from'
  end.

Definition strip_version_from_entry_scripts (tox : ToxIni) (env : string) : M pyval :=
  emit (EvCall (InStrip env)) ;;
  let name := product_name W (tox_repo tox) in
  let script_bin := bindir tox env None in
  ex ← path_exists script_bin;
  if ex then
    match Re.atoms_of name with
    | None => raise (PatternOutsideFragment name)
    | Some name_version_re =>
        scripts ← listdir script_bin;
        removed_from ← strip_scripts name_version_re name script_bin scripts [];
        (if nonempty removed_from
         then emit (EvLog DEBUG ("Removed version spec from entry script(s): "
                                 ++ Str.join ", " removed_from))
         else ret tt) ;;
        ret PyNone
    end
  else ret PyNone.

(** *** [install_editable_dependencies] *)

(** [[d for d in editable_dependencies
      if d in available_products and d in product_dependencies]] *)
Definition editable_libs (editable_dependencies available_products
    product_dependencies : list string) : list string :=
  List.filter (fun d => str_in d available_products && str_in d product_dependencies)
              editable_dependencies.

Definition requires_script (name : string) : string :=
  "import pkg_resources; print ' '.join([r.key for r in pkg_resources.get_distribution('"
  ++ name ++ "').requires()])".

(** The body of [for lib in libs]. *)
Definition install_editable (pip : string) (debug : bool) (lib : string) : M unit :=
  emit (EvLog INFO ("Installing " ++ lib ++ " in editable mode")) ;;
  log_exception ("An error occurred when installing " ++ lib ++ " in editable mode")
    (run (Argv [pip; "uninstall"; lib; "-y"]) None (negb debug) false ;;
     let lib_path := product_path W lib in
     run (Argv [pip; "install"; "--editable"; lib_path]) None (negb debug) true ;;
     ret tt).

Definition install_editable_dependencies (tox : ToxIni) (env : string) (debug : bool) : M unit :=
  emit (EvCall (InEditable env)) ;;
  if negb (truthy (editable_product_dependencies W)) then ret tt
  else
    let name := product_name W (tox_repo tox) in
    let python := bindir tox env (Some "python") in
    let script := requires_script name in
    let editable_dependencies :=
      expand_product_groups W
        (Str.split (default "" (editable_product_dependencies W))) in
    out ← run (Argv [python; "-c"; script]) None false true;
    let product_dependencies := Str.split out in
    s ← get;
    let available_products := map Path.basename (product_repos W s) in
    let libs := editable_libs editable_dependencies available_products product_dependencies in
    let pip := bindir tox env (Some "pip") in
    for_each libs (install_editable pip debug).

(** *** [show_installed_dependencies] *)

(** [script_template % (name, env)] *)
Definition dependencies_script (name env : string) : string :=
"
import os
import pkg_resources

cwd = os.getcwd()
workspace_dir = os.path.dirname(cwd)

libs = [r.key for r in pkg_resources.get_distribution('" ++ name ++ "').requires()]
output = []

print 'Product dependencies in " ++ env ++ ":'

def strip_cwd(dir):
  if dir.startswith(cwd + '/'):
    dir = dir[len(cwd):].lstrip('/')
  elif dir.startswith(workspace_dir):
    dir = os.path.join('..', dir[len(workspace_dir):].lstrip('/'))
  return dir

for lib in sorted(libs):
  try:
    dist = pkg_resources.get_distribution(lib)
    output.append('  %-25s %-10s  %s' % (lib, dist.version, strip_cwd(dist.location)))
  except pkg_resources.DistributionNotFound:
    print '  %s is not installed' % lib
  except Exception as e:
    print '  %s' % e

print '\n'.join(output)
".

Definition show_installed_dependencies (tox : ToxIni) (env : string) : M unit :=
  emit (EvCall (InShow env)) ;;
  let name := product_name W (tox_repo tox) in
  let script := dependencies_script name env in
  let python := bindir tox env (Some "python") in
  ex ← path_exists python;
  (if negb ex then
     emit (EvLog ERROR ("Test environment " ++ env ++
       " is not installed. Please run without --dependencies to install it first.")) ;;
     raise (SystemExit 1)
   else ret tt) ;;
  run (Argv [python; "-c"; script]) None false true ;;
  ret tt.

(** *** [test] *)

(** The nested function [requirements_updated] of the plain branch. *)
Definition requirements_updated (repo envdir : string) : M bool :=
  req_mtime ← stat_mtime (Path.join repo "setup.py");
  has_requirements ← path_exists (Path.join repo "requirements.txt");
  req_mtime ← (if has_requirements
               then t ← stat_mtime (Path.join repo "requirements.txt");
                    ret (Z.max req_mtime t)
               else ret req_mtime);
  env_mtime ← stat_mtime envdir;
  ret (env_mtime <? req_mtime).

(** [not os.path.exists(envdir) or requirements_updated()] *)
Definition must_redevelop (repo envdir : string) : M bool :=
  ex ← path_exists envdir;
  if negb ex then ret true else requirements_updated repo envdir.

(** The body of [for command in tox.commands(env)]. *)
Definition run_command (repo envdir pytest_args : string) (envs : list string)
    (env command : string) : M unit :=
  let full_command := Path.join3 envdir "bin" command in
  match Str.split full_command with
  | [] => raise IndexError
  | command_path :: _ =>
      ex ← path_exists command_path;
      if ex then
        let full_command :=
          if Str.contains "py.test" full_command
          then Str.replace "{env:PYTESTARGS:}" pytest_args full_command
          else full_command in
        let activate := ". " ++ Path.join3 envdir "bin" "activate" in
        run (Shell (activate ++ "; " ++ full_command)) (Some repo) false true ;;
        last_env ← last_of envs;
        if negb (String.eqb env last_env) then emit (EvPrint "") else ret tt
      else emit (EvLog ERROR (command_path ++ " does not exist"))
  end.

(** What the plain branch does with an environment it does not redevelop. *)
Definition run_commands (tox : ToxIni) (repo pytest_args : string)
    (envs : list string) (env : string) : M unit :=
  (if (1 <? List.length envs)%nat then emit (EvPrint env) else ret tt) ;;
  for_each (commands tox env) (run_command repo (envdir tox env) pytest_args envs env).

(** The body of [for env in envs] of the plain branch. [self] is [test]
    itself, called as [test([env], redevelop=True)]. *)
Definition test_env (self : call → M unit) (tox : ToxIni) (repo pytest_args : string)
    (envs : list string) (env : string) : M unit :=
  let envdir := envdir tox env in
  stale ← must_redevelop repo envdir;
  if stale then self (Call [env] false true false false None false)
  else run_commands tox repo pytest_args envs env.

(** The [elif redevelop or recreate:] branch. *)
Definition tox_command (tox : ToxIni) (envs : list string) (recreate : bool) : command :=
  Argv (["tox"; "-c"; tox_path tox]
        ++ (if nonempty envs then ["-e"; Str.join "," envs] else [])
        ++ (if recreate then ["-r"] else []))%list.

Definition synchronize (tox : ToxIni) (repo : string) (envs : list string)
    (recreate debug : bool) : M unit :=
  run (tox_command tox envs recreate) (Some repo) false true ;;
  for_each envs (fun env =>
    strip_version_from_entry_scripts tox env ;;
    install_editable_dependencies tox env debug).

(** "Strip out venv bin path to python": the [if 'VIRTUAL_ENV' in
    os.environ] block. *)
Definition strip_venv_path : M unit :=
  s ← get;
  match environ s !! "VIRTUAL_ENV" with
  | Some venv_bin =>
      match environ s !! "PATH" with
      | None => raise (KeyError "PATH")
      | Some path =>
          let kept := List.filter
                        (fun p => Path.exists_ s p && negb (Str.startswith venv_bin p))
                        (Str.split_on ":" path) in
          put (set_environ (<["PATH" := Str.join ":" kept]> (environ s)) s)
      end
  | None => ret tt
  end.

(** [for ef in env_or_file]: the names that exist are files, the others are
    environments. The result is [(envs, files)]. *)
Fixpoint split_env_or_file (s : sys) (l : list string) : list string * list string :=
  match l with
  | [] => ([], [])
  | ef :: l' =>
      let '(envs, files) := split_env_or_file s l' in
      if Path.exists_ s ef then (envs, abspath W s ef :: files) else (ef :: envs, files)
  end.

(** The [pytest_args] block; the text is also exported as [PYTESTARGS]. *)
Definition set_pytest_args (show_output : bool) (match_test : option string)
    (files : list string) : M string :=
  if show_output || truthy match_test || nonempty files then
    let pytest_args :=
      Str.join " " ((if show_output then ["-s"] else [])
                    ++ (if truthy match_test then [("-k " ++ default "" match_test)%string] else [])
                    ++ files)%list in
    s ← get;
    put (set_environ (<["PYTESTARGS" := pytest_args]> (environ s)) s) ;;
    ret pytest_args
  else ret "".

(** What [test] works with once its arguments are read. *)
Record setting : Type := Setting {
  s_tox : ToxIni;          (* tox = ToxIni(repo) *)
  s_repo : string;         (* repo = repo_path() *)
  s_envs : list string;    (* envs, the envlist of tox when none is named *)
  s_pytest_args : string   (* pytest_args *)
}.

(** [test] up to [if not envs: envs = tox.envlist]. *)
Definition prepare (c : call) : M setting :=
  s ← get;
  (if repo_check W s then ret tt else raise (SystemExit 1)) ;;
  let repo := repo_path W s in
  strip_venv_path ;;
  s ← get;
  let '(envs, files) := split_env_or_file s (env_or_file c) in
  pytest_args ← set_pytest_args (show_output c) (match_test c) files;
  s ← get;
  let tox := new_ToxIni W s repo in
  let envs := if nonempty envs then envs else envlist tox in
  ret (Setting tox repo envs pytest_args).

(** [test], with its recursive call left open as [self]. *)
Definition test_open (self : call → M unit) (c : call) : M unit :=
  emit (EvCall (InTest c)) ;;
  x ← prepare c;
  if dependencies c then
    for_each (s_envs x) (show_installed_dependencies (s_tox x))
  else if redevelop c || recreate c then
    synchronize (s_tox x) (s_repo x) (s_envs x) (recreate c) (debug c)
  else
    for_each (s_envs x)
      (test_env self (s_tox x) (s_repo x) (s_pytest_args x) (s_envs x)).

(** The only recursive call is [test([env], redevelop=True)], which takes
    the [elif redevelop or recreate] branch and calls nothing further: two
    levels are all of [test]. *)
Definition test_redevelop : call → M unit :=
  test_open (fun _ => raise RuntimeError).

Definition test : call → M unit := test_open test_redevelop.

End Commands.

Arguments run W cmd dir silent raises : simpl never.

(** * Observations and specification-side definitions *)

(** Version pins: [==] followed by a character of the class. *)
Definition pin_here (s : string) : bool :=
  match Re.eqeq s with
  | Some (String c _) => Re.is_ver c
  | _ => false
  end.

Fixpoint has_pin (s : string) : bool :=
  pin_here s ||
  match s with
  | EmptyString => false
  | String _ s' => has_pin s'
  end.

(** [s[:1]] *)
Definition first_char (s : string) : option ascii :=
  match s with
  | EmptyString => None
  | String c _ => Some c
  end.

(** The specification's reading of the check: "the most recent modification
    time among the packaging descriptor and (if present) the requirements
    file", and "stale iff any declaration file is strictly newer", stale
    as well when the root is missing. *)
Definition newest_declaration (repo : string) (s : sys) : option Z :=
  match Path.lookup s (Path.join repo "setup.py") with
  | None => None
  | Some descriptor =>
      match Path.lookup s (Path.join repo "requirements.txt") with
      | Some requirements => Some (Z.max (node_mtime descriptor) (node_mtime requirements))
      | None => Some (node_mtime descriptor)
      end
  end.



(** The calls recorded in an event list, oldest first. *)
Fixpoint calls (l : list event) : list entered :=
  match l with
  | [] => []
  | EvCall f :: l' => f :: calls l'
  | _ :: l' => calls l'
  end.

Definition not_a_call (e : event) : Prop :=
  match e with EvCall _ => False | _ => True end.

Definition a_write (e : event) : Prop :=
  match e with EvWrite _ => True | _ => False end.

(** What the batch does for one environment after tox has returned. *)
Definition post_steps (W : outside) (tox : ToxIni) (debug : bool) (env : string) : M unit :=
  strip_version_from_entry_scripts W tox env ;;
  install_editable_dependencies W tox env debug.

(** The post-step calls of a batch, in the order the loop makes them when
    nothing raises: normalizer then linker, entry by entry. *)
Definition post_step_calls (envs : list string) : list entered :=
  flat_map (fun env => [InStrip env; InEditable env]) envs.

(** The commands run, oldest first. *)
Fixpoint runs (l : list event) : list command :=
  match l with
  | [] => []
  | EvRun cmd _ _ _ :: l' => cmd :: runs l'
  | _ :: l' => runs l'
  end.

Definition pip_uninstall (pip lib : string) : command :=
  Argv [pip; "uninstall"; lib; "-y"].

Definition pip_install_editable (pip lib_path : string) : command :=
  Argv [pip; "install"; "--editable"; lib_path].

Definition after (p : proc) (s : sys) : sys :=
  Sys (p_fs p) (environ s) (cwd s) (p_clock p).

(** The products the linker links: computed once the interpreter has
    answered, from the allow-list of the configuration, the repositories
    then in the workspace and the names the interpreter printed. *)
Definition linked_products (W : outside) (out : string) (s : sys) : list string :=
  editable_libs
    (expand_product_groups W (Str.split (default "" (editable_product_dependencies W))))
    (map Path.basename (product_repos W s))
    (Str.split out).

Definition requires_command (W : outside) (tox : ToxIni) (env : string) : command :=
  Argv [bindir tox env (Some "python"); "-c"; requires_script (product_name W (tox_repo tox))].

(** No character of [name] is regular-expression syntax. *)
Fixpoint plain (name : string) : bool :=
  match name with
  | EmptyString => true
  | String c name' => negb (Re.special c) && plain name'
  end.

Fixpoint literals (name : string) : list Re.atom :=
  match name with
  | EmptyString => []
  | String c name' => Re.Lit c :: literals name'
  end.

(** The specification's reading of the pattern: "the product's own name
    immediately followed by [==] and a dotted numeric version", the version
    being a run of digits and dots. The result is the length of the
    occurrence at the head of [s]. *)
Definition pinned_name_at (name s : string) : option nat :=
  if Str.startswith name s then
    match Re.eqeq (Str.drop (String.length name) s) with
    | Some v =>
        match Re.span_ver v with
        | O => None
        | S k => Some (String.length name + 2 + S k)%nat
        end
    | None => None
    end
  else None.

(** "replaces each match with the bare product name" *)
Definition spec_normalize (name s : string) : string :=
  Str.scan (pinned_name_at name) name 0 s.

(** A pin of the text that the substitution does not consume: the scan of
    [Re.sub], looking for [==] and a class character at every position it
    copies. *)
Fixpoint stray_pin (p : list Re.atom) (skip : nat) (s : string) : bool :=
  match s with
  | EmptyString => false
  | String _ s' =>
      match skip with
      | S k => stray_pin p k s'
      | O =>
          match Re.match_at p s with
          | Some (S k) => stray_pin p k s'
          | _ => pin_here s || stray_pin p 0 s'
          end
      end
  end.

(** The text [open(path).read()] would return. *)
Definition content_at (s : sys) (path : string) : option string :=
  match Path.lookup s path with
  | Some (File _ data) => Some data
  | _ => None
  end.

(** Nothing at [path] for the pattern to find: not a readable file, or a
    file without a match. *)
Definition settled (p : list Re.atom) (s : sys) (path : string) : Prop :=
  match content_at s path with
  | Some c => Re.search p c = false
  | None => True
  end.

(** One substitution is enough for [c]. *)
Definition one_pass_enough (p : list Re.atom) (name c : string) : Prop :=
  Re.search p (Re.sub p name c) = false.

(** The paths written, oldest first. *)
Fixpoint writes (l : list event) : list string :=
  match l with
  | [] => []
  | EvWrite path :: l' => path :: writes l'
  | _ :: l' => writes l'
  end.

(** The state after [path] has been overwritten with [data]. *)
Definition overwritten (s : sys) (path data : string) : sys :=
  set_fs (<[Path.resolve s path := File (clock s) data]> (fs s)) s.

(** The lines logged at a level, oldest first. *)
Fixpoint logged (lvl : level) (l : list event) : list string :=
  match l with
  | [] => []
  | EvLog lvl' msg :: l' =>
      match lvl, lvl' with
      | DEBUG, DEBUG | INFO, INFO | ERROR, ERROR => msg :: logged lvl l'
      | _, _ => logged lvl l'
      end
  | _ :: l' => logged lvl l'
  end.

(** One pass is enough for every script of the batch that can be read. *)
Definition every_script_settles (p : list Re.atom) (name : string)
    (scripts_of_bin : string → Prop) (s : sys) : Prop :=
  ∀ q c, scripts_of_bin q → content_at s q = Some c → one_pass_enough p name c.

(** The directories [strip_venv_path] keeps of a PATH. *)
Definition kept_path_entries (s : sys) (venv_bin path : string) : list string :=
  List.filter (fun p => Path.exists_ s p && negb (Str.startswith venv_bin p))
              (Str.split_on ":" path).

(** The state [strip_venv_path] leaves when it returns. *)
Definition without_venv_path (s : sys) : sys :=
  match environ s !! "VIRTUAL_ENV", environ s !! "PATH" with
  | Some venv_bin, Some path =>
      set_environ (<["PATH" := Str.join ":" (kept_path_entries s venv_bin path)]> (environ s)) s
  | _, _ => s
  end.

(** The names of [env_or_file] that exist, and those that do not. *)
Definition named_files (s : sys) (l : list string) : list string :=
  List.filter (fun ef => Path.exists_ s ef) l.

Definition named_envs (s : sys) (l : list string) : list string :=
  List.filter (fun ef => negb (Path.exists_ s ef)) l.

(** The command of [show_installed_dependencies]. *)
Definition reporter_command (W : outside) (tox : ToxIni) (env : string) : command :=
  Argv [bindir tox env (Some "python"); "-c";
        dependencies_script (product_name W (tox_repo tox)) env].

(** [full_command.split()[0]] of the plain branch, for a command of tox.ini. *)
Definition command_path (envdir command : string) : string :=
  List.hd "" (Str.split (Path.join3 envdir "bin" command)).

(** [' '.join(pytest_args)] of [test]. *)
Definition pytest_args_text (show_output : bool) (match_test : option string)
    (files : list string) : string :=
  Str.join " " ((if show_output then ["-s"] else [])
                ++ (if truthy match_test then [("-k " ++ default "" match_test)%string] else [])
                ++ files)%list.

(** The shell line the plain branch runs for a command of tox.ini: the
    environment is activated, and [{env:PYTESTARGS:}] is filled in where
    the command mentions py.test. *)
Definition command_line (envdir pytest_args command : string) : string :=
  let full_command := Path.join3 envdir "bin" command in
  (". " ++ Path.join3 envdir "bin" "activate") ++ "; " ++
  (if Str.contains "py.test" full_command
   then Str.replace "{env:PYTESTARGS:}" pytest_args full_command
   else full_command).

(** What the normalizer may do to the node at a path: nothing, or replace
    a file by a file. *)
Definition same_kind (before after_ : option node) : Prop :=
  match before, after_ with
  | None, None => True
  | Some (Dir t entries), Some (Dir t' entries') => t = t' ∧ entries = entries'
  | Some (File _ _), Some (File _ _) => True
  | _, _ => False
  end.

(** The text of a script after [n] normalizations in a row. *)
Fixpoint passes (n : nat) (p : list Re.atom) (name c : string) : string :=
  match n with
  | O => c
  | S k => passes k p name (Re.sub p name c)
  end.

(** ** A workspace to run the functions on *)

Module Demo.

Definition repo : string := "/ws/mytool".

Definition tox : ToxIni := {|
  tox_path := "/ws/mytool/tox.ini";
  tox_repo := repo;
  envlist := ["py26"; "py27"];
  envdir := fun env => "/ws/mytool/.tox/" ++ env;
  bindir := fun env script =>
    match script with
    | None => "/ws/mytool/.tox/" ++ env ++ "/bin"
    | Some x => "/ws/mytool/.tox/" ++ env ++ "/bin/" ++ x
    end;
  commands := fun _ => ["py.test {env:PYTESTARGS:} tests"]
|}.

(** The repository with the environment py27 built at time 20, after
    setup.py was last touched at time 10; py26 is not built. The entry
    script of the product holds [script]. *)
Definition disk (script : string) : gmap string node :=
  list_to_map
    [("/ws/mytool/setup.py", File 10 "setup(name='mytool')");
     ("/ws/mytool/.tox/py27", Dir 20 ["bin"]);
     ("/ws/mytool/.tox/py27/bin", Dir 20 ["mytool"; "py.test"]);
     ("/ws/mytool/.tox/py27/bin/mytool", File 20 script);
     ("/ws/mytool/.tox/py27/bin/py.test", File 20 "othertool --flag")].

Definition start (script : string) : sys := Sys (disk script) ∅ repo 100.

(** The same without setup.py. *)
Definition bare : sys :=
  Sys (list_to_map [("/ws/mytool/.tox/py27", Dir 20 ["bin"])]) ∅ repo 100.


(** A workspace whose child processes answer by [answer] and leave the
    files alone. *)
Definition world (name : string) (allow : option string)
    (answer : command → Z * string) : outside := {|
  spawn := fun cmd _ s => Proc (fst (answer cmd)) (snd (answer cmd)) (fs s) (clock s + 1);
  repo_check := fun _ => true;
  repo_path := fun _ => repo;
  new_ToxIni := fun _ _ => tox;
  product_name := fun _ => name;
  product_path := fun lib => "/ws/" ++ lib;
  product_repos := fun _ => ["/ws/libA"; "/ws/libB"; "/ws/mytool"];
  expand_product_groups := fun names => names;
  editable_product_dependencies := allow;
  abspath := fun s p => Path.join (cwd s) p
|}.

Definition argv_of (cmd : command) : list string :=
  match cmd with Argv l => l | Shell _ => [] end.

Definition all_succeed (cmd : command) : Z * string := (0, "libA libB").

Definition tox_fails (cmd : command) : Z * string :=
  if String.eqb (hd "" (argv_of cmd)) "tox" then (2, "") else (0, "libA libB").

Definition interpreter_fails (cmd : command) : Z * string :=
  if String.eqb (nth 1 (argv_of cmd) "") "-c" && negb (String.eqb (hd "" (argv_of cmd)) "tox")
  then (1, "") else (0, "").

Definition install_fails (cmd : command) : Z * string :=
  if String.eqb (nth 1 (argv_of cmd) "") "install" then (1, "") else (0, "libA libB").

Definition redevelop_both : call :=
  Call ["py26"; "py27"] false true false false None false.

Definition both : setting := Setting tox repo ["py26"; "py27"] "".

End Demo.

(** * [setup.py]: developing the environments of a product group *)

(** The loop of [Setup.setup_product_group] that calls the [test] command
    for every product of the group (lines 353 to 367). The command is
    reached through [self.commander], which is not among the sources: it
    is taken as [develop], any computation. *)

Definition set_cwd (d : string) (s : sys) : sys :=
  {| fs := fs s; environ := environ s; cwd := d; clock := clock s |}.

(** [os.path.isdir(p)] *)
Definition is_dir (s : sys) (p : string) : bool :=
  match Path.lookup s p with Some (Dir _ _) => true | _ => false end.

(** [os.getcwd()] *)
Definition getcwd : M string := s ← get; ret (cwd s).

(** [os.chdir(p)]: the working directory becomes the resolved [p], which
    has to be a directory. *)
Definition chdir (p : string) : M unit :=
  s ← get;
  if is_dir s p then put (set_cwd (Path.resolve s p) s) else raise (OSError p).

(** What [except Exception] catches. [SystemExit] derives from
    [BaseException] only. The error of [run], whose class is not among the
    sources, is taken to derive from [Exception] as the errors of the
    standard library do. Where the model does not say what the code
    raised, nothing is taken to be caught. *)
Definition is_Exception (e : exn) : bool :=
  match e with
  | SystemExit _ | PatternOutsideFragment _ => false
  | _ => true
  end.

(** [try: body  except Exception as e: handler(e)  finally: final]. The
    [finally] block runs whatever happened before it; an exception of its
    own replaces the pending one. *)
Definition try_except_finally (body : M unit) (handler : exn → M unit)
    (final : M unit) : M unit := fun s =>
  let r := body s in
  let r1 :=
    match res r with
    | inl _ => r
    | inr e =>
        if is_Exception e
        then let h := handler e (st r) in Reply (res h) (st h) (evs r ++ evs h)%list
        else r
    end in
  let f := final (st r1) in
  match res f with
  | inl _ => Reply (res r1) (st f) (evs r1 ++ evs f)%list
  | inr e => Reply (inr e) (st f) (evs r1 ++ evs f)%list
  end.

Definition developing (product : string) : string :=
  "Developing environment for " ++ product.

Section DevelopLoop.

Variable W : outside.
Variable describe : exn → string.         (* '%s' % e *)
Variable develop : M unit.                (* self.commander.run('test', redevelop=True, install_only=True) *)

(** The body of the loop for one product. *)
Definition develop_product (current_dir product : string) : M unit :=
  emit (EvLog INFO (developing product)) ;;
  try_except_finally
    (let repo := product_path W product in
     chdir repo ;;
     develop)
    (fun e => emit (EvLog ERROR ("Error occurred when developing " ++ product ++ ": "
                                 ++ describe e)))
    (chdir current_dir).

Definition develop_environments (product_group : string) : M unit :=
  current_dir ← getcwd;
  for_each (expand_product_groups W [product_group]) (develop_product current_dir).

End DevelopLoop.

(** The key [p] of the map holds a directory. *)
Definition fs_is_dir (f : gmap string node) (p : string) : bool :=
  match f !! p with Some (Dir _ _) => true | _ => false end.

(** The callee leaves every directory a directory. *)
Definition keeps_directories (m : M unit) : Prop :=
  ∀ s p, fs_is_dir (fs s) p = true → fs_is_dir (fs (st (m s))) p = true.

(** ** What a call may change and raise *)

(** Every directory of [s] is a directory of [s']. *)
Definition directories_kept (s s' : sys) : Prop :=
  ∀ p, fs_is_dir (fs s) p = true → fs_is_dir (fs s') p = true.

(** No child process removes a directory or puts a file in its place. *)
Definition processes_keep_directories (W : outside) : Prop :=
  ∀ cmd dir s, directories_kept s (after (spawn W cmd dir s) s).

(** The working directory is the same, and so is every environment
    variable but [PATH] and [PYTESTARGS]. *)
Definition same_place (s s' : sys) : Prop :=
  cwd s' = cwd s
  ∧ ∀ k, k ≠ "PATH" → k ≠ "PYTESTARGS" → environ s' !! k = environ s !! k.




(** A computation moves the state along [R] and raises within [P]. *)
Definition sound {A} (R : sys → sys → Prop) (P : exn → Prop) (m : M A) : Prop :=
  ∀ s, R s (st (m s)) ∧ ∀ e, res (m s) = inr e → P e.

(** [self.commander.run('test', redevelop=True, install_only=True)], the
    keyword [install_only] ending in the [**kwargs] of [test]. *)
Definition test_redevelop_call : call := Call [] false true false false None false.

(** ** More of the workspace *)

Module Demo2.

(** A shell started inside a virtualenv. *)
Definition in_venv : sys :=
  Sys (<["/usr/bin" := Dir 1 []]> (<["/ws/venv/bin" := Dir 1 []]> (Demo.disk "mytool")))
      (<["VIRTUAL_ENV" := "/ws/venv"]>
         (<["PATH" := "/ws/venv/bin:/usr/bin:/opt/gone/bin"]> ∅))
      Demo.repo 100.

(** The same shell with PATH unset. *)
Definition in_venv_without_path : sys :=
  Sys (Demo.disk "mytool") (<["VIRTUAL_ENV" := "/ws/venv"]> ∅) Demo.repo 100.

(** A directory docs beside the environments. *)
Definition with_docs : sys :=
  Sys (<["/ws/mytool/docs" := Dir 5 []]> (Demo.disk "mytool")) ∅ Demo.repo 100.

(** The tests fail: every shell line exits with 1. *)
Definition tests_fail (cmd : command) : Z * string :=
  match cmd with
  | Shell _ => (1, "")
  | Argv _ => (0, "libA libB")
  end.

Definition report_both : call :=
  Call ["py27"; "py26"] true false false false None false.

Definition report_setting : setting :=
  Setting Demo.tox Demo.repo ["py27"; "py26"] "".

(** py27 with its interpreter installed. *)
Definition with_interpreter : sys :=
  Sys (<["/ws/mytool/.tox/py27/bin/python" := File 20 "ELF"]> (Demo.disk "mytool"))
      ∅ Demo.repo 100.

(** The workspace seen from its own directory, with the repository of
    mytool in it. *)
Definition workspace : sys :=
  Sys (<["/ws" := Dir 1 ["mytool"]]> (<["/ws/mytool" := Dir 5 [".tox"; "setup.py"]]>
         (Demo.disk "mytool")))
      ∅ "/ws" 100.

(** A workspace whose repository check fails. *)
Definition not_a_repo : outside := {|
  spawn := spawn (Demo.world "mytool" None Demo.all_succeed);
  repo_check := fun _ => false;
  repo_path := fun _ => Demo.repo;
  new_ToxIni := fun _ _ => Demo.tox;
  product_name := fun _ => "mytool";
  product_path := fun lib => "/ws/" ++ lib;
  product_repos := fun _ => ["/ws/mytool"];
  expand_product_groups := fun names => names;
  editable_product_dependencies := None;
  abspath := fun s p => Path.join (cwd s) p
|}.

(** ['%s' % e], as far as the examples need it. *)
Definition describe (e : exn) : string :=
  match e with
  | RunError _ _ => "command failed"
  | OSError path | IOError path => path
  | _ => "error"
  end.

(** pip cannot uninstall: every uninstall exits with 1. *)
Definition uninstall_fails (cmd : command) : Z * string :=
  if String.eqb (nth 1 (Demo.argv_of cmd) "") "uninstall" then (1, "") else (0, "libA libB").

(** A callee that cannot start tox. *)
Definition tox_is_missing : M unit := raise (RunError (Argv ["tox"]) 2).

End Demo2.

(** * Properties *)

(** ** The functions on small inputs *)

Example split_words :
  Str.split "  libA libB
 libC " = ["libA"; "libB"; "libC"].
Proof. reflexivity. Qed.

Example split_empty : Str.split "" = [].
Proof. reflexivity. Qed.

Example split_pathsep : Str.split_on ":" "/usr/bin::/bin" = ["/usr/bin"; ""; "/bin"].
Proof. reflexivity. Qed.

Example replace_pytestargs :
  Str.replace "{env:PYTESTARGS:}" "-s" "py.test {env:PYTESTARGS:} tests" = "py.test -s tests".
Proof. reflexivity. Qed.

Example replace_empty_old : Str.replace "" "-" "ab" = "-a-b-".
Proof. reflexivity. Qed.

Example atoms_mytool :
  Re.atoms_of "my-tool2" =
  Some [Re.Lit "m"; Re.Lit "y"; Re.Lit "-"; Re.Lit "t"; Re.Lit "o"; Re.Lit "o"; Re.Lit "l"; Re.Lit "2"].
Proof. reflexivity. Qed.

Example atoms_dotted :
  Re.atoms_of "a.b" = Some [Re.Lit "a"; Re.AnyChar; Re.Lit "b"].
Proof. reflexivity. Qed.

Example atoms_outside : Re.atoms_of "c++" = None.
Proof. reflexivity. Qed.

Example join_abs : Path.join "/repo" "/etc/x" = "/etc/x". Proof. reflexivity. Qed.
Example join_rel : Path.join "/repo" "setup.py" = "/repo/setup.py". Proof. reflexivity. Qed.
Example join_slash : Path.join "/repo/" "setup.py" = "/repo/setup.py". Proof. reflexivity. Qed.
Example join_bin : Path.join3 "/repo/.tox/py27" "bin" "py.test -s" = "/repo/.tox/py27/bin/py.test -s".
Proof. reflexivity. Qed.
Example basename_script : Path.basename "/repo/.tox/py27/bin/mytool" = "mytool". Proof. reflexivity. Qed.
Example basename_trailing : Path.basename "/repo/bin/" = "". Proof. reflexivity. Qed.
Example dirname_script : Path.dirname "/repo/.tox/py27/bin/mytool" = "/repo/.tox/py27/bin". Proof. reflexivity. Qed.
Example dirname_root : Path.dirname "/mytool" = "/". Proof. reflexivity. Qed.
Example dirname_plain : Path.dirname "mytool" = "". Proof. reflexivity. Qed.

(** ** How computations compose *)

Lemma bind_inl {A B} (m : M A) (f : A → M B) s a :
  res (m s) = inl a →
  bind m f s = Reply (res (f a (st (m s)))) (st (f a (st (m s))))
                     (evs (m s) ++ evs (f a (st (m s)))).
Proof. intros H. unfold bind. now rewrite H. Qed.

Lemma bind_inr {A B} (m : M A) (f : A → M B) s e :
  res (m s) = inr e →
  bind m f s = Reply (inr e) (st (m s)) (evs (m s)).
Proof. intros H. unfold bind. now rewrite H. Qed.

Lemma reply_eta {A} (r : reply A) : Reply (res r) (st r) (evs r) = r.
Proof. now destruct r. Qed.

Lemma bind_ret_l {A B} (a : A) (f : A → M B) s : bind (ret a) f s = f a s.
Proof. unfold bind, ret. simpl. apply reply_eta. Qed.

Lemma bind_pure {A B} (m : M A) (f : A → M B) s a :
  m s = Reply (inl a) s [] → bind m f s = f a s.
Proof. intros H. unfold bind. rewrite H. simpl. apply reply_eta. Qed.

Lemma bind_fail {A B} (m : M A) (f : A → M B) s e :
  m s = Reply (inr e) s [] → bind m f s = Reply (inr e) s [].
Proof. intros H. unfold bind. now rewrite H. Qed.

Lemma bind_step {A B} (m : M A) (f : A → M B) s a s1 ev :
  m s = Reply (inl a) s1 ev →
  bind m f s = Reply (res (f a s1)) (st (f a s1)) (ev ++ evs (f a s1)).
Proof. intros H. unfold bind. now rewrite H. Qed.

Lemma bind_get {B} (f : sys → M B) s : bind get f s = f s s.
Proof. unfold bind, get. simpl. apply reply_eta. Qed.

Lemma bind_raise {A B} (e : exn) (f : A → M B) s :
  bind (raise e) f s = Reply (inr e) s [].
Proof. reflexivity. Qed.

Lemma bind_emit {B} (e : event) (f : unit → M B) s :
  bind (emit e) f s = Reply (res (f tt s)) (st (f tt s)) (e :: evs (f tt s)).
Proof. reflexivity. Qed.

Lemma bind_assoc {A B C} (m : M A) (f : A → M B) (g : B → M C) s :
  bind (bind m f) g s = bind m (fun a => bind (f a) g) s.
Proof.
  unfold bind. destruct (res (m s)) as [a|e]; simpl; [|reflexivity].
  destruct (res (f a (st (m s)))) as [b|e]; simpl; [|reflexivity].
  now rewrite app_assoc.
Qed.

(** ** The staleness check *)


Lemma must_redevelop_no_descriptor repo envdir s r :
  Path.lookup s envdir = Some r →
  Path.lookup s (Path.join repo "setup.py") = None →
  must_redevelop repo envdir s = Reply (inr (OSError (Path.join repo "setup.py"))) s [].
Proof.
  intros Hr Hd. unfold must_redevelop, path_exists, Path.exists_.
  rewrite bind_assoc, bind_get, bind_ret_l. rewrite Hr. simpl.
  unfold requirements_updated, stat_mtime.
  rewrite bind_assoc, bind_get. now rewrite Hd.
Qed.

Lemma must_redevelop_verdict repo envdir s r t :
  Path.lookup s envdir = Some r →
  newest_declaration repo s = Some t →
  must_redevelop repo envdir s = Reply (inl (node_mtime r <? t)) s [].
Proof.
  intros Hr Ht. unfold must_redevelop, path_exists, Path.exists_.
  rewrite bind_assoc, bind_get, bind_ret_l. rewrite Hr. simpl.
  unfold newest_declaration in Ht.
  unfold requirements_updated, stat_mtime, path_exists, Path.exists_.
  rewrite bind_assoc, bind_get.
  destruct (Path.lookup s (Path.join repo "setup.py")) as [d|] eqn:Hd; [|discriminate].
  rewrite bind_ret_l, bind_assoc, bind_get, bind_ret_l.
  destruct (Path.lookup s (Path.join repo "requirements.txt")) as [q|] eqn:Hq.
  - rewrite !bind_assoc, bind_get. rewrite Hq.
    rewrite !bind_ret_l, bind_assoc, bind_get, Hr, !bind_ret_l.
    injection Ht as <-. reflexivity.
  - rewrite bind_ret_l, bind_assoc, bind_get, Hr, !bind_ret_l.
    injection Ht as <-. reflexivity.
Qed.

(** ** What a run leaves in the event list *)

Lemma run_reply W cmd dir silent raises s :
  let p := spawn W cmd dir s in
  run W cmd dir silent raises s =
  Reply (if raises && negb (p_exit p =? 0) then inr (RunError cmd (p_exit p)) else inl (p_out p))
        (Sys (p_fs p) (environ s) (cwd s) (p_clock p))
        [EvRun cmd dir silent (p_exit p)].
Proof.
  unfold run. cbv zeta. rewrite bind_get. unfold bind, put, emit. simpl.
  destruct (raises && negb (p_exit (spawn W cmd dir s) =? 0)); reflexivity.
Qed.

Lemma bind_evs_Forall {A B} (P : event → Prop) (m : M A) (f : A → M B) s :
  Forall P (evs (m s)) →
  (∀ a, res (m s) = inl a → Forall P (evs (f a (st (m s))))) →
  Forall P (evs (bind m f s)).
Proof.
  intros Hm Hf. unfold bind. destruct (res (m s)) as [a|e] eqn:E; simpl.
  - apply Forall_app. split; [assumption | now apply Hf].
  - assumption.
Qed.

Lemma for_each_evs_Forall {A} (P : event → Prop) (body : A → M unit) l :
  (∀ x s, Forall P (evs (body x s))) →
  ∀ s, Forall P (evs (for_each l body s)).
Proof.
  intros Hb. induction l as [|x l IH]; intros s; simpl.
  - constructor.
  - apply bind_evs_Forall; [apply Hb | intros _ _; apply IH].
Qed.


(** ** Reading the arguments *)

Lemma bind_evs {A B} (m : M A) (f : A → M B) s :
  evs (bind m f s) =
  (evs (m s) ++ match res (m s) with
                | inl a => evs (f a (st (m s)))
                | inr _ => []
                end)%list.
Proof.
  unfold bind. destruct (res (m s)); simpl; [reflexivity | now rewrite app_nil_r].
Qed.

Lemma bind_res_inl {A B} (m : M A) (f : A → M B) s b :
  res (bind m f s) = inl b →
  ∃ a, res (m s) = inl a ∧ res (f a (st (m s))) = inl b.
Proof.
  unfold bind. destruct (res (m s)) as [a|e]; simpl; [eauto | discriminate].
Qed.





(** A call with [redevelop] or [recreate] is the preparation followed by
    the synchronization of the batch, whatever [self] is. *)
Lemma test_open_synchronizes W self c s :
  dependencies c = false →
  redevelop c || recreate c = true →
  test_open W self c s =
  bind (emit (EvCall (InTest c)))
    (fun _ => bind (prepare W c)
       (fun x => synchronize W (s_tox x) (s_repo x) (s_envs x) (recreate c) (debug c))) s.
Proof. intros Hd Hr. unfold test_open. now rewrite Hd, Hr. Qed.


(** ** The synchronization of a batch *)

Lemma calls_app l1 l2 : calls (l1 ++ l2) = (calls l1 ++ calls l2)%list.
Proof.
  induction l1 as [|e l1 IH]; simpl; [reflexivity|].
  destruct e; simpl; now rewrite IH.
Qed.

Lemma calls_none l : Forall not_a_call l → calls l = [].
Proof.
  induction 1 as [|e l He _ IH]; simpl; [reflexivity|].
  destruct e; simpl in *; [contradiction | assumption..].
Qed.

Lemma run_no_call W cmd dir silent raises s :
  Forall not_a_call (evs (run W cmd dir silent raises s)).
Proof. rewrite run_reply. repeat constructor. Qed.

Lemma log_exception_evs_Forall (P : event → Prop) title body s :
  Forall P (evs (body s)) →
  (∀ e, P (EvLog ERROR title) ∧ P (EvLogExn e)) →
  Forall P (evs (log_exception title body s)).
Proof.
  intros Hb Hl. unfold log_exception.
  destruct (res (body s)) as [|e]; simpl; [assumption|].
  apply Forall_app. split; [assumption|].
  destruct (Hl e). repeat constructor; assumption.
Qed.

Lemma install_editable_no_call W pip debug lib s :
  Forall not_a_call (evs (install_editable W pip debug lib s)).
Proof.
  unfold install_editable. apply bind_evs_Forall; [repeat constructor|].
  intros _ _. apply log_exception_evs_Forall; [|intros; split; exact I].
  apply bind_evs_Forall; [apply run_no_call|]. intros _ _.
  apply bind_evs_Forall; [apply run_no_call|]. intros _ _. constructor.
Qed.

Lemma install_editable_dependencies_calls W tox env debug s :
  calls (evs (install_editable_dependencies W tox env debug s)) = [InEditable env].
Proof.
  unfold install_editable_dependencies. rewrite bind_emit. simpl. f_equal.
  apply calls_none.
  destruct (negb (truthy (editable_product_dependencies W))); [constructor|].
  apply bind_evs_Forall; [apply run_no_call|]. intros out _.
  rewrite bind_get. apply for_each_evs_Forall. intros lib s'.
  apply install_editable_no_call.
Qed.

Lemma read_file_silent p s : evs (read_file p s) = [].
Proof.
  unfold read_file. rewrite bind_get.
  destruct (Path.lookup s p) as [[]|]; reflexivity.
Qed.

Lemma write_file_writes p data s : Forall a_write (evs (write_file p data s)).
Proof.
  unfold write_file. rewrite bind_get.
  destruct (String.eqb p ""); [constructor|].
  destruct (fs s !! Path.resolve s p) as [[]|]; [repeat constructor..|].
  destruct (fs s !! Path.dirname (Path.resolve s p)) as [[]|]; repeat constructor.
Qed.

Lemma strip_script_writes p name script_bin script removed_from s :
  Forall a_write (evs (strip_script p name script_bin script removed_from s)).
Proof.
  unfold strip_script. apply bind_evs_Forall.
  { rewrite read_file_silent. constructor. }
  intros content _. destruct (Re.search p content); [|constructor].
  apply bind_evs_Forall; [apply write_file_writes | intros; constructor].
Qed.

Lemma strip_scripts_writes p name script_bin scripts :
  ∀ removed_from s,
    Forall a_write (evs (strip_scripts p name script_bin scripts removed_from s)).
Proof.
  induction scripts as [|script rest IH]; intros removed_from s; simpl; [constructor|].
  apply bind_evs_Forall; [apply strip_script_writes | intros; apply IH].
Qed.

Lemma strip_version_calls W tox env s :
  calls (evs (strip_version_from_entry_scripts W tox env s)) = [InStrip env].
Proof.
  unfold strip_version_from_entry_scripts. rewrite bind_emit. simpl. f_equal.
  apply calls_none.
  destruct (Path.exists_ s (bindir tox env None)); [|constructor].
  destruct (Re.atoms_of _) as [re|]; [|constructor].
  apply bind_evs_Forall.
  { unfold listdir. rewrite bind_get. destruct (Path.lookup _ _) as [[]|]; constructor. }
  intros scripts _. apply bind_evs_Forall.
  { eapply Forall_impl; [apply strip_scripts_writes|]. now intros []. }
  intros removed_from _. apply bind_evs_Forall; [|intros; constructor].
  destruct (nonempty removed_from); repeat constructor.
Qed.

Lemma post_steps_calls W tox debug env s :
  let r := post_steps W tox debug env s in
  calls (evs r) `prefix_of` [InStrip env; InEditable env]
  ∧ (∀ u, res r = inl u → calls (evs r) = [InStrip env; InEditable env]).
Proof.
  unfold post_steps. cbv zeta. rewrite bind_evs, calls_app, strip_version_calls.
  split.
  - destruct (res (strip_version_from_entry_scripts W tox env s)).
    + rewrite install_editable_dependencies_calls. reflexivity.
    + simpl. now exists [InEditable env].
  - intros u Hu. apply bind_res_inl in Hu as (a & Ha & _).
    rewrite Ha. now rewrite install_editable_dependencies_calls.
Qed.

Lemma post_loop_calls W tox debug envs :
  ∀ s, let r := for_each envs (post_steps W tox debug) s in
  calls (evs r) `prefix_of` post_step_calls envs
  ∧ (∀ u, res r = inl u → calls (evs r) = post_step_calls envs).
Proof.
  induction envs as [|env envs IH]; intros s; cbv zeta.
  - simpl. split; [reflexivity | intros; reflexivity].
  - change (for_each (env :: envs) (post_steps W tox debug) s)
      with (bind (post_steps W tox debug env)
              (fun _ => for_each envs (post_steps W tox debug)) s).
    change (post_step_calls (env :: envs))
      with ([InStrip env; InEditable env] ++ post_step_calls envs)%list.
    rewrite bind_evs, calls_app.
    destruct (post_steps_calls W tox debug env s) as [Hpre Hall].
    split.
    + destruct (res (post_steps W tox debug env s)) as [u|e] eqn:E.
      * rewrite (Hall u eq_refl). apply prefix_app.
        apply (IH (st (post_steps W tox debug env s))).
      * rewrite app_nil_r. now apply prefix_app_r.
    + intros u Hu. apply bind_res_inl in Hu as (a & Ha & Hrest).
      rewrite Ha, (Hall a Ha). f_equal.
      apply (IH (st (post_steps W tox debug env s))) in Hrest. exact Hrest.
Qed.

Lemma synchronize_unfold W tox repo envs recreate debug s :
  synchronize W tox repo envs recreate debug s =
  bind (run W (tox_command tox envs recreate) (Some repo) false true)
       (fun _ => for_each envs (post_steps W tox debug)) s.
Proof. reflexivity. Qed.

Lemma synchronize_calls W tox repo envs rc dbg s :
  p_exit (spawn W (tox_command tox envs rc) (Some repo) s) = 0 →
  let r := synchronize W tox repo envs rc dbg s in
  calls (evs r) `prefix_of` post_step_calls envs
  ∧ (res r = inl tt → calls (evs r) = post_step_calls envs).
Proof.
  intros Hzero. cbv zeta. rewrite synchronize_unfold, bind_evs, run_reply.
  cbv zeta. rewrite Hzero. simpl.
  set (s1 := Sys _ _ _ _).
  destruct (post_loop_calls W tox dbg envs s1) as [Hpre Hall].
  split; [exact Hpre|].
  intros Hres. apply bind_res_inl in Hres as (a & Ha & Hrest).
  rewrite run_reply in Hrest. cbv zeta in Hrest. simpl in Hrest.
  apply (Hall tt). exact Hrest.
Qed.

Lemma synchronize_tox_failure W tox repo envs rc dbg s :
  let cmd := tox_command tox envs rc in
  let p := spawn W cmd (Some repo) s in
  p_exit p ≠ 0 →
  synchronize W tox repo envs rc dbg s =
    Reply (inr (RunError cmd (p_exit p)))
          (Sys (p_fs p) (environ s) (cwd s) (p_clock p))
          [EvRun cmd (Some repo) false (p_exit p)].
Proof.
  intros cmd p Hfail.
  rewrite synchronize_unfold. unfold bind. rewrite run_reply. cbv zeta.
  fold cmd. fold p. apply Z.eqb_neq in Hfail. rewrite Hfail. reflexivity.
Qed.

Lemma test_synchronize_prepared W c s0 x s :
  dependencies c = false →
  redevelop c || recreate c = true →
  prepare W c s0 = Reply (inl x) s [] →
  let r := synchronize W (s_tox x) (s_repo x) (s_envs x) (recreate c) (debug c) s in
  test W c s0 = Reply (res r) (st r) (EvCall (InTest c) :: evs r).
Proof.
  intros Hd Hr Hprep. cbv zeta.
  unfold test. rewrite test_open_synchronizes by assumption.
  rewrite bind_emit. unfold bind. rewrite Hprep. reflexivity.
Qed.


Lemma bind_ext {A B} (m : M A) (f g : A → M B) s :
  (∀ a s', f a s' = g a s') → bind m f s = bind m g s.
Proof. intros H. unfold bind. destruct (res (m s)); [now rewrite H | reflexivity]. Qed.

Lemma for_each_app {A} (l1 l2 : list A) (body : A → M unit) s :
  for_each (l1 ++ l2) body s = bind (for_each l1 body) (fun _ => for_each l2 body) s.
Proof.
  revert s. induction l1 as [|x l1 IH]; intros s.
  - cbn [app for_each]. now rewrite bind_ret_l.
  - cbn [app for_each]. rewrite bind_assoc.
    apply bind_ext. intros _ s'. apply IH.
Qed.

(** A loop that raises has gone through an initial part of the list
    without raising, and raises in the turn that follows. *)
Lemma for_each_stops {A} (l : list A) (body : A → M unit) : ∀ s e,
  res (for_each l body s) = inr e →
  ∃ done x rest, l = (done ++ x :: rest)%list
    ∧ res (for_each done body s) = inl tt
    ∧ res (body x (st (for_each done body s))) = inr e.
Proof.
  induction l as [|x l IH]; intros s e H; [discriminate|].
  cbn [for_each] in H. unfold bind in H.
  destruct (res (body x s)) as [u|e'] eqn:E; cbn [res] in H.
  - destruct (IH _ _ H) as (done & y & rest & -> & Hdone & Hy).
    exists (x :: done), y, rest. cbn [for_each app]. unfold bind. rewrite E.
    cbn [res st]. auto.
  - injection H as <-. exists [], x, l. cbn [for_each app ret res st]. auto.
Qed.

(** The turn that raises ends the loop: what follows it is not run. *)
Lemma for_each_raises_after {A} (done rest : list A) x (body : A → M unit) s e :
  res (for_each done body s) = inl tt →
  res (body x (st (for_each done body s))) = inr e →
  for_each (done ++ x :: rest) body s
  = Reply (inr e) (st (body x (st (for_each done body s))))
      (evs (for_each done body s) ++ evs (body x (st (for_each done body s)))).
Proof.
  intros Hdone Hx. rewrite for_each_app. unfold bind at 1. rewrite Hdone.
  cbn [for_each]. unfold bind. now rewrite Hx.
Qed.

(** C2, as the code has it. When the tox run of a redevelop or recreate
    returns zero, the normalizer and linker calls of the batch are, in
    order, an initial part of: normalizer for the first entry, linker for
    the first entry, normalizer for the second, and so on, one pair per
    entry of the batch. So the linker never runs for an entry before the
    normalizer has run for it, and neither runs twice for an entry. When
    the call returns without an exception the list is complete: each entry
    gets the normalizer and then the linker, once each. Nothing catches an
    exception of a post-step: when the normalizer or the linker raises for
    an entry, after the entries before it have gone through, the whole
    call raises that exception; the calls made are the pairs of the
    entries before it and then the normalizer alone, if it is the one that
    raised, or the normalizer and the linker; the entries after it get
    neither call. An exception of the call is always one of these. *)
Theorem post_steps_once_in_order W c s0 x s :
  dependencies c = false →
  redevelop c || recreate c = true →
  prepare W c s0 = Reply (inl x) s [] →
  let p := spawn W (tox_command (s_tox x) (s_envs x) (recreate c)) (Some (s_repo x)) s in
  p_exit p = 0 →
  let r := test W c s0 in
  let steps := post_steps W (s_tox x) (debug c) in
  calls (evs r) `prefix_of` InTest c :: post_step_calls (s_envs x)
  ∧ (res r = inl tt → calls (evs r) = InTest c :: post_step_calls (s_envs x))
  ∧ (∀ done env rest e,
       s_envs x = (done ++ env :: rest)%list →
       let before := for_each done steps (after p s) in
       res before = inl tt →
       res (steps env (st before)) = inr e →
       res r = inr e
       ∧ calls (evs r)
         = (InTest c :: post_step_calls done
            ++ match res (strip_version_from_entry_scripts W (s_tox x) env (st before)) with
               | inr _ => [InStrip env]
               | inl _ => [InStrip env; InEditable env]
               end)%list)
  ∧ (∀ e, res r = inr e →
       ∃ done env rest,
         s_envs x = (done ++ env :: rest)%list
         ∧ res (for_each done steps (after p s)) = inl tt
         ∧ res (steps env (st (for_each done steps (after p s)))) = inr e).
Proof.
  intros Hd Hr Hprep p Hzero r steps. subst r.
  rewrite (test_synchronize_prepared W c s0 x s Hd Hr Hprep). cbn [res evs calls].
  destruct (synchronize_calls W _ _ _ _ (debug c) s Hzero) as [Hpre Hall].
  assert (Hsync : synchronize W (s_tox x) (s_repo x) (s_envs x) (recreate c) (debug c) s
                  = let loop := for_each (s_envs x) steps (after p s) in
                    Reply (res loop) (st loop)
                      (EvRun (tox_command (s_tox x) (s_envs x) (recreate c))
                         (Some (s_repo x)) false 0 :: evs loop)).
  { rewrite synchronize_unfold. unfold bind. rewrite run_reply. cbv zeta. fold p.
    rewrite Hzero. reflexivity. }
  split; [now apply prefix_cons|]. split; [intros Hres; f_equal; now apply Hall|].
  rewrite Hsync. cbv zeta. cbn [res evs calls]. split.
  - intros done env rest e Henvs Hbefore Hraise. rewrite Henvs.
    rewrite (for_each_raises_after done rest env steps (after p s) e Hbefore Hraise).
    cbn [res evs]. split; [reflexivity|]. f_equal. rewrite calls_app. f_equal.
    + now apply (post_loop_calls W (s_tox x) (debug c) done (after p s)) with tt.
    + generalize (st (for_each done steps (after p s))). intros s1.
      unfold steps, post_steps. rewrite bind_evs, calls_app, strip_version_calls.
      destruct (res (strip_version_from_entry_scripts W (s_tox x) env s1)).
      * now rewrite install_editable_dependencies_calls.
      * reflexivity.
  - intros e He. now apply for_each_stops.
Qed.

(** C3. A nonzero exit of the tox run aborts the synchronization: the call
    raises the error of that run to its caller, the run is the only thing
    the batch has done, and neither the normalizer nor the linker is called
    for any environment. *)
Theorem tox_failure_aborts_batch W c s0 x s :
  dependencies c = false →
  redevelop c || recreate c = true →
  prepare W c s0 = Reply (inl x) s [] →
  let cmd := tox_command (s_tox x) (s_envs x) (recreate c) in
  let p := spawn W cmd (Some (s_repo x)) s in
  p_exit p ≠ 0 →
  test W c s0 =
    Reply (inr (RunError cmd (p_exit p)))
          (Sys (p_fs p) (environ s) (cwd s) (p_clock p))
          [EvCall (InTest c); EvRun cmd (Some (s_repo x)) false (p_exit p)]
  ∧ (∀ env, (InStrip env ∉ calls (evs (test W c s0)))
            ∧ (InEditable env ∉ calls (evs (test W c s0)))).
Proof.
  intros Hd Hr Hprep cmd p Hfail.
  rewrite (test_synchronize_prepared W c s0 x s Hd Hr Hprep).
  rewrite (synchronize_tox_failure W _ _ _ _ (debug c) s Hfail). simpl.
  split; [reflexivity|].
  intros env. split; intros Hin; apply list_elem_of_In in Hin;
    destruct Hin as [Hin|[]]; discriminate.
Qed.

(** ** The editable-dependency linker *)

Lemma runs_app l1 l2 : runs (l1 ++ l2) = (runs l1 ++ runs l2)%list.
Proof.
  induction l1 as [|e l1 IH]; simpl; [reflexivity|].
  destruct e; simpl; now rewrite IH.
Qed.

(** One turn of the loop, spelled out: both pip commands are run whatever
    the first one answers, nothing is raised, and a failed install leaves
    two lines in the log. *)
Lemma install_editable_reply W pip debug lib s :
  let un := spawn W (pip_uninstall pip lib) None s in
  let s1 := after un s in
  let ins := spawn W (pip_install_editable pip (product_path W lib)) None s1 in
  install_editable W pip debug lib s =
  Reply (inl tt) (after ins s1)
    ([EvLog INFO ("Installing " ++ lib ++ " in editable mode");
      EvRun (pip_uninstall pip lib) None (negb debug) (p_exit un);
      EvRun (pip_install_editable pip (product_path W lib)) None (negb debug) (p_exit ins)]
     ++ (if p_exit ins =? 0 then []
         else [EvLog ERROR ("An error occurred when installing " ++ lib ++ " in editable mode");
               EvLogExn (RunError (pip_install_editable pip (product_path W lib)) (p_exit ins))]))%list.
Proof.
  cbv zeta. unfold install_editable. rewrite bind_emit.
  unfold log_exception, bind. rewrite !run_reply. cbv zeta. simpl.
  rewrite ?run_reply. cbv zeta. simpl.
  unfold pip_uninstall, pip_install_editable, after.
  destruct (p_exit (spawn W (Argv [pip; "install"; "--editable"; product_path W lib]) None _) =? 0);
    reflexivity.
Qed.

Lemma install_loop W pip debug libs :
  ∀ s, let r := for_each libs (install_editable W pip debug) s in
  res r = inl tt
  ∧ runs (evs r) =
    flat_map (fun lib => [pip_uninstall pip lib;
                          pip_install_editable pip (product_path W lib)]) libs.
Proof.
  induction libs as [|lib libs IH]; intros s; cbv zeta; [split; reflexivity|].
  change (for_each (lib :: libs) (install_editable W pip debug) s)
    with (bind (install_editable W pip debug lib)
            (fun _ => for_each libs (install_editable W pip debug)) s).
  unfold bind. rewrite install_editable_reply. cbv zeta. cbn [res st evs].
  match goal with |- context [for_each libs _ ?s1] => destruct (IH s1) as [Hres Hruns] end.
  split; [exact Hres|].
  rewrite runs_app, Hruns, runs_app. simpl.
  now destruct (p_exit _ =? 0).
Qed.

Lemma install_editable_dependencies_links W tox env debug s :
  truthy (editable_product_dependencies W) = true →
  let q := spawn W (requires_command W tox env) None s in
  p_exit q = 0 →
  let pip := bindir tox env (Some "pip") in
  let r := install_editable_dependencies W tox env debug s in
  res r = inl tt
  ∧ runs (evs r) =
    requires_command W tox env ::
    flat_map (fun lib => [pip_uninstall pip lib;
                          pip_install_editable pip (product_path W lib)])
             (linked_products W (p_out q) (after q s)).
Proof.
  intros Hcfg q Hq pip. cbv zeta.
  assert (Hrun : run W (requires_command W tox env) None false true s =
                 Reply (inl (p_out q)) (after q s)
                       [EvRun (requires_command W tox env) None false 0]).
  { rewrite run_reply. cbv zeta. fold q. rewrite Hq. reflexivity. }
  unfold install_editable_dependencies. rewrite bind_emit, Hcfg.
  cbn [negb res st evs runs].
  fold (requires_command W tox env). fold pip.
  rewrite (bind_step _ _ _ _ _ _ Hrun), bind_get.
  fold (linked_products W (p_out q) (after q s)).
  destruct (install_loop W pip debug (linked_products W (p_out q) (after q s)) (after q s))
    as [Hres Hruns].
  cbn [res st evs app runs].
  split; [exact Hres|]. f_equal. exact Hruns.
Qed.

Lemma str_in_spec d l : str_in d l = true ↔ d ∈ l.
Proof. unfold str_in. apply bool_decide_eq_true. Qed.

Lemma editable_libs_spec E A P d :
  d ∈ editable_libs E A P ↔ d ∈ E ∧ d ∈ A ∧ d ∈ P.
Proof.
  unfold editable_libs. rewrite list_elem_of_In, filter_In, <- list_elem_of_In.
  rewrite andb_true_iff, !str_in_spec. tauto.
Qed.

(** C7. The products the linker links are, as a set, the intersection of
    the allow-list, the products available in the workspace and the
    declared dependencies; the set does not depend on the order in which
    any of the three is listed; with allow-list {libA, libB}, dependencies
    {libA, libC} and only libA available, it is exactly {libA}. The pip
    commands of a linker call are run for these products and no other. *)
Theorem linked_set_is_intersection W tox env debug s :
  (∀ E A P : list string,
     (list_to_set (editable_libs E A P) : gset string)
     = list_to_set E ∩ list_to_set A ∩ list_to_set P)
  ∧ (∀ E A P E' A' P' : list string,
       E ≡ₚ E' → A ≡ₚ A' → P ≡ₚ P' →
       (list_to_set (editable_libs E' A' P') : gset string)
       = list_to_set (editable_libs E A P))
  ∧ editable_libs ["libA"; "libB"] ["libA"] ["libA"; "libC"] = ["libA"]
  ∧ (truthy (editable_product_dependencies W) = true →
     let q := spawn W (requires_command W tox env) None s in
     p_exit q = 0 →
     let pip := bindir tox env (Some "pip") in
     runs (evs (install_editable_dependencies W tox env debug s)) =
     requires_command W tox env ::
     flat_map (fun lib => [pip_uninstall pip lib;
                           pip_install_editable pip (product_path W lib)])
       (editable_libs
          (expand_product_groups W (Str.split (default "" (editable_product_dependencies W))))
          (map Path.basename (product_repos W (after q s)))
          (Str.split (p_out q)))).
Proof.
  assert (Hset : ∀ E A P : list string,
     (list_to_set (editable_libs E A P) : gset string)
     = list_to_set E ∩ list_to_set A ∩ list_to_set P).
  { intros E A P. apply set_eq. intros d.
    rewrite !elem_of_intersection, !elem_of_list_to_set, editable_libs_spec. tauto. }
  split; [exact Hset|]. split; [|split].
  - intros E A P E' A' P' HE HA HP. rewrite !Hset.
    apply set_eq. intros d. rewrite !elem_of_intersection, !elem_of_list_to_set.
    now rewrite HE, HA, HP.
  - reflexivity.
  - intros Hcfg q Hq pip.
    apply (install_editable_dependencies_links W tox env debug s Hcfg Hq).
Qed.

(** The linker once the setting is there: the interpreter is asked, and the
    loop follows if it answered. *)
Lemma install_editable_dependencies_reply W tox env debug s :
  truthy (editable_product_dependencies W) = true →
  let q := spawn W (requires_command W tox env) None s in
  let pip := bindir tox env (Some "pip") in
  let loop := for_each (linked_products W (p_out q) (after q s))
                (install_editable W pip debug) (after q s) in
  install_editable_dependencies W tox env debug s
  = if p_exit q =? 0
    then Reply (res loop) (st loop)
           (EvCall (InEditable env)
            :: EvRun (requires_command W tox env) None false (p_exit q) :: evs loop)
    else Reply (inr (RunError (requires_command W tox env) (p_exit q))) (after q s)
           [EvCall (InEditable env);
            EvRun (requires_command W tox env) None false (p_exit q)].
Proof.
  intros Hcfg q pip loop. unfold install_editable_dependencies.
  rewrite bind_emit, Hcfg. cbn [negb]. fold (requires_command W tox env). fold pip.
  pose proof (run_reply W (requires_command W tox env) None false true s) as Hrun.
  cbv zeta in Hrun. fold q in Hrun. cbn [andb] in Hrun.
  destruct (p_exit q =? 0); cbn [negb] in Hrun.
  - rewrite (bind_step _ _ _ _ _ _ Hrun), bind_get. reflexivity.
  - unfold bind. rewrite Hrun. reflexivity.
Qed.

(** C8, as the code has it. The guard of the linker tests the setting, not
    the allow-list made from it. With the setting unset or the empty
    string the linker returns at once: no process is started (neither the
    interpreter nor pip) and the state is left as it was. With any other
    setting the interpreter of the environment is started, also when the
    allow-list made from the setting is empty (a blank setting, groups
    that expand to nothing): the interpreter is then the only process, no
    pip command is run, and the state is what the interpreter left. *)
Theorem empty_allow_list_is_noop W tox env debug s :
  let r := install_editable_dependencies W tox env debug s in
  let q := spawn W (requires_command W tox env) None s in
  let allow_list :=
    expand_product_groups W (Str.split (default "" (editable_product_dependencies W))) in
  (editable_product_dependencies W = None ∨ editable_product_dependencies W = Some "" →
     r = Reply (inl tt) s [EvCall (InEditable env)] ∧ runs (evs r) = [] ∧ st r = s)
  ∧ (editable_product_dependencies W ≠ None →
     editable_product_dependencies W ≠ Some "" →
     (∃ pips, runs (evs r) = requires_command W tox env :: pips)
     ∧ (allow_list = [] →
        runs (evs r) = [requires_command W tox env] ∧ st r = after q s)).
Proof.
  intros r q allow_list. subst r. split.
  - intros Hcfg.
    assert (H : install_editable_dependencies W tox env debug s
                = Reply (inl tt) s [EvCall (InEditable env)]).
    { unfold install_editable_dependencies. rewrite bind_emit.
      destruct Hcfg as [-> | ->]; reflexivity. }
    rewrite H. repeat split.
  - intros Hsome Hempty.
    assert (Hcfg : truthy (editable_product_dependencies W) = true).
    { destruct (editable_product_dependencies W) as [[|a v]|]; [contradiction| |contradiction].
      reflexivity. }
    rewrite (install_editable_dependencies_reply W tox env debug s Hcfg). cbv zeta. fold q.
    destruct (p_exit q =? 0); cbn [evs st runs].
    + split; [eauto|]. intros Hnone.
      unfold linked_products. fold allow_list. rewrite Hnone. split; reflexivity.
    + split; [eauto|]. intros _. split; reflexivity.
Qed.

(** C9, as the code has it. The loop over the products to link does not
    stop at a failure. Whatever pip answers, for however many products,
    the linker returns normally and has run the uninstall and then the
    editable install of every product of the set, in order. The two
    failures are not treated alike. A failed install raises inside the
    guarded block of its turn, which logs the error and ends normally. A
    failed uninstall raises nothing ([raises=False]): it is neither
    caught nor logged, the install of the product follows, and when that
    succeeds the turn logs no error at all. *)
Theorem linker_loop_survives_failures W tox env debug s :
  truthy (editable_product_dependencies W) = true →
  let q := spawn W (requires_command W tox env) None s in
  p_exit q = 0 →
  let pip := bindir tox env (Some "pip") in
  let r := install_editable_dependencies W tox env debug s in
  res r = inl tt
  ∧ runs (evs r) =
    requires_command W tox env ::
    flat_map (fun lib => [pip_uninstall pip lib;
                          pip_install_editable pip (product_path W lib)])
             (linked_products W (p_out q) (after q s))
  ∧ (∀ lib s1,
       let turn := install_editable W pip debug lib s1 in
       let un := spawn W (pip_uninstall pip lib) None s1 in
       let cmd := pip_install_editable pip (product_path W lib) in
       let ins := spawn W cmd None (after un s1) in
       let title := "An error occurred when installing " ++ lib ++ " in editable mode" in
       res turn = inl tt
       ∧ runs (evs turn) = [pip_uninstall pip lib; cmd]
       ∧ EvRun (pip_uninstall pip lib) None (negb debug) (p_exit un) ∈ evs turn
       ∧ (p_exit ins ≠ 0 →
          logged ERROR (evs turn) = [title]
          ∧ EvLogExn (RunError cmd (p_exit ins)) ∈ evs turn)
       ∧ (p_exit ins = 0 →
          logged ERROR (evs turn) = [] ∧ ∀ e, EvLogExn e ∉ evs turn)).
Proof.
  intros Hcfg q Hq pip r.
  destruct (install_editable_dependencies_links W tox env debug s Hcfg Hq) as [Hres Hruns].
  split; [exact Hres|]. split; [exact Hruns|].
  intros lib s1 turn un cmd ins title. unfold turn.
  rewrite install_editable_reply. cbv zeta. fold un. fold cmd. fold ins. fold title.
  cbn [res evs]. split; [reflexivity|]. split; [|split; [|split]].
  - rewrite runs_app. simpl. now destruct (p_exit ins =? 0).
  - apply list_elem_of_In. simpl. auto.
  - intros Hfail. apply Z.eqb_neq in Hfail. rewrite Hfail.
    split; [reflexivity|]. apply list_elem_of_In, in_or_app; right; simpl; auto.
  - intros Hok. rewrite Hok. split; [reflexivity|].
    intros e Hin. apply list_elem_of_In in Hin. simpl in Hin.
    destruct Hin as [H|[H|[H|[]]]]; discriminate.
Qed.

Lemma must_redevelop_existing_root repo envdir s root :
  Path.lookup s envdir = Some root →
  must_redevelop repo envdir s = requirements_updated repo envdir s.
Proof.
  intros Hr. unfold must_redevelop, path_exists, Path.exists_.
  rewrite bind_assoc, bind_get, bind_ret_l. now rewrite Hr.
Qed.

(** C10. The check stats setup.py without asking whether it exists. For an
    environment whose root directory exists: if setup.py is missing,
    [requirements_updated] raises the error of [os.stat] and gives no
    verdict, and the pass over the environment ends with that error before
    anything is run; if setup.py is there the check returns a boolean,
    whether or not requirements.txt exists. *)
Theorem staleness_check_needs_setup_py W self tox repo pytest_args envs env s root :
  Path.lookup s (envdir tox env) = Some root →
  let setup_py := Path.join repo "setup.py" in
  (Path.lookup s setup_py = None →
     requirements_updated repo (envdir tox env) s = Reply (inr (OSError setup_py)) s []
     ∧ test_env W self tox repo pytest_args envs env s = Reply (inr (OSError setup_py)) s [])
  ∧ (∀ descriptor, Path.lookup s setup_py = Some descriptor →
     ∃ verdict : bool,
       requirements_updated repo (envdir tox env) s = Reply (inl verdict) s []).
Proof.
  intros Hroot setup_py. split.
  - intros Hd.
    pose proof (must_redevelop_no_descriptor repo _ s root Hroot Hd) as H.
    split.
    + now rewrite <- (must_redevelop_existing_root repo _ s root Hroot).
    + unfold test_env. now rewrite (bind_fail _ _ _ _ H).
  - intros descriptor Hd.
    destruct (newest_declaration repo s) as [t|] eqn:Ht.
    + exists (node_mtime root <? t).
      rewrite <- (must_redevelop_existing_root repo _ s root Hroot).
      now apply must_redevelop_verdict.
    + unfold newest_declaration in Ht. fold setup_py in Ht. rewrite Hd in Ht.
      destruct (Path.lookup s (Path.join repo "requirements.txt")); discriminate.
Qed.

(** ** The pattern and the substitution *)

Module ReFacts.
Import Re.

Lemma match_at_nil p : match_at p "" = None.
Proof. unfold match_at. destruct p; reflexivity. Qed.

Lemma match_at_length p s n : match_at p s = Some n → ∃ k, n = S k.
Proof.
  unfold match_at. destruct (match_atoms p s); [|discriminate].
  destruct (eqeq s0); [|discriminate].
  destruct (span_ver s1); [discriminate|].
  intros [= <-]. rewrite Nat.add_succ_r. eauto.
Qed.

Lemma scan_skip m repl : m "" = None →
  ∀ k s, Str.scan m repl k s = Str.scan m repl 0 (Str.drop k s).
Proof.
  intros Hm. induction k as [|k IH]; intros s; [reflexivity|].
  destruct s as [|c s]; simpl.
  - now rewrite Hm.
  - apply IH.
Qed.

Lemma sub_nil p repl : sub p repl "" = "".
Proof. unfold sub. simpl. now rewrite match_at_nil. Qed.

Lemma sub_match p repl s n :
  match_at p s = Some n → sub p repl s = repl ++ sub p repl (Str.drop n s).
Proof.
  intros H. destruct (match_at_length _ _ _ H) as [k ->].
  destruct s as [|c s]; [now rewrite match_at_nil in H|].
  unfold sub. simpl Str.scan at 1. rewrite H.
  now rewrite (scan_skip _ _ (match_at_nil p)).
Qed.

Lemma sub_no_match p repl c s :
  match_at p (String c s) = None → sub p repl (String c s) = String c (sub p repl s).
Proof. intros H. unfold sub. simpl. now rewrite H. Qed.

Lemma search_match p s n : match_at p s = Some n → search p s = true.
Proof. intros H. destruct s; simpl; now rewrite H. Qed.

Lemma search_cons p c s :
  search p (String c s) = false → match_at p (String c s) = None ∧ search p s = false.
Proof. simpl. destruct (match_at p (String c s)); [discriminate | auto]. Qed.

(** [search] answers whether the pattern matches somewhere in the text. *)
Lemma search_spec p s :
  search p s = true ↔ ∃ k n, match_at p (Str.drop k s) = Some n.
Proof.
  induction s as [|c s IH].
  - simpl. rewrite match_at_nil. split; [discriminate|].
    intros (k & n & H). destruct k; simpl in H; now rewrite match_at_nil in H.
  - cbn [search]. destruct (match_at p (String c s)) as [n|] eqn:E.
    + split; [|reflexivity]. intros _. now exists 0%nat, n.
    + rewrite IH. split.
      * intros (k & n & H). now exists (S k), n.
      * intros ([|k] & n & H); simpl in H; [congruence | eauto].
Qed.

(** Where nothing matches, the substitution returns its argument. *)
Lemma sub_no_search p repl s : search p s = false → sub p repl s = s.
Proof.
  induction s as [|c s IH]; intros H; [apply sub_nil|].
  apply search_cons in H as [Hm Hs].
  rewrite sub_no_match by assumption. now rewrite IH.
Qed.

Lemma drop_length_le n s : (String.length (Str.drop n s) <= String.length s)%nat.
Proof.
  revert s. induction n as [|n IH]; intros [|c s]; simpl; try lia.
  specialize (IH s). lia.
Qed.

Lemma has_pin_here s : pin_here s = true → has_pin s = true.
Proof. intros H. destruct s; cbn [has_pin]; now rewrite H. Qed.

Lemma has_pin_tail c s : has_pin s = true → has_pin (String c s) = true.
Proof. intros H. simpl. rewrite H. apply orb_true_r. Qed.

Lemma match_atoms_pin p : ∀ s r,
  match_atoms p s = Some r → has_pin r = true → has_pin s = true.
Proof.
  induction p as [|a p IH]; intros s r H Hr; simpl in H.
  - now injection H as ->.
  - destruct s as [|c s]; [discriminate|].
    destruct (atom_matches a c); [|discriminate].
    apply has_pin_tail. eauto.
Qed.

Lemma match_at_pin p s n : match_at p s = Some n → has_pin s = true.
Proof.
  unfold match_at. destruct (match_atoms p s) as [r|] eqn:Hr; [|discriminate].
  destruct (eqeq r) as [v|] eqn:Hv; [|discriminate].
  destruct v as [|c v]; [discriminate|]. simpl.
  destruct (is_ver c) eqn:Hc; [|discriminate]. intros _.
  apply (match_atoms_pin p s r Hr). apply has_pin_here.
  unfold pin_here. now rewrite Hv, Hc.
Qed.

(** A text without a pin has no match, whatever the name. *)
Lemma no_pin_no_search p s : has_pin s = false → search p s = false.
Proof.
  induction s as [|c s IH]; intros H; simpl.
  - now rewrite match_at_nil.
  - destruct (match_at p (String c s)) eqn:Hm.
    + apply match_at_pin in Hm. congruence.
    + apply IH. simpl in H. now apply orb_false_elim in H as [_ H].
Qed.

End ReFacts.

(** ** Names without special characters *)

Module PlainNames.
Import Re ReFacts.

Lemma plain_atoms name : plain name = true → atoms_of name = Some (literals name).
Proof.
  induction name as [|c name IH]; simpl; [reflexivity|].
  intros H. apply andb_true_iff in H as [Hc Hn]. rewrite (IH Hn).
  assert (Hdot : Ascii.eqb c "." = false).
  { destruct (Ascii.eqb c ".") eqn:E; [|reflexivity].
    apply Ascii.eqb_eq in E. subst c. discriminate. }
  rewrite Hdot. apply negb_true_iff in Hc. now rewrite Hc.
Qed.

Lemma literals_length name : List.length (literals name) = String.length name.
Proof. induction name; simpl; congruence. Qed.

Lemma match_literals name : ∀ s,
  match_atoms (literals name) s =
  if Str.startswith name s then Some (Str.drop (String.length name) s) else None.
Proof.
  induction name as [|c name IH]; intros s; simpl; [reflexivity|].
  destruct s as [|d s]; [reflexivity|]. simpl.
  destruct (Ascii.eqb c d); simpl; [apply IH | reflexivity].
Qed.

(** For a plain name the compiled pattern finds exactly the occurrences of
    the name followed by [==] and a version. *)
Lemma match_at_literals name s : match_at (literals name) s = pinned_name_at name s.
Proof.
  unfold match_at, pinned_name_at. rewrite match_literals, literals_length.
  now destruct (Str.startswith name s).
Qed.

Lemma sub_literals name s : sub (literals name) name s = spec_normalize name s.
Proof.
  unfold sub, spec_normalize. generalize 0%nat.
  induction s as [|c s IH]; intros k; simpl.
  - now rewrite match_at_literals.
  - destruct k; [|apply IH]. rewrite match_at_literals.
    destruct (pinned_name_at name (String c s)) as [[|n]|]; now rewrite ?IH.
Qed.

End PlainNames.

Module Idempotence.
Import Re ReFacts PlainNames.

Lemma stray_skip p : ∀ k s, stray_pin p k s = stray_pin p 0 (Str.drop k s).
Proof.
  induction k as [|k IH]; intros s; [reflexivity|].
  destruct s as [|c s]; [reflexivity | apply IH].
Qed.

Lemma stray_match p s n :
  match_at p s = Some n → stray_pin p 0 s = stray_pin p 0 (Str.drop n s).
Proof.
  intros H. destruct (match_at_length _ _ _ H) as [k ->].
  destruct s as [|c s]; [now rewrite match_at_nil in H|].
  simpl stray_pin at 1. rewrite H. cbn [Str.drop]. apply stray_skip.
Qed.

Lemma stray_no_match p c s :
  match_at p (String c s) = None →
  stray_pin p 0 (String c s) = pin_here (String c s) || stray_pin p 0 s.
Proof. intros H. simpl. now rewrite H. Qed.

(** A text without any pin has no stray one. *)
Lemma no_pin_no_stray p : ∀ s k, has_pin s = false → stray_pin p k s = false.
Proof.
  induction s as [|c s IH]; intros k H; [reflexivity|].
  cbn [has_pin] in H. apply orb_false_elim in H as [Hhere Hrest].
  cbn [stray_pin]. destruct k; [|now apply IH].
  destruct (match_at p (String c s)) as [[|n]|];
    rewrite ?Hhere; cbn [orb]; now apply IH.
Qed.

(** The wrapper that setuptools writes for a console script pins the
    product twice; both pins are occurrences of the pattern. *)
Example entry_script_has_no_stray_pin :
  stray_pin (literals "mytool") 0
    "#!/ws/mytool/.tox/py27/bin/python
# EASY-INSTALL-ENTRY-SCRIPT: 'mytool==1.4.2','console_scripts','mytool'
__requires__ = 'mytool==1.4.2'
import sys
from pkg_resources import load_entry_point
sys.exit(load_entry_point('mytool==1.4.2', 'console_scripts', 'mytool')())
" = false.
Proof. reflexivity. Qed.

Section PlainName.

Variable name : string.
Hypothesis name_plain : plain name = true.
Hypothesis name_not_empty : name ≠ "".
Hypothesis name_without_equals : Str.mem "=" name = false.

Local Abbreviation p := (literals name).

Lemma hd_name_app t : first_char (name ++ t) = first_char name.
Proof. destruct name; [contradiction | reflexivity]. Qed.

Lemma hd_name_not_equals : first_char name ≠ Some "="%char.
Proof.
  destruct name as [|c n]; [discriminate|]. simpl. intros [= ->].
  cbn [Str.mem] in name_without_equals. rewrite Ascii.eqb_refl in name_without_equals.
  discriminate.
Qed.

Lemma match_hd s n : match_at p s = Some n → first_char s = first_char name.
Proof.
  unfold p. rewrite match_at_literals. unfold pinned_name_at.
  destruct (Str.startswith name s) eqn:E; [|discriminate]. intros _.
  destruct name as [|c nm]; [contradiction|].
  destruct s as [|d s]; [discriminate|]. simpl in *.
  apply andb_true_iff in E as [E _]. apply Ascii.eqb_eq in E. now subst.
Qed.

(** The substitution keeps the first character of the text. *)
Lemma hd_sub s : first_char (sub p name s) = first_char s.
Proof.
  destruct s as [|c s]; [now rewrite sub_nil|].
  destruct (match_at p (String c s)) as [n|] eqn:E.
  - rewrite (sub_match _ _ _ _ E), hd_name_app. symmetry. now apply (match_hd _ n).
  - now rewrite sub_no_match.
Qed.

Lemma pin_name_app : ∀ t, has_pin (name ++ t) = has_pin t.
Proof.
  clear name_plain name_not_empty. revert name_without_equals.
  induction name as [|c n IH]; intros H t; [reflexivity|].
  cbn [Str.mem] in H. apply orb_false_elim in H as [Hc Hn].
  change (String c n ++ t) with (String c (n ++ t)).
  cbn [has_pin]. rewrite (IH Hn).
  replace (pin_here (String c (n ++ t))) with false; [reflexivity|].
  unfold pin_here, eqeq. destruct (n ++ t) as [|d r]; [reflexivity|].
  rewrite Ascii.eqb_sym in Hc. now rewrite Hc.
Qed.

(** If the result of the substitution starts with [=] and one more
    character, the text does too. *)
Lemma sub_starts_equals s c o :
  sub p name s = String "=" (String c o) → ∃ r, s = String "=" (String c r).
Proof.
  destruct s as [|d s]; [now rewrite sub_nil|].
  destruct (match_at p (String d s)) as [n|] eqn:E.
  - rewrite (sub_match _ _ _ _ E). intros H.
    exfalso. apply hd_name_not_equals. rewrite <- (hd_name_app (sub p name (Str.drop n (String d s)))).
    now rewrite H.
  - rewrite sub_no_match by assumption. intros [= -> H].
    assert (Hc : first_char s = Some c) by (rewrite <- hd_sub; now rewrite H).
    destruct s as [|c' r]; [discriminate|]. injection Hc as ->. eauto.
Qed.

Lemma pin_here_sub c s :
  pin_here (String c (sub p name s)) = true → pin_here (String c s) = true.
Proof.
  unfold pin_here. cbn [eqeq].
  destruct (sub p name s) as [|d o] eqn:E; [discriminate|].
  destruct (Ascii.eqb c "=" && Ascii.eqb d "=") eqn:Heq; [|discriminate].
  destruct o as [|v o]; [discriminate|]. intros Hv.
  apply andb_true_iff in Heq as [Hc Hd]. apply Ascii.eqb_eq in Hd. subst d.
  destruct (sub_starts_equals _ _ _ E) as [r ->].
  now rewrite Hc.
Qed.

(** When the substitution consumes every pin of the text, its result has
    none. *)
Lemma no_stray_no_pin : ∀ n s,
  (String.length s <= n)%nat →
  stray_pin p 0 s = false → has_pin (sub p name s) = false.
Proof.
  induction n as [|n IH]; intros s Hlen Hs.
  - destruct s; [now rewrite sub_nil | simpl in Hlen; lia].
  - destruct s as [|c s]; [now rewrite sub_nil|].
    destruct (match_at p (String c s)) as [m|] eqn:E.
    + rewrite (sub_match _ _ _ _ E), pin_name_app.
      rewrite (stray_match _ _ _ E) in Hs.
      destruct (match_at_length _ _ _ E) as [k ->].
      apply IH; [|assumption].
      simpl in *. pose proof (drop_length_le k s). lia.
    + rewrite (stray_no_match _ _ _ E) in Hs.
      apply orb_false_elim in Hs as [Hpin Hrest].
      rewrite sub_no_match by assumption. cbn [has_pin].
      rewrite (IH s) by (simpl in Hlen; lia || assumption).
      rewrite orb_false_r.
      destruct (pin_here (String c (sub p name s))) eqn:Hp; [|reflexivity].
      apply pin_here_sub in Hp. congruence.
Qed.

(** The second substitution finds nothing. *)
Lemma no_stray_settles s :
  stray_pin p 0 s = false → search p (sub p name s) = false.
Proof.
  intros H. apply no_pin_no_search. now apply (no_stray_no_pin (String.length s)).
Qed.

End PlainName.

End Idempotence.

(** ** The normalizer on the filesystem *)

Module Normalizer.
Import Re ReFacts.

Lemma lookup_file_key s path t c :
  Path.lookup s path = Some (File t c) →
  (path =? "")%string = false ∧ fs s !! Path.resolve s path = Some (File t c).
Proof. unfold Path.lookup. destruct (path =? "")%string; [discriminate | auto]. Qed.

(** One turn of the loop over the scripts. *)
Lemma strip_script_reply p name script_bin script removed_from s :
  let path := Path.join script_bin script in
  strip_script p name script_bin script removed_from s =
  match content_at s path with
  | None => Reply (inr (IOError path)) s []
  | Some c =>
      if search p c
      then Reply (inl (removed_from ++ [Path.basename path])%list)
                 (overwritten s path (sub p name c)) [EvWrite path]
      else Reply (inl removed_from) s []
  end.
Proof.
  cbv zeta. unfold strip_script, content_at, read_file. rewrite bind_assoc, bind_get.
  destruct (Path.lookup s (Path.join script_bin script)) as [[t c|t l]|] eqn:E;
    [|reflexivity..].
  rewrite bind_ret_l. destruct (search p c); [|reflexivity].
  apply lookup_file_key in E as [Hne Hkey].
  unfold write_file, bind, get, put, emit, ret. simpl. rewrite Hne, Hkey. reflexivity.
Qed.

Lemma lookup_overwritten s path data q :
  Path.lookup (overwritten s path data) q =
  if (q =? "")%string then None
  else if decide (Path.resolve s path = Path.resolve s q)
       then Some (File (clock s) data)
       else Path.lookup s q.
Proof.
  unfold Path.lookup, overwritten, Path.resolve. simpl.
  destruct (q =? "")%string; [reflexivity|].
  rewrite lookup_insert. reflexivity.
Qed.

(** What the loop leaves alone: every path at which there was nothing for
    the pattern to find keeps its node, timestamp included. *)
Lemma strip_script_frame p name script_bin script removed_from s q :
  settled p s q →
  Path.lookup (st (strip_script p name script_bin script removed_from s)) q = Path.lookup s q.
Proof.
  intros Hq. rewrite strip_script_reply. cbv zeta.
  destruct (content_at s (Path.join script_bin script)) as [c|] eqn:Hc; [|reflexivity].
  destruct (search p c) eqn:Hs; [|reflexivity]. cbn [st].
  rewrite lookup_overwritten.
  destruct (q =? "")%string eqn:Hne.
  { unfold Path.lookup. now rewrite Hne. }
  destruct (decide _) as [Heq|]; [exfalso|reflexivity].
  unfold settled, content_at in Hq. unfold content_at in Hc.
  destruct (Path.lookup s (Path.join script_bin script)) as [[t d|]|] eqn:E; try discriminate.
  injection Hc as ->. apply lookup_file_key in E as [_ Hkey].
  unfold Path.lookup in Hq. rewrite Hne, <- Heq, Hkey in Hq. congruence.
Qed.

Lemma strip_scripts_frame p name script_bin scripts : ∀ removed_from s q,
  settled p s q →
  Path.lookup (st (strip_scripts p name script_bin scripts removed_from s)) q = Path.lookup s q.
Proof.
  induction scripts as [|script rest IH]; intros removed_from s q Hq; [reflexivity|].
  cbn [strip_scripts]. unfold bind.
  pose proof (strip_script_frame p name script_bin script removed_from s q Hq) as Hstep.
  destruct (res (strip_script p name script_bin script removed_from s)) as [acc|e]; cbn [st].
  - rewrite IH; [exact Hstep|]. unfold settled, content_at. now rewrite Hstep.
  - exact Hstep.
Qed.

Lemma strip_script_cwd p name script_bin script removed_from s :
  cwd (st (strip_script p name script_bin script removed_from s)) = cwd s.
Proof.
  rewrite strip_script_reply. cbv zeta.
  destruct (content_at s (Path.join script_bin script)) as [c|]; [|reflexivity].
  destruct (search p c); reflexivity.
Qed.

(** A turn leaves the other files alone. *)
Lemma strip_script_other p name script_bin script removed_from s q :
  Path.resolve s (Path.join script_bin script) ≠ Path.resolve s q →
  Path.lookup (st (strip_script p name script_bin script removed_from s)) q = Path.lookup s q.
Proof.
  intros Hne. rewrite strip_script_reply. cbv zeta.
  destruct (content_at s (Path.join script_bin script)) as [c|]; [|reflexivity].
  destruct (search p c); [|reflexivity]. cbn [st]. rewrite lookup_overwritten.
  destruct (q =? "")%string eqn:E.
  - unfold Path.lookup. now rewrite E.
  - destruct (decide _); [contradiction | reflexivity].
Qed.

Lemma strip_scripts_other p name script_bin scripts : ∀ removed_from s q,
  (∀ script, script ∈ scripts →
     Path.resolve s (Path.join script_bin script) ≠ Path.resolve s q) →
  Path.lookup (st (strip_scripts p name script_bin scripts removed_from s)) q = Path.lookup s q.
Proof.
  induction scripts as [|script rest IH]; intros removed_from s q Hne; [reflexivity|].
  cbn [strip_scripts]. unfold bind.
  pose proof (strip_script_other p name script_bin script removed_from s q
                (Hne script ltac:(constructor))) as Hstep.
  pose proof (strip_script_cwd p name script_bin script removed_from s) as Hcwd.
  destruct (res (strip_script p name script_bin script removed_from s)) as [acc|e]; cbn [st].
  - rewrite IH; [exact Hstep|]. intros x Hx. unfold Path.resolve. rewrite Hcwd.
    apply Hne. now constructor.
  - exact Hstep.
Qed.

(** What a pass that returns has done to each script, when the entries of
    the directory name different files: a script with a match holds the
    substituted text, a script without one is as it was. *)
Lemma pass_effect p name script_bin scripts : ∀ removed_from s l,
  NoDup (map (fun script => Path.resolve s (Path.join script_bin script)) scripts) →
  res (strip_scripts p name script_bin scripts removed_from s) = inl l →
  ∀ script c, script ∈ scripts →
    content_at s (Path.join script_bin script) = Some c →
    content_at (st (strip_scripts p name script_bin scripts removed_from s))
               (Path.join script_bin script)
    = Some (if search p c then sub p name c else c).
Proof.
  induction scripts as [|first rest IH]; intros removed_from s l Hdup Hres script c Hin Hc.
  { inversion Hin. }
  cbn [map] in Hdup. apply NoDup_cons in Hdup as [Hfresh Hdup].
  cbn [strip_scripts] in *. unfold bind in *.
  pose proof (strip_script_cwd p name script_bin first removed_from s) as Hcwd.
  pose proof (strip_script_reply p name script_bin first removed_from s) as Hturn.
  cbv zeta in Hturn.
  destruct (res (strip_script p name script_bin first removed_from s)) as [acc|e] eqn:Hstep;
    [|discriminate].
  cbn [res st] in *.
  assert (Hdup1 : NoDup (map (fun x => Path.resolve
                    (st (strip_script p name script_bin first removed_from s))
                    (Path.join script_bin x)) rest)).
  { unfold Path.resolve. now rewrite Hcwd. }
  assert (Hkeys : ∀ x, x ∈ rest →
            Path.resolve (st (strip_script p name script_bin first removed_from s))
              (Path.join script_bin x)
            ≠ Path.resolve (st (strip_script p name script_bin first removed_from s))
                (Path.join script_bin first)).
  { intros x Hx Heq. apply Hfresh. unfold Path.resolve in Heq. rewrite Hcwd in Heq.
    fold (Path.resolve s (Path.join script_bin x)) in Heq.
    fold (Path.resolve s (Path.join script_bin first)) in Heq.
    rewrite <- Heq. apply list_elem_of_fmap. eauto. }
  destruct (decide (script ∈ rest)) as [Hrest|Hnot].
  - (* a later entry: this turn wrote another file *)
    apply (IH acc _ l Hdup1 Hres script c Hrest).
    unfold content_at. rewrite strip_script_other; [exact Hc|].
    intros Heq. apply Hfresh. rewrite Heq. apply list_elem_of_fmap. eauto.
  - (* this entry: written now or left, and not touched afterwards *)
    apply elem_of_cons in Hin as [->|Hin]; [|contradiction].
    unfold content_at. rewrite strip_scripts_other by exact Hkeys.
    fold (content_at (st (strip_script p name script_bin first removed_from s))
            (Path.join script_bin first)).
    rewrite Hturn, Hc. destruct (search p c); [|exact Hc]. cbn [st].
    unfold content_at in *. rewrite lookup_overwritten.
    destruct (Path.lookup s (Path.join script_bin first)) as [[t d|]|] eqn:E;
      try discriminate.
    apply lookup_file_key in E as [Hne _]. rewrite Hne.
    destruct (decide _); [reflexivity | contradiction].
Qed.

(** With a name free of special characters the substituted text is the one
    the specification describes. *)
Lemma pass_effect_plain name script_bin scripts removed_from s l :
  plain name = true →
  NoDup (map (fun script => Path.resolve s (Path.join script_bin script)) scripts) →
  res (strip_scripts (literals name) name script_bin scripts removed_from s) = inl l →
  ∀ script c, script ∈ scripts →
    content_at s (Path.join script_bin script) = Some c →
    content_at (st (strip_scripts (literals name) name script_bin scripts removed_from s))
               (Path.join script_bin script)
    = Some (spec_normalize name c).
Proof.
  intros _ Hdup Hres script c Hin Hc.
  rewrite (pass_effect _ _ _ _ _ _ _ Hdup Hres script c Hin Hc).
  rewrite <- PlainNames.sub_literals.
  destruct (search (literals name) c) eqn:E; [reflexivity|].
  now rewrite (sub_no_search _ _ _ E).
Qed.

(** What one pass is enough for stays so when it is rewritten. *)
Lemma one_pass_enough_sub p name c :
  one_pass_enough p name c → one_pass_enough p name (sub p name c).
Proof.
  unfold one_pass_enough. intros H. now rewrite (sub_no_search p name _ H).
Qed.

Section SecondPass.

Variables (p : list atom) (name script_bin : string).

(** The paths of the batch of scripts, and the condition on what is read
    from them. *)
Variable scripts_of_bin : string → Prop.

Local Abbreviation all_enough := (every_script_settles p name scripts_of_bin).

Lemma all_enough_step script removed_from s :
  scripts_of_bin (Path.join script_bin script) →
  all_enough s →
  all_enough (st (strip_script p name script_bin script removed_from s)).
Proof.
  intros Hin Hall. rewrite strip_script_reply. cbv zeta.
  destruct (content_at s (Path.join script_bin script)) as [c|] eqn:Hc; [|exact Hall].
  destruct (search p c); [|exact Hall]. cbn [st].
  intros q d Hq. unfold content_at. rewrite lookup_overwritten.
  destruct (q =? "")%string; [discriminate|].
  destruct (decide _).
  - intros [= <-]. apply one_pass_enough_sub. now apply (Hall _ _ Hin).
  - apply (Hall q d Hq).
Qed.

Lemma settled_after_step script removed_from s :
  scripts_of_bin (Path.join script_bin script) →
  all_enough s →
  settled p (st (strip_script p name script_bin script removed_from s))
          (Path.join script_bin script).
Proof.
  intros Hin Hall. rewrite strip_script_reply. cbv zeta. unfold settled.
  destruct (content_at s (Path.join script_bin script)) as [c|] eqn:Hc; cbn [st].
  - pose proof (Hall _ _ Hin Hc) as Hgood.
    destruct (search p c) eqn:Hs; cbn [st].
    + assert (Hnew : content_at (overwritten s (Path.join script_bin script) (sub p name c))
                       (Path.join script_bin script) = Some (sub p name c)).
      { unfold content_at in *. rewrite lookup_overwritten.
        destruct (Path.lookup s (Path.join script_bin script)) as [[t d|]|] eqn:E;
          try discriminate.
        apply lookup_file_key in E as [Hne _]. rewrite Hne.
        destruct (decide _); [reflexivity | contradiction]. }
      rewrite Hnew. exact Hgood.
    + rewrite Hc. exact Hs.
  - now rewrite Hc.
Qed.

(** A pass over a state in which the first pass has settled every script
    writes nothing, and ends as the first pass did. *)
Lemma second_pass scripts : ∀ removed_from s,
  (∀ script, script ∈ scripts → scripts_of_bin (Path.join script_bin script)) →
  all_enough s →
  let first := strip_scripts p name script_bin scripts removed_from s in
  ∀ u again,
    (∀ q, settled p (st first) q → Path.lookup u q = Path.lookup (st first) q) →
    strip_scripts p name script_bin scripts again u =
    Reply (match res first with inl _ => inl again | inr e => inr e end) u [].
Proof.
  induction scripts as [|script rest IH]; intros removed_from s Hin Hall first u again Hu;
    [reflexivity|].
  assert (Hhere : scripts_of_bin (Path.join script_bin script))
    by (apply Hin; constructor).
  assert (Hrest : ∀ x, x ∈ rest → scripts_of_bin (Path.join script_bin x))
    by (intros x Hx; apply Hin; now constructor).
  pose proof (settled_after_step script removed_from s Hhere Hall) as Hset.
  pose proof (all_enough_step script removed_from s Hhere Hall) as Hall1.
  set (step := strip_script p name script_bin script removed_from s) in *.
  assert (Hfirst : first = bind (fun _ => step)
            (fun acc => strip_scripts p name script_bin rest acc) s) by reflexivity.
  cbn [strip_scripts].
  destruct (res step) as [acc|e] eqn:Hstep.
  - (* the first pass went on to the rest *)
    assert (Hst : st first = st (strip_scripts p name script_bin rest acc (st step))).
    { rewrite Hfirst. unfold bind. now rewrite Hstep. }
    assert (Hres : res first = res (strip_scripts p name script_bin rest acc (st step))).
    { rewrite Hfirst. unfold bind. now rewrite Hstep. }
    assert (Hread : Path.lookup u (Path.join script_bin script)
                    = Path.lookup (st step) (Path.join script_bin script)).
    { rewrite Hu.
      - rewrite Hst. now apply strip_scripts_frame.
      - unfold settled, content_at. rewrite Hst.
        rewrite strip_scripts_frame by assumption. exact Hset. }
    assert (Hturn : strip_script p name script_bin script again u = Reply (inl again) u []).
    { rewrite strip_script_reply. cbv zeta. unfold settled in Hset.
      unfold content_at in *. rewrite Hread.
      destruct (Path.lookup (st step) (Path.join script_bin script)) as [[t c|]|] eqn:E.
      - now rewrite Hset.
      - exfalso. subst step. rewrite strip_script_reply in Hstep, E. cbv zeta in Hstep, E.
        unfold content_at in Hstep, E.
        destruct (Path.lookup s (Path.join script_bin script)) as [[t' c'|]|] eqn:E0;
          try discriminate.
        destruct (search p c'); cbn [st] in E.
        + rewrite lookup_overwritten in E.
          apply lookup_file_key in E0 as [Hne _]. rewrite Hne in E.
          destruct (decide _); [discriminate | contradiction].
        + congruence.
      - exfalso. subst step. rewrite strip_script_reply in Hstep, E. cbv zeta in Hstep, E.
        unfold content_at in Hstep, E.
        destruct (Path.lookup s (Path.join script_bin script)) as [[t' c'|]|] eqn:E0;
          try discriminate.
        destruct (search p c'); cbn [st] in E.
        + rewrite lookup_overwritten in E.
          apply lookup_file_key in E0 as [Hne _]. rewrite Hne in E.
          destruct (decide _); [discriminate | contradiction].
        + congruence. }
    rewrite (bind_pure _ _ _ _ Hturn). rewrite Hres.
    apply (IH acc (st step) Hrest Hall1). intros q Hq. rewrite <- Hst in Hq |- *.
    now apply Hu.
  - (* the first pass stopped at this script *)
    assert (Hstop : step = Reply (inr (IOError (Path.join script_bin script))) s []
                    ∧ content_at s (Path.join script_bin script) = None).
    { subst step. rewrite strip_script_reply in *. cbv zeta in *.
      destruct (content_at s (Path.join script_bin script)) as [c|]; [|auto].
      destruct (search p c); discriminate. }
    destruct Hstop as [Hstop Hnone].
    assert (Hfail : first = Reply (inr (IOError (Path.join script_bin script))) s []).
    { rewrite Hfirst. unfold bind. now rewrite Hstop. }
    rewrite Hfail in Hu |- *. cbn [res st] in *.
    rewrite Hstop in Hstep. injection Hstep as <-.
    apply bind_fail. rewrite strip_script_reply. cbv zeta.
    unfold content_at in *. rewrite Hu; [|unfold settled, content_at; now rewrite Hnone].
    now rewrite Hnone.
Qed.

End SecondPass.

(** The list the loop returns is the list it was given followed by the
    base names of the paths it wrote, in order. *)
Lemma removed_from_writes p name script_bin scripts : ∀ removed_from s l,
  let r := strip_scripts p name script_bin scripts removed_from s in
  res r = inl l →
  l = (removed_from ++ map Path.basename (writes (evs r)))%list.
Proof.
  induction scripts as [|script rest IH]; intros removed_from s l; cbv zeta.
  - simpl. intros [= <-]. now rewrite app_nil_r.
  - cbn [strip_scripts]. unfold bind. rewrite strip_script_reply. cbv zeta.
    destruct (content_at s (Path.join script_bin script)) as [c|]; [|discriminate].
    destruct (search p c); cbn [res st evs]; intros H.
    + apply IH in H. rewrite H. cbn [app writes map]. now rewrite <- app_assoc.
    + apply IH in H. exact H.
Qed.

End Normalizer.

(** The whole function, case by case. *)
Lemma strip_version_reply W tox env s :
  let name := product_name W (tox_repo tox) in
  let script_bin := bindir tox env None in
  strip_version_from_entry_scripts W tox env s =
  match Path.lookup s script_bin with
  | None => Reply (inl PyNone) s [EvCall (InStrip env)]
  | Some node =>
      match Re.atoms_of name with
      | None => Reply (inr (PatternOutsideFragment name)) s [EvCall (InStrip env)]
      | Some p =>
          match node with
          | File _ _ => Reply (inr (OSError script_bin)) s [EvCall (InStrip env)]
          | Dir _ entries =>
              let r := strip_scripts p name script_bin entries [] s in
              match res r with
              | inr e => Reply (inr e) (st r) (EvCall (InStrip env) :: evs r)
              | inl removed_from =>
                  Reply (inl PyNone) (st r)
                    (EvCall (InStrip env) :: evs r ++
                     if nonempty removed_from
                     then [EvLog DEBUG ("Removed version spec from entry script(s): "
                                        ++ Str.join ", " removed_from)]
                     else [])%list
              end
          end
      end
  end.
Proof.
  cbv zeta. unfold strip_version_from_entry_scripts. rewrite bind_emit.
  unfold path_exists, Path.exists_. rewrite bind_assoc, bind_get, bind_ret_l.
  destruct (Path.lookup s (bindir tox env None)) as [node|] eqn:Hbin; [|reflexivity].
  destruct (Re.atoms_of (product_name W (tox_repo tox))) as [p|]; [|reflexivity].
  unfold listdir. rewrite bind_assoc, bind_get, Hbin.
  destruct node as [t d|t entries]; [reflexivity|].
  rewrite bind_ret_l. unfold bind.
  destruct (res (strip_scripts p _ _ entries [] s)) as [removed_from|e]; [|reflexivity].
  cbn [res st evs]. destruct (nonempty removed_from); reflexivity.
Qed.

Lemma writes_app l1 l2 : writes (l1 ++ l2) = (writes l1 ++ writes l2)%list.
Proof.
  induction l1 as [|e l1 IH]; simpl; [reflexivity|].
  destruct e; simpl; now rewrite IH.
Qed.

Lemma logged_app lvl l1 l2 : logged lvl (l1 ++ l2) = (logged lvl l1 ++ logged lvl l2)%list.
Proof.
  induction l1 as [|e l1 IH]; simpl; [reflexivity|].
  destruct e; simpl; rewrite ?IH; try reflexivity.
  destruct lvl, lvl0; simpl; now rewrite ?IH.
Qed.

Lemma logged_writes lvl l : Forall a_write l → logged lvl l = [].
Proof.
  induction 1 as [|e l He _ IH]; simpl; [reflexivity|].
  destruct e; simpl in *; try contradiction. exact IH.
Qed.

(** C6, as the code has it. The normalizer has no [return]: its value is
    [None], never a list. The names of the scripts it rewrote are what it
    logs, in one DEBUG line, when there are any. When the script directory
    does not exist it reads, writes and logs nothing and returns
    normally. *)
Theorem normalizer_logs_what_it_rewrote W tox env s :
  let r := strip_version_from_entry_scripts W tox env s in
  (∀ l, res r ≠ inl (PyList l))
  ∧ (Path.exists_ s (bindir tox env None) = false →
     r = Reply (inl PyNone) s [EvCall (InStrip env)])
  ∧ (res r = inl PyNone →
     let modified := map Path.basename (writes (evs r)) in
     logged DEBUG (evs r) =
     if nonempty modified
     then ["Removed version spec from entry script(s): " ++ Str.join ", " modified]
     else []).
Proof.
  cbv zeta. rewrite strip_version_reply. cbv zeta. unfold Path.exists_.
  destruct (Path.lookup s (bindir tox env None)) as [node|].
  2:{ split; [discriminate|]. split; [reflexivity|]. reflexivity. }
  destruct (Re.atoms_of (product_name W (tox_repo tox))) as [p|].
  2:{ split; [discriminate|]. split; discriminate. }
  destruct node as [t d|t entries].
  { split; [discriminate|]. split; discriminate. }
  pose proof (Normalizer.removed_from_writes p (product_name W (tox_repo tox))
                (bindir tox env None) entries [] s) as Hrem.
  pose proof (strip_scripts_writes p (product_name W (tox_repo tox))
                (bindir tox env None) entries [] s) as Hw.
  cbv zeta in Hrem.
  destruct (res (strip_scripts p _ _ entries [] s)) as [removed_from|e].
  2:{ split; [discriminate|]. split; discriminate. }
  split; [discriminate|]. split; [discriminate|]. intros _.
  specialize (Hrem removed_from eq_refl). simpl in Hrem.
  cbn [evs writes logged]. rewrite writes_app, logged_app, (logged_writes _ _ Hw).
  destruct (nonempty removed_from) eqn:Hnon; cbn [writes logged app];
    rewrite app_nil_r, <- Hrem, Hnon; reflexivity.
Qed.

(** ** Worked instances *)


(** C2 as stated fails: tox returns zero for the batch py26, py27, the
    interpreter of py26 then exits with 1 inside the linker, the error
    leaves the loop, and neither the normalizer nor the linker is called
    for py27. *)
Lemma post_steps_stop_at_first_error :
  let W := Demo.world "mytool" (Some "libA libB") Demo.interpreter_fails in
  let r := test W Demo.redevelop_both (Demo.start "mytool") in
  p_exit (spawn W (tox_command Demo.tox ["py26"; "py27"] false) (Some Demo.repo)
            (Demo.start "mytool")) = 0
  ∧ calls (evs r) = [InTest Demo.redevelop_both; InStrip "py26"; InEditable "py26"]
  ∧ (InStrip "py27" ∉ calls (evs r))
  ∧ (InEditable "py27" ∉ calls (evs r)).
Proof.
  intros W r.
  assert (H : calls (evs r) = [InTest Demo.redevelop_both; InStrip "py26"; InEditable "py26"])
    by (vm_compute; reflexivity).
  split; [reflexivity|]. split; [exact H|]. rewrite H.
  split; intros Hin; apply list_elem_of_In in Hin; simpl in Hin;
    destruct Hin as [Hin|[Hin|[Hin|[]]]]; discriminate.
Qed.

Lemma post_steps_once_in_order_witness :
  let W := Demo.world "mytool" (Some "libA libB") Demo.interpreter_fails in
  let s := Demo.start "mytool==1.4.2 --flag" in
  let r := test W Demo.redevelop_both s in
  let failed := RunError (requires_command W Demo.tox "py26") 1 in
  calls (evs r) `prefix_of` InTest Demo.redevelop_both :: post_step_calls ["py26"; "py27"]
  ∧ res r = inr failed
  ∧ calls (evs r) = [InTest Demo.redevelop_both; InStrip "py26"; InEditable "py26"].
Proof.
  intros W s r failed.
  destruct (post_steps_once_in_order W Demo.redevelop_both s Demo.both s
              eq_refl eq_refl eq_refl eq_refl) as (Hprefix & _ & Hraise & _).
  split; [exact Hprefix|].
  apply (Hraise [] "py26" ["py27"] failed); reflexivity.
Defined.

Lemma tox_failure_aborts_batch_witness :
  let W := Demo.world "mytool" (Some "libA libB") Demo.tox_fails in
  let cmd := Argv ["tox"; "-c"; "/ws/mytool/tox.ini"; "-e"; "py26,py27"] in
  test W Demo.redevelop_both (Demo.start "mytool")
  = Reply (inr (RunError cmd 2))
          (Sys (Demo.disk "mytool") ∅ Demo.repo 101)
          [EvCall (InTest Demo.redevelop_both); EvRun cmd (Some Demo.repo) false 2]
  ∧ (∀ env, (InStrip env ∉ calls (evs (test W Demo.redevelop_both (Demo.start "mytool"))))
            ∧ (InEditable env ∉ calls (evs (test W Demo.redevelop_both (Demo.start "mytool"))))).
Proof.
  intros W cmd.
  apply (tox_failure_aborts_batch W Demo.redevelop_both
           (Demo.start "mytool") Demo.both (Demo.start "mytool")).
  - reflexivity.
  - reflexivity.
  - vm_compute. reflexivity.
  - vm_compute. discriminate.
Defined.

(** C4 on the code. The product name goes into the pattern unescaped, so
    the dot of my.tool matches any character: a script that never mentions
    my.tool but holds myxtool==1.0 is rewritten, and what replaces the
    occurrence is the product name. With the name read as plain text, as
    the specification has it, the script would be left as it is. *)
Theorem unescaped_name_rewrites_other_text :
  let W := Demo.world "my.tool" None Demo.all_succeed in
  let script := "/ws/mytool/.tox/py27/bin/mytool" in
  let r := strip_version_from_entry_scripts W Demo.tox "py27"
             (Demo.start "myxtool==1.0 --flag") in
  Str.contains "my.tool" "myxtool==1.0 --flag" = false
  ∧ spec_normalize "my.tool" "myxtool==1.0 --flag" = "myxtool==1.0 --flag"
  ∧ writes (evs r) = [script]
  ∧ content_at (st r) script = Some "my.tool --flag".
Proof. vm_compute. repeat split. Qed.

(** The scenario of the specification, on a name without special
    characters. *)
Example normalizes_pinned_script :
  let W := Demo.world "mytool" None Demo.all_succeed in
  let r := strip_version_from_entry_scripts W Demo.tox "py27"
             (Demo.start "mytool==1.4.2 --flag") in
  content_at (st r) "/ws/mytool/.tox/py27/bin/mytool" = Some "mytool --flag"
  ∧ Path.lookup (st r) "/ws/mytool/.tox/py27/bin/py.test" = Some (File 20 "othertool --flag")
  ∧ writes (evs r) = ["/ws/mytool/.tox/py27/bin/mytool"].
Proof. vm_compute. repeat split. Qed.

(** C5 as stated fails: the first pass turns mytool==1.0==2.0 into
    mytool==2.0, which the second pass rewrites again. *)
Lemma second_pass_rewrites_again :
  let W := Demo.world "mytool" None Demo.all_succeed in
  let script := "/ws/mytool/.tox/py27/bin/mytool" in
  let first := strip_version_from_entry_scripts W Demo.tox "py27"
                 (Demo.start "mytool==1.0==2.0") in
  let second := strip_version_from_entry_scripts W Demo.tox "py27" (st first) in
  content_at (st first) script = Some "mytool==2.0"
  ∧ writes (evs second) = [script]
  ∧ content_at (st second) script = Some "mytool"
  ∧ logged DEBUG (evs second) = ["Removed version spec from entry script(s): mytool"].
Proof. vm_compute. repeat split. Qed.

(** C6 as stated fails: the normalizer rewrites the script mytool and
    returns [None], not the list of its name; for py26, whose script
    directory does not exist, it returns [None] as well, not an empty
    list. *)
Lemma normalizer_returns_none :
  let W := Demo.world "mytool" None Demo.all_succeed in
  let r := strip_version_from_entry_scripts W Demo.tox "py27"
             (Demo.start "mytool==1.4.2 --flag") in
  let missing := strip_version_from_entry_scripts W Demo.tox "py26"
                   (Demo.start "mytool==1.4.2 --flag") in
  map Path.basename (writes (evs r)) = ["mytool"]
  ∧ res r = inl PyNone
  ∧ res r ≠ inl (PyList ["mytool"])
  ∧ res missing = inl PyNone
  ∧ res missing ≠ inl (PyList []).
Proof.
  intros W r missing.
  assert (Hr : res r = inl PyNone) by (vm_compute; reflexivity).
  assert (Hm : res missing = inl PyNone) by (vm_compute; reflexivity).
  split; [vm_compute; reflexivity|]. split; [exact Hr|].
  split; [rewrite Hr; discriminate|]. split; [exact Hm|]. rewrite Hm. discriminate.
Qed.

Lemma normalizer_logs_what_it_rewrote_witness :
  let W := Demo.world "mytool" None Demo.all_succeed in
  let s := Demo.start "mytool==1.4.2 --flag" in
  strip_version_from_entry_scripts W Demo.tox "py26" s
    = Reply (inl PyNone) s [EvCall (InStrip "py26")]
  ∧ logged DEBUG (evs (strip_version_from_entry_scripts W Demo.tox "py27" s))
    = if nonempty (map Path.basename
                     (writes (evs (strip_version_from_entry_scripts W Demo.tox "py27" s))))
      then ["Removed version spec from entry script(s): " ++
            Str.join ", " (map Path.basename
                     (writes (evs (strip_version_from_entry_scripts W Demo.tox "py27" s))))]
      else [].
Proof.
  intros W s. split.
  - apply (proj1 (proj2 (normalizer_logs_what_it_rewrote W Demo.tox "py26" s))).
    vm_compute. reflexivity.
  - apply (proj2 (proj2 (normalizer_logs_what_it_rewrote W Demo.tox "py27" s))).
    vm_compute. reflexivity.
Defined.

Lemma linked_set_is_intersection_witness :
  let W := Demo.world "mytool" (Some "libA libB") Demo.all_succeed in
  let s := Demo.start "mytool" in
  (list_to_set (editable_libs ["libB"; "libA"] ["libA"] ["libC"; "libA"]) : gset string)
  = list_to_set (editable_libs ["libA"; "libB"] ["libA"] ["libA"; "libC"])
  ∧ runs (evs (install_editable_dependencies W Demo.tox "py27" false s))
    = requires_command W Demo.tox "py27" ::
      flat_map (fun lib =>
                  [pip_uninstall (bindir Demo.tox "py27" (Some "pip")) lib;
                   pip_install_editable (bindir Demo.tox "py27" (Some "pip"))
                     (product_path W lib)])
        (editable_libs
           (expand_product_groups W
              (Str.split (default "" (editable_product_dependencies W))))
           (map Path.basename
              (product_repos W (after (spawn W (requires_command W Demo.tox "py27") None s) s)))
           (Str.split (p_out (spawn W (requires_command W Demo.tox "py27") None s)))).
Proof.
  intros W s. split.
  - apply (proj1 (proj2 (linked_set_is_intersection W Demo.tox "py27" false s))).
    + apply perm_swap.
    + reflexivity.
    + apply perm_swap.
  - apply (proj2 (proj2 (proj2 (linked_set_is_intersection W Demo.tox "py27" false s)))).
    + reflexivity.
    + reflexivity.
Defined.

Lemma empty_allow_list_is_noop_witness :
  let W := Demo.world "mytool" (Some "") Demo.all_succeed in
  let s := Demo.start "mytool" in
  install_editable_dependencies W Demo.tox "py27" false s
    = Reply (inl tt) s [EvCall (InEditable "py27")]
  ∧ runs (evs (install_editable_dependencies W Demo.tox "py27" false s)) = []
  ∧ st (install_editable_dependencies W Demo.tox "py27" false s) = s.
Proof.
  intros W s. apply (proj1 (empty_allow_list_is_noop W Demo.tox "py27" false s)).
  right. reflexivity.
Defined.

(** C8 as stated fails: a blank setting makes an empty allow-list, and the
    linker still starts the interpreter of the environment, which leaves
    its mark on the state. *)
Lemma blank_allow_list_starts_interpreter :
  let W := Demo.world "mytool" (Some " ") Demo.all_succeed in
  let s := Demo.start "mytool" in
  let r := install_editable_dependencies W Demo.tox "py27" false s in
  expand_product_groups W (Str.split (default "" (editable_product_dependencies W))) = []
  ∧ runs (evs r) = [requires_command W Demo.tox "py27"]
  ∧ st r ≠ s.
Proof.
  intros W s r. split; [reflexivity|]. split; [reflexivity|].
  intros H. apply (f_equal clock) in H. vm_compute in H. discriminate.
Qed.

Lemma linker_loop_survives_failures_witness :
  let W := Demo.world "mytool" (Some "libA libB") Demo.install_fails in
  let pip := "/ws/mytool/.tox/py27/bin/pip" in
  let r := install_editable_dependencies W Demo.tox "py27" false (Demo.start "mytool") in
  res r = inl tt
  ∧ runs (evs r)
    = [requires_command W Demo.tox "py27";
       pip_uninstall pip "libA"; pip_install_editable pip "/ws/libA";
       pip_uninstall pip "libB"; pip_install_editable pip "/ws/libB"]
  ∧ p_exit (spawn W (pip_install_editable pip "/ws/libA") None (Demo.start "mytool")) = 1.
Proof.
  intros W pip r.
  destruct (linker_loop_survives_failures W Demo.tox "py27" false (Demo.start "mytool"))
    as (Hres & Hruns & _).
  - reflexivity.
  - reflexivity.
  - split; [exact Hres|]. split; [exact Hruns | reflexivity].
Defined.

(** C9 as stated fails: the uninstall of libA exits with 1 and nothing is
    caught or logged for it; the install of libA and both commands of libB
    follow. *)
Lemma failed_uninstall_is_not_logged :
  let W := Demo.world "mytool" (Some "libA libB") Demo2.uninstall_fails in
  let pip := "/ws/mytool/.tox/py27/bin/pip" in
  let r := install_editable_dependencies W Demo.tox "py27" false (Demo.start "mytool") in
  EvRun (pip_uninstall pip "libA") None true 1 ∈ evs r
  ∧ logged ERROR (evs r) = []
  ∧ (∀ e, EvLogExn e ∉ evs r)
  ∧ runs (evs r)
    = [requires_command W Demo.tox "py27";
       pip_uninstall pip "libA"; pip_install_editable pip "/ws/libA";
       pip_uninstall pip "libB"; pip_install_editable pip "/ws/libB"].
Proof.
  intros W pip r.
  assert (H : evs r
              = [EvCall (InEditable "py27");
                 EvRun (requires_command W Demo.tox "py27") None false 0;
                 EvLog INFO "Installing libA in editable mode";
                 EvRun (pip_uninstall pip "libA") None true 1;
                 EvRun (pip_install_editable pip "/ws/libA") None true 0;
                 EvLog INFO "Installing libB in editable mode";
                 EvRun (pip_uninstall pip "libB") None true 1;
                 EvRun (pip_install_editable pip "/ws/libB") None true 0])
    by (vm_compute; reflexivity).
  rewrite H. split; [|split; [reflexivity|split; [|reflexivity]]].
  - apply list_elem_of_In. simpl. auto.
  - intros e Hin. apply list_elem_of_In in Hin. simpl in Hin.
    repeat (destruct Hin as [Hin|Hin]; [discriminate|]). exact Hin.
Qed.

Lemma staleness_check_needs_setup_py_witness :
  let W := Demo.world "mytool" None Demo.all_succeed in
  let setup_py := "/ws/mytool/setup.py" in
  (requirements_updated Demo.repo "/ws/mytool/.tox/py27" Demo.bare
     = Reply (inr (OSError setup_py)) Demo.bare []
   ∧ test_env W (test_redevelop W) Demo.tox Demo.repo "" ["py27"] "py27" Demo.bare
     = Reply (inr (OSError setup_py)) Demo.bare [])
  ∧ ∃ verdict : bool,
      requirements_updated Demo.repo "/ws/mytool/.tox/py27" (Demo.start "mytool")
      = Reply (inl verdict) (Demo.start "mytool") [].
Proof.
  intros W setup_py. split.
  - apply (proj1 (staleness_check_needs_setup_py W (test_redevelop W) Demo.tox Demo.repo ""
                    ["py27"] "py27" Demo.bare (Dir 20 ["bin"]) eq_refl)).
    vm_compute. reflexivity.
  - apply (proj2 (staleness_check_needs_setup_py W (test_redevelop W) Demo.tox Demo.repo ""
                    ["py27"] "py27" (Demo.start "mytool") (Dir 20 ["bin"]) eq_refl)
             (File 10 "setup(name='mytool')")).
    vm_compute. reflexivity.
Defined.

(** * Further properties of the code *)

(** ** Joining and splitting on one character *)

Module StrFacts.

Lemma mem_rev_app c : ∀ a b,
  Str.mem c (String.rev_app a b) = Str.mem c a || Str.mem c b.
Proof.
  induction a as [|d a IH]; intros b; [reflexivity|].
  cbn [String.rev_app Str.mem]. rewrite IH. cbn [Str.mem].
  now destruct (Ascii.eqb c d), (Str.mem c a), (Str.mem c b).
Qed.

(** A text without the separator is one field. *)
Lemma split_on_go_whole sep : ∀ s cur,
  Str.mem sep s = false → Str.split_on_go sep cur s = [String.rev_app cur s].
Proof.
  induction s as [|c s IH]; intros cur H; [reflexivity|].
  cbn [Str.mem] in H. apply orb_false_elim in H as [Hc Hs].
  cbn [Str.split_on_go]. rewrite Ascii.eqb_sym, Hc. now rewrite IH.
Qed.

Lemma split_on_go_field sep rest : ∀ x cur,
  Str.mem sep x = false →
  Str.split_on_go sep cur (x ++ String sep rest)
  = String.rev_app cur x :: Str.split_on_go sep "" rest.
Proof.
  induction x as [|c x IH]; intros cur H.
  - change ("" ++ String sep rest) with (String sep rest).
    cbn [Str.split_on_go]. now rewrite Ascii.eqb_refl.
  - cbn [Str.mem] in H. apply orb_false_elim in H as [Hc Hx].
    change (String c x ++ String sep rest) with (String c (x ++ String sep rest)).
    cbn [Str.split_on_go]. rewrite Ascii.eqb_sym, Hc. now rewrite IH.
Qed.

(** Splitting what was joined gives the list back, when there is at least
    one element and no element holds the separator. *)
Lemma split_on_join sep l :
  l ≠ [] →
  Forall (fun x => Str.mem sep x = false) l →
  Str.split_on sep (Str.join (String sep "") l) = l.
Proof.
  intros Hne Hall. unfold Str.split_on.
  induction Hall as [|x l Hx Hall IH]; [contradiction|].
  destruct l as [|y l].
  - cbn [Str.join]. now rewrite split_on_go_whole.
  - change (Str.join (String sep "") (x :: y :: l))
      with (x ++ String sep (Str.join (String sep "") (y :: l))).
    rewrite split_on_go_field by assumption. cbn [String.rev_app].
    f_equal. now apply IH.
Qed.

(** No field of a split holds the separator. *)
Lemma split_on_go_fields sep : ∀ s cur,
  Str.mem sep cur = false →
  Forall (fun x => Str.mem sep x = false) (Str.split_on_go sep cur s).
Proof.
  induction s as [|c s IH]; intros cur Hcur; cbn [Str.split_on_go].
  - repeat constructor. unfold String.rev. rewrite mem_rev_app, Hcur. reflexivity.
  - destruct (Ascii.eqb c sep) eqn:E.
    + constructor; [|now apply IH].
      unfold String.rev. rewrite mem_rev_app, Hcur. reflexivity.
    + apply IH. cbn [Str.mem]. rewrite Ascii.eqb_sym, E. exact Hcur.
Qed.

Lemma split_on_fields sep s :
  Forall (fun x => Str.mem sep x = false) (Str.split_on sep s).
Proof. now apply split_on_go_fields. Qed.

End StrFacts.

(** ** Reading the arguments of [test] *)

Lemma strip_venv_path_reply s :
  strip_venv_path s =
  match environ s !! "VIRTUAL_ENV", environ s !! "PATH" with
  | Some _, None => Reply (inr (KeyError "PATH")) s []
  | _, _ => Reply (inl tt) (without_venv_path s) []
  end.
Proof.
  unfold strip_venv_path, without_venv_path. rewrite bind_get.
  destruct (environ s !! "VIRTUAL_ENV"); [|reflexivity].
  destruct (environ s !! "PATH"); reflexivity.
Qed.

Lemma kept_path_entries_spec s venv_bin path p :
  p ∈ kept_path_entries s venv_bin path ↔
  p ∈ Str.split_on ":" path ∧ Path.exists_ s p = true ∧ Str.startswith venv_bin p = false.
Proof.
  unfold kept_path_entries.
  rewrite list_elem_of_In, filter_In, <- list_elem_of_In, andb_true_iff, negb_true_iff.
  tauto.
Qed.

Lemma exists_empty s : Path.exists_ s "" = false.
Proof. reflexivity. Qed.

(** X1. Inside a virtualenv (VIRTUAL_ENV set) [test] rewrites PATH before it
    runs anything: a directory is on the new PATH exactly when it was on
    the old one, exists and does not start with the virtualenv's path; the
    order is kept. With VIRTUAL_ENV set and PATH unset the lookup of PATH
    raises KeyError; without VIRTUAL_ENV nothing is changed. *)
Theorem venv_directories_leave_path s :
  (environ s !! "VIRTUAL_ENV" = None → strip_venv_path s = Reply (inl tt) s [])
  ∧ (∀ venv_bin, environ s !! "VIRTUAL_ENV" = Some venv_bin →
       environ s !! "PATH" = None →
       strip_venv_path s = Reply (inr (KeyError "PATH")) s [])
  ∧ (∀ venv_bin path, environ s !! "VIRTUAL_ENV" = Some venv_bin →
       environ s !! "PATH" = Some path →
       ∃ new_path,
         strip_venv_path s
         = Reply (inl tt) (set_environ (<["PATH" := new_path]> (environ s)) s) []
         ∧ (∀ p, p ≠ "" →
              (p ∈ Str.split_on ":" new_path ↔
               p ∈ Str.split_on ":" path ∧ Path.exists_ s p = true
               ∧ Str.startswith venv_bin p = false))
         ∧ (kept_path_entries s venv_bin path ≠ [] →
            Str.split_on ":" new_path = kept_path_entries s venv_bin path)).
Proof.
  split; [|split].
  - intros H. rewrite strip_venv_path_reply, H. unfold without_venv_path. now rewrite H.
  - intros venv_bin Hv Hp. rewrite strip_venv_path_reply, Hv, Hp. reflexivity.
  - intros venv_bin path Hv Hp.
    exists (Str.join ":" (kept_path_entries s venv_bin path)).
    assert (Hround : kept_path_entries s venv_bin path ≠ [] →
              Str.split_on ":" (Str.join ":" (kept_path_entries s venv_bin path))
              = kept_path_entries s venv_bin path).
    { intros Hne. apply StrFacts.split_on_join; [exact Hne|].
      unfold kept_path_entries.
      pose proof (StrFacts.split_on_fields ":" path) as Hf.
      rewrite List.Forall_forall in Hf |- *. intros x Hx.
      apply filter_In in Hx as [Hx _]. now apply Hf. }
    split; [|split].
    + rewrite strip_venv_path_reply, Hv, Hp. unfold without_venv_path. now rewrite Hv, Hp.
    + intros p Hne. rewrite <- kept_path_entries_spec.
      destruct (kept_path_entries s venv_bin path) as [|k l] eqn:E.
      * cbn [Str.join]. split.
        -- intros Hin. apply list_elem_of_In in Hin. simpl in Hin.
           destruct Hin as [<-|[]]. contradiction.
        -- intros Hin. inversion Hin.
      * rewrite Hround by discriminate. reflexivity.
    + exact Hround.
Qed.

Lemma exists_without_venv s p :
  Path.exists_ (without_venv_path s) p = Path.exists_ s p.
Proof.
  unfold without_venv_path.
  destruct (environ s !! "VIRTUAL_ENV"); [|reflexivity].
  destruct (environ s !! "PATH"); reflexivity.
Qed.

Lemma split_env_or_file_spec W s l :
  split_env_or_file W s l = (named_envs s l, map (abspath W s) (named_files s l)).
Proof.
  induction l as [|ef l IH]; [reflexivity|].
  cbn [split_env_or_file]. rewrite IH. unfold named_envs, named_files.
  cbn [List.filter]. destruct (Path.exists_ s ef); reflexivity.
Qed.

Lemma named_without_venv s l :
  named_envs (without_venv_path s) l = named_envs s l
  ∧ named_files (without_venv_path s) l = named_files s l.
Proof.
  unfold named_envs, named_files. split; apply filter_ext; intros a;
    now rewrite exists_without_venv.
Qed.

Lemma set_pytest_args_reply show_output match_test files s :
  set_pytest_args show_output match_test files s =
  if show_output || truthy match_test || nonempty files
  then Reply (inl (pytest_args_text show_output match_test files))
             (set_environ (<["PYTESTARGS" := pytest_args_text show_output match_test files]>
                            (environ s)) s) []
  else Reply (inl "") s [].
Proof.
  unfold set_pytest_args.
  destruct (show_output || truthy match_test || nonempty files); reflexivity.
Qed.

(** The whole of the preparation, case by case. *)
Lemma prepare_reply W c s :
  let s1 := without_venv_path s in
  let files := map (abspath W s1) (named_files s (env_or_file c)) in
  let envs := named_envs s (env_or_file c) in
  let r := set_pytest_args (show_output c) (match_test c) files s1 in
  let tox := new_ToxIni W (st r) (repo_path W s) in
  prepare W c s =
  if repo_check W s then
    match environ s !! "VIRTUAL_ENV", environ s !! "PATH" with
    | Some _, None => Reply (inr (KeyError "PATH")) s []
    | _, _ =>
        Reply (inl (Setting tox (repo_path W s)
                      (if nonempty envs then envs else envlist tox)
                      (if show_output c || truthy (match_test c) || nonempty files
                       then pytest_args_text (show_output c) (match_test c) files
                       else "")))
              (st r) []
    end
  else Reply (inr (SystemExit 1)) s [].
Proof.
  cbv zeta. unfold prepare. rewrite bind_get.
  destruct (repo_check W s); [|reflexivity].
  rewrite bind_ret_l.
  pose proof (strip_venv_path_reply s) as Hv.
  destruct (environ s !! "VIRTUAL_ENV") as [v|] eqn:Ev;
    [destruct (environ s !! "PATH") as [path|] eqn:Ep|].
  all: try (rewrite (bind_fail _ _ _ _ Hv); reflexivity).
  all: rewrite (bind_step _ _ _ _ _ _ Hv), bind_get, split_env_or_file_spec;
    destruct (named_without_venv s (env_or_file c)) as [-> ->];
    pose proof (set_pytest_args_reply (show_output c) (match_test c)
                  (map (abspath W (without_venv_path s)) (named_files s (env_or_file c)))
                  (without_venv_path s)) as Hp;
    destruct (show_output c || truthy (match_test c) || nonempty _);
    rewrite (bind_step _ _ _ _ _ _ Hp), bind_get, Hp; reflexivity.
Qed.

(** X2. What [test] settles before it branches. It fails only where the
    repository check fails (exit 1) or, inside a virtualenv, where PATH is
    unset (KeyError); otherwise it emits nothing and leaves the files, the
    working directory and every variable but PATH and PYTESTARGS as they
    were. The names of [env_or_file] that do not exist as paths are the
    environments, in the order given; when there is none, the envlist of
    tox.ini is used instead. *)
Theorem prepare_outcome W c s :
  let r := prepare W c s in
  evs r = []
  ∧ fs (st r) = fs s ∧ cwd (st r) = cwd s ∧ clock (st r) = clock s
  ∧ (∀ k, k ≠ "PATH" → k ≠ "PYTESTARGS" → environ (st r) !! k = environ s !! k)
  ∧ (∀ e, res r = inr e → e = SystemExit 1 ∨ e = KeyError "PATH")
  ∧ (∀ x, res r = inl x →
       s_repo x = repo_path W s
       ∧ s_envs x = (if nonempty (named_envs s (env_or_file c))
                     then named_envs s (env_or_file c)
                     else envlist (s_tox x))).
Proof.
  cbv zeta. rewrite prepare_reply. cbv zeta.
  assert (Hframe : ∀ files,
    let r := set_pytest_args (show_output c) (match_test c) files (without_venv_path s) in
    fs (st r) = fs s ∧ cwd (st r) = cwd s ∧ clock (st r) = clock s
    ∧ ∀ k, k ≠ "PATH" → k ≠ "PYTESTARGS" → environ (st r) !! k = environ s !! k).
  { intros files. cbv zeta. rewrite set_pytest_args_reply. unfold without_venv_path.
    destruct (show_output c || truthy (match_test c) || nonempty files);
      destruct (environ s !! "VIRTUAL_ENV"); try destruct (environ s !! "PATH");
      cbn [st fs cwd clock environ set_environ]; repeat split; try reflexivity;
      intros k Hp Ha; rewrite ?lookup_insert_ne by congruence; reflexivity. }
  destruct (repo_check W s).
  2:{ cbn [res st evs]. repeat split; try reflexivity.
      - intros e [= <-]. now left.
      - discriminate.
      - discriminate. }
  set (files := map _ _).
  destruct (Hframe files) as (Hfs & Hcwd & Hclock & Henv).
  destruct (environ s !! "VIRTUAL_ENV") as [v|]; [destruct (environ s !! "PATH") as [path|]|].
  2:{ cbn [res st evs]. repeat split; try reflexivity; try discriminate.
      intros e [= <-]. now right. }
  all: cbn [res st evs]; split; [reflexivity|]; split; [exact Hfs|];
    split; [exact Hcwd|]; split; [exact Hclock|]; split; [exact Henv|];
    split; [discriminate|]; intros x [= <-]; split; reflexivity.
Qed.

(** X3. The pytest arguments are exported only when there are some: with
    [-s], [-k] or a file name, PYTESTARGS is set to the joined text that
    the plain branch also substitutes; with none of them the text is empty
    and PYTESTARGS is left as the caller's environment had it, not
    cleared. *)
Theorem pytest_args_exported W c s x :
  res (prepare W c s) = inl x →
  let files := map (abspath W (without_venv_path s)) (named_files s (env_or_file c)) in
  let s1 := st (prepare W c s) in
  if show_output c || truthy (match_test c) || nonempty files
  then s_pytest_args x = pytest_args_text (show_output c) (match_test c) files
       ∧ environ s1 !! "PYTESTARGS" = Some (s_pytest_args x)
  else s_pytest_args x = ""
       ∧ environ s1 !! "PYTESTARGS" = environ s !! "PYTESTARGS".
Proof.
  cbv zeta. rewrite prepare_reply. cbv zeta.
  destruct (repo_check W s); [|discriminate].
  rewrite set_pytest_args_reply. set (files := map _ _). unfold without_venv_path.
  destruct (environ s !! "VIRTUAL_ENV") as [v|]; [destruct (environ s !! "PATH") as [path|]|];
    try discriminate;
    destruct (show_output c || truthy (match_test c) || nonempty files);
    cbn [res st environ set_environ]; intros [= <-]; cbn [s_pytest_args]; split;
    rewrite ?lookup_insert_eq, ?lookup_insert_ne by discriminate; reflexivity.
Qed.

(** X4. The plain branch redevelops a stale environment by calling
    [test([env], redevelop=True)], and that call reads [env] again: if no
    path of that name exists, the batch is the environment alone; if one
    does (a directory docs beside an environment docs), the name is taken
    for a test file, the batch becomes the whole envlist of tox.ini and
    the path is exported as PYTESTARGS. *)
Theorem redevelop_call_reads_name_again W env s x :
  let again := Call [env] false true false false None false in
  res (prepare W again s) = inl x →
  (Path.exists_ s env = false → s_envs x = [env] ∧ s_pytest_args x = "")
  ∧ (Path.exists_ s env = true →
     s_envs x = envlist (s_tox x)
     ∧ s_pytest_args x = abspath W (without_venv_path s) env
     ∧ environ (st (prepare W again s)) !! "PYTESTARGS"
       = Some (abspath W (without_venv_path s) env)).
Proof.
  intros again Hres.
  destruct (prepare_outcome W again s) as (_ & _ & _ & _ & _ & _ & Hx).
  destruct (Hx x Hres) as [_ Henvs].
  pose proof (pytest_args_exported W again s x Hres) as Hargs. cbv zeta in Hargs.
  unfold named_envs, named_files in *. cbn [env_or_file again List.filter] in *.
  split; intros Hex; rewrite Hex in *; cbn [negb nonempty map] in *.
  - split; [exact Henvs|]. cbn in Hargs. exact (proj1 Hargs).
  - split; [exact Henvs|]. cbn in Hargs. destruct Hargs as [Ha Hb].
    rewrite Ha in Hb. unfold pytest_args_text in Ha, Hb. cbn in Ha, Hb. split; assumption.
Qed.

(** ** The commands [test] runs *)

(** X5. The tox command of a redevelop or recreate: [-r] is passed exactly
    for a recreate; an empty batch (nothing named, empty envlist) gives no
    [-e] at all, so that tox falls back on its own default; otherwise the
    value of [-e], split at the commas as tox does, is the batch again,
    provided no environment name holds a comma. *)
Theorem tox_command_names_batch tox envs (rc : bool) :
  Forall (fun env : string => Str.mem "," env = false) envs →
  let flags : list string := if rc then ["-r"] else [] in
  (envs = [] → tox_command tox envs rc = Argv ("tox" :: "-c" :: tox_path tox :: flags))
  ∧ (envs ≠ [] →
     ∃ value, tox_command tox envs rc
              = Argv ("tox" :: "-c" :: tox_path tox :: "-e" :: value :: flags)
              ∧ Str.split_on "," value = envs).
Proof.
  intros Hall flags. split.
  - intros ->. reflexivity.
  - intros Hne. exists (Str.join "," envs). split.
    + unfold tox_command. destruct envs; [contradiction | reflexivity].
    + now apply StrFacts.split_on_join.
Qed.

Lemma for_each_raises {A} (body : A → M unit) x l s e :
  res (body x s) = inr e →
  for_each (x :: l) body s = Reply (inr e) (st (body x s)) (evs (body x s)).
Proof. intros H. cbn [for_each]. unfold bind. now rewrite H. Qed.

Lemma show_installed_dependencies_reply W tox env s :
  show_installed_dependencies W tox env s =
  if Path.exists_ s (bindir tox env (Some "python"))
  then let p := spawn W (reporter_command W tox env) None s in
       Reply (if p_exit p =? 0 then inl tt
              else inr (RunError (reporter_command W tox env) (p_exit p)))
             (after p s)
             [EvCall (InShow env); EvRun (reporter_command W tox env) None false (p_exit p)]
  else Reply (inr (SystemExit 1)) s
         [EvCall (InShow env);
          EvLog ERROR ("Test environment " ++ env ++
            " is not installed. Please run without --dependencies to install it first.")].
Proof.
  unfold show_installed_dependencies. rewrite bind_emit.
  unfold path_exists. rewrite bind_assoc, bind_get, bind_ret_l.
  destruct (Path.exists_ s (bindir tox env (Some "python"))); [|reflexivity].
  cbn [negb]. rewrite bind_ret_l. unfold bind. rewrite run_reply. cbv zeta.
  fold (reporter_command W tox env). cbn [andb res st evs].
  destruct (p_exit (spawn W (reporter_command W tox env) None s) =? 0); reflexivity.
Qed.

Lemma show_loop W tox envs : ∀ s,
  let r := for_each envs (show_installed_dependencies W tox) s in
  calls (evs r) `prefix_of` map InShow envs
  ∧ Forall (fun cmd => ∃ env, env ∈ envs ∧ cmd = reporter_command W tox env) (runs (evs r))
  ∧ writes (evs r) = []
  ∧ (res r = inl tt → calls (evs r) = map InShow envs
                      ∧ runs (evs r) = map (reporter_command W tox) envs).
Proof.
  induction envs as [|env envs IH]; intros s; cbv zeta.
  - cbn. split; [reflexivity|]. split; [constructor|]. split; [reflexivity|].
    intros _. split; reflexivity.
  - cbn [for_each]. unfold bind. rewrite show_installed_dependencies_reply.
    destruct (Path.exists_ s (bindir tox env (Some "python"))).
    2:{ cbn. repeat split; try discriminate.
        - now apply prefix_cons, prefix_nil.
        - constructor. }
    cbv zeta. cbn [res st evs].
    destruct (p_exit (spawn W (reporter_command W tox env) None s) =? 0).
    2:{ cbn. repeat split; try discriminate.
        - now apply prefix_cons, prefix_nil.
        - repeat constructor. exists env. split; [constructor | reflexivity]. }
    destruct (IH (after (spawn W (reporter_command W tox env) None s) s))
      as (Hc & Hr & Hw & Hall).
    cbn [res st evs app calls runs writes map].
    split; [now apply prefix_cons|]. split; [|split; [exact Hw|]].
    + constructor; [exists env; split; [constructor | reflexivity]|].
      eapply Forall_impl; [exact Hr|]. intros cmd (e & He & ->).
      exists e. split; [now constructor | reflexivity].
    + intros Hres. destruct (Hall Hres) as [H1 H2]. split; f_equal; assumption.
Qed.

(** X6. [test --dependencies] only reports. For each environment in turn it
    checks that the interpreter of the environment exists and runs it on
    the report script; the first environment without an interpreter logs
    an error and ends the whole call with exit status 1, the later ones
    are not reported. Whatever the other flags say, tox is not run, and
    neither the normalizer nor the linker is called. *)
Theorem dependencies_only_reports W c s0 x s :
  dependencies c = true →
  prepare W c s0 = Reply (inl x) s [] →
  let r := test W c s0 in
  calls (evs r) `prefix_of` InTest c :: map InShow (s_envs x)
  ∧ Forall (fun cmd => ∃ env, env ∈ s_envs x ∧ cmd = reporter_command W (s_tox x) env)
           (runs (evs r))
  ∧ writes (evs r) = []
  ∧ (res r = inl tt → runs (evs r) = map (reporter_command W (s_tox x)) (s_envs x))
  ∧ (∀ env rest, s_envs x = env :: rest →
       Path.exists_ s (bindir (s_tox x) env (Some "python")) = false →
       res r = inr (SystemExit 1) ∧ runs (evs r) = []).
Proof.
  intros Hd Hprep. cbv zeta.
  assert (Htest : test W c s0 =
            let r := for_each (s_envs x) (show_installed_dependencies W (s_tox x)) s in
            Reply (res r) (st r) (EvCall (InTest c) :: evs r)).
  { unfold test, test_open. rewrite bind_emit. unfold bind. rewrite Hprep, Hd. reflexivity. }
  rewrite Htest. cbv zeta. cbn [res evs calls runs writes].
  destruct (show_loop W (s_tox x) (s_envs x) s) as (Hc & Hr & Hw & Hall).
  split; [now apply prefix_cons|]. split; [exact Hr|]. split; [exact Hw|].
  split; [intros H; now apply Hall|].
  intros env rest Henvs Hmissing. rewrite Henvs.
  erewrite for_each_raises
    by (rewrite show_installed_dependencies_reply, Hmissing; reflexivity).
  rewrite show_installed_dependencies_reply, Hmissing. split; reflexivity.
Qed.

(** ** The commands of an environment *)

Lemma mem_app c : ∀ a b, Str.mem c (a ++ b) = Str.mem c a || Str.mem c b.
Proof.
  induction a as [|d a IH]; intros b; [reflexivity|].
  change (String d a ++ b) with (String d (a ++ b)). cbn [Str.mem].
  rewrite IH. now rewrite orb_assoc.
Qed.

Lemma split_go_word : ∀ s w, Str.split_go (Some w) s ≠ [].
Proof.
  induction s as [|c s IH]; intros w; cbn [Str.split_go]; [discriminate|].
  destruct (Str.is_space c); [discriminate | apply IH].
Qed.

(** A text with a character that is not blank has a first word. *)
Lemma split_has_word s c :
  Str.mem c s = true → Str.is_space c = false → Str.split s ≠ [].
Proof.
  unfold Str.split. induction s as [|d s IH]; intros Hm Hc; [discriminate|].
  cbn [Str.split_go]. destruct (Str.is_space d) eqn:Hd.
  - apply IH; [|exact Hc]. cbn [Str.mem] in Hm.
    destruct (Ascii.eqb c d) eqn:E; [|exact Hm].
    apply Ascii.eqb_eq in E. congruence.
  - apply split_go_word.
Qed.

Lemma join_keeps_left c a b :
  Str.startswith "/" b = false → Str.mem c a = true → Str.mem c (Path.join a b) = true.
Proof.
  intros Hb Ha. unfold Path.join. rewrite Hb.
  destruct (String.eqb a "" || Str.ends_with_char "/" a);
    rewrite !mem_app, Ha; reflexivity.
Qed.

Lemma full_command_has_word envdir command :
  Str.split (Path.join3 envdir "bin" command) ≠ [].
Proof.
  unfold Path.join3. destruct (Str.startswith "/" command) eqn:E.
  - unfold Path.join at 1. rewrite E.
    destruct command as [|c command]; [discriminate|].
    cbn [Str.startswith] in E. apply andb_true_iff in E as [E _].
    apply Ascii.eqb_eq in E. subst c.
    apply (split_has_word _ "/"); reflexivity.
  - apply (split_has_word _ "b"); [|reflexivity].
    apply join_keeps_left; [exact E|].
    unfold Path.join. change (Str.startswith "/" "bin") with false. cbv iota.
    destruct (String.eqb envdir "" || Str.ends_with_char "/" envdir);
      rewrite !mem_app; change (Str.mem "b" "bin") with true;
      now rewrite ?orb_true_r.
Qed.

Lemma command_path_split envdir command :
  ∃ rest, Str.split (Path.join3 envdir "bin" command) = command_path envdir command :: rest.
Proof.
  unfold command_path.
  destruct (Str.split (Path.join3 envdir "bin" command)) as [|path rest] eqn:E.
  - now apply full_command_has_word in E.
  - now exists rest.
Qed.

(** One command of the plain branch, case by case. *)
Lemma run_command_reply W repo envdir pytest_args envs env command s :
  let path := command_path envdir command in
  let line := Shell (command_line envdir pytest_args command) in
  let p := spawn W line (Some repo) s in
  run_command W repo envdir pytest_args envs env command s =
  if Path.exists_ s path then
    if p_exit p =? 0 then
      match last envs with
      | Some last_env =>
          Reply (inl tt) (after p s)
            (EvRun line (Some repo) false (p_exit p)
             :: if negb (String.eqb env last_env) then [EvPrint ""] else [])
      | None => Reply (inr IndexError) (after p s) [EvRun line (Some repo) false (p_exit p)]
      end
    else Reply (inr (RunError line (p_exit p))) (after p s)
           [EvRun line (Some repo) false (p_exit p)]
  else Reply (inl tt) s [EvLog ERROR (path ++ " does not exist")].
Proof.
  cbv zeta. unfold run_command.
  destruct (command_path_split envdir command) as [rest Hsplit]. rewrite Hsplit.
  unfold path_exists. rewrite bind_assoc, bind_get, bind_ret_l.
  destruct (Path.exists_ s (command_path envdir command)); [|reflexivity].
  fold (command_line envdir pytest_args command).
  unfold bind at 1. rewrite run_reply. cbv zeta. cbn [andb negb res st evs].
  fold (after (spawn W (Shell (command_line envdir pytest_args command)) (Some repo) s) s).
  destruct (p_exit _ =? 0); cbn [negb res st evs]; [|reflexivity].
  unfold last_of, bind, ret, raise, emit.
  destruct (last envs) as [last_env|]; cbn [res st evs]; [|reflexivity].
  destruct (negb (env =? last_env)%string); reflexivity.
Qed.

Lemma for_each_res {A} (body : A → M unit) l : ∀ s e,
  res (for_each l body s) = inr e → ∃ x s', x ∈ l ∧ res (body x s') = inr e.
Proof.
  induction l as [|x l IH]; intros s e H; [discriminate|].
  cbn [for_each] in H. unfold bind in H.
  destruct (res (body x s)) as [u|e'] eqn:E; cbn [res] in H.
  - destruct (IH _ _ H) as (y & s' & Hy & Hres). exists y, s'. split; [now constructor | exact Hres].
  - injection H as <-. exists x, s. split; [constructor | exact E].
Qed.

Lemma skipped_commands W repo envdir pytest_args envs env l : ∀ s,
  (∀ command, command ∈ l → Path.exists_ s (command_path envdir command) = false) →
  for_each l (run_command W repo envdir pytest_args envs env) s
  = Reply (inl tt) s
      (map (fun command => EvLog ERROR (command_path envdir command ++ " does not exist")) l).
Proof.
  induction l as [|command l IH]; intros s H; [reflexivity|].
  cbn [for_each]. unfold bind. rewrite run_command_reply. cbv zeta.
  rewrite (H command) by constructor. cbn [res st evs].
  rewrite IH by (intros c Hc; apply H; now constructor). reflexivity.
Qed.

(** X7. A command of tox.ini whose executable is not in the environment's
    bin directory is not run: an error is logged and the loop goes on to
    the next command. With no executable at all the pass over the
    environment runs nothing, changes nothing, logs one line per command
    and still returns normally. *)
Theorem missing_executables_are_skipped W tox repo pytest_args envs env s :
  (∀ command, command ∈ commands tox env →
     Path.exists_ s (command_path (envdir tox env) command) = false) →
  let r := run_commands W tox repo pytest_args envs env s in
  res r = inl tt
  ∧ st r = s
  ∧ runs (evs r) = []
  ∧ logged ERROR (evs r)
    = map (fun command => command_path (envdir tox env) command ++ " does not exist")
          (commands tox env).
Proof.
  intros Hmissing. cbv zeta. unfold run_commands.
  assert (Hprint : ∃ ev, (if (1 <? List.length envs)%nat then emit (EvPrint env) else ret tt) s
                         = Reply (inl tt) s ev ∧ runs ev = [] ∧ logged ERROR ev = []).
  { destruct (1 <? List.length envs)%nat; eexists; repeat split. }
  destruct Hprint as (ev & Hprint & Hruns & Hlog).
  rewrite (bind_step _ _ _ _ _ _ Hprint), skipped_commands by exact Hmissing.
  cbn [res st evs]. rewrite runs_app, logged_app, Hruns, Hlog. cbn [app].
  clear Hmissing. repeat split.
  - induction (commands tox env) as [|c l IH]; [reflexivity|]. exact IH.
  - induction (commands tox env) as [|c l IH]; [reflexivity|].
    cbn [map logged]. now rewrite IH.
Qed.

Lemma last_nonempty {A} (l : list A) x : x ∈ l → ∃ y, last l = Some y.
Proof.
  intros Hin. destruct (last l) as [y|] eqn:E; [eauto|].
  apply last_None in E. subst l. inversion Hin.
Qed.

(** X8. The commands of an environment can fail in one way only: one of
    them exits with a nonzero status. Taking the first word of the command
    line and the last name of the batch never raises, whatever the command
    text is, since the line always holds the bin directory. *)
Theorem commands_fail_only_by_exit_status W tox repo pytest_args envs env s e :
  env ∈ envs →
  res (run_commands W tox repo pytest_args envs env s) = inr e →
  ∃ command code,
    command ∈ commands tox env ∧ code ≠ 0
    ∧ e = RunError (Shell (command_line (envdir tox env) pytest_args command)) code.
Proof.
  intros Hin Hres. unfold run_commands, bind in Hres.
  assert (Hloop : ∃ s1, res (for_each (commands tox env)
                     (run_command W repo (envdir tox env) pytest_args envs env) s1) = inr e).
  { destruct (1 <? List.length envs)%nat; cbn [res st emit ret] in Hres; eauto. }
  destruct Hloop as [s1 Hloop].
  apply for_each_res in Hloop as (command & s' & Hcommand & Hfail).
  exists command. rewrite run_command_reply in Hfail. cbv zeta in Hfail.
  destruct (Path.exists_ s' _); [|discriminate].
  destruct (p_exit _ =? 0) eqn:Hexit.
  - destruct (last_nonempty envs env Hin) as [y Hy]. rewrite Hy in Hfail. discriminate.
  - injection Hfail as <-. eexists. split; [exact Hcommand|].
    split; [|reflexivity]. now apply Z.eqb_neq.
Qed.

(** X9. A test command that exits with a nonzero status ends the whole
    plain run: the error is raised out of the loop over the environments,
    so the commands after it and every later environment are neither run
    nor redeveloped. *)
Theorem failing_command_ends_run W tox repo pytest_args env others s root t command rest :
  Path.lookup s (envdir tox env) = Some root →
  newest_declaration repo s = Some t →
  t <= node_mtime root →
  commands tox env = command :: rest →
  Path.exists_ s (command_path (envdir tox env) command) = true →
  let line := Shell (command_line (envdir tox env) pytest_args command) in
  let p := spawn W line (Some repo) s in
  p_exit p ≠ 0 →
  let envs := env :: others in
  let r := for_each envs (test_env W (test_redevelop W) tox repo pytest_args envs) s in
  res r = inr (RunError line (p_exit p))
  ∧ st r = after p s
  ∧ runs (evs r) = [line]
  ∧ calls (evs r) = [].
Proof.
  intros Hroot Ht Hle Hcommands Hex line p Hfail envs. subst envs.
  set (envs := env :: others).
  assert (Hpass : test_env W (test_redevelop W) tox repo pytest_args envs env s
                  = Reply (inr (RunError line (p_exit p))) (after p s)
                      ((if (1 <? List.length envs)%nat then [EvPrint env] else [])
                       ++ [EvRun line (Some repo) false (p_exit p)])).
  { unfold test_env.
    rewrite (bind_pure _ _ _ _ (must_redevelop_verdict _ _ _ _ _ Hroot Ht)).
    replace (node_mtime root <? t) with false by (symmetry; apply Z.ltb_ge; lia).
    unfold run_commands. rewrite Hcommands.
    assert (Hturn : for_each (command :: rest)
                      (run_command W repo (envdir tox env) pytest_args envs env) s
                    = Reply (inr (RunError line (p_exit p))) (after p s)
                        [EvRun line (Some repo) false (p_exit p)]).
    { assert (Hone : run_command W repo (envdir tox env) pytest_args envs env command s
                     = Reply (inr (RunError line (p_exit p))) (after p s)
                         [EvRun line (Some repo) false (p_exit p)]).
      { rewrite run_command_reply. cbv zeta. rewrite Hex. fold line. fold p.
        apply Z.eqb_neq in Hfail. now rewrite Hfail. }
      rewrite (for_each_raises _ _ _ _ (RunError line (p_exit p))) by now rewrite Hone.
      now rewrite Hone. }
    unfold bind. destruct (1 <? List.length envs)%nat; cbn [res st evs emit ret];
      rewrite Hturn; reflexivity. }
  assert (Hrun : for_each envs (test_env W (test_redevelop W) tox repo pytest_args envs) s
                 = Reply (inr (RunError line (p_exit p))) (after p s)
                     ((if (1 <? List.length envs)%nat then [EvPrint env] else [])
                      ++ [EvRun line (Some repo) false (p_exit p)])).
  { unfold envs at 1.
    rewrite (for_each_raises _ _ _ _ (RunError line (p_exit p))) by now rewrite Hpass.
    now rewrite Hpass. }
  cbv zeta. rewrite Hrun.
  destruct (1 <? List.length envs)%nat; cbn [res st evs app runs calls]; repeat split.
Qed.

(** ** The linker and the interpreter *)

(** X10. With an allow-list configured, the linker first asks the
    interpreter of the environment for the declared dependencies. If that
    run exits with a nonzero status the linker raises its error at once:
    it is the only process started, no pip command is run and nothing is
    logged. *)
Theorem linker_needs_the_interpreter W tox env debug s :
  truthy (editable_product_dependencies W) = true →
  let q := spawn W (requires_command W tox env) None s in
  p_exit q ≠ 0 →
  install_editable_dependencies W tox env debug s
  = Reply (inr (RunError (requires_command W tox env) (p_exit q))) (after q s)
      [EvCall (InEditable env); EvRun (requires_command W tox env) None false (p_exit q)].
Proof.
  intros Hcfg q Hfail. unfold install_editable_dependencies.
  rewrite bind_emit, Hcfg. cbn [negb]. fold (requires_command W tox env).
  unfold bind. rewrite run_reply. cbv zeta. fold q.
  apply Z.eqb_neq in Hfail. rewrite Hfail. reflexivity.
Qed.

(** ** What the normalizer leaves alone *)

Module NormalizerFrame.
Import Re ReFacts Normalizer.

Lemma same_kind_refl o : same_kind o o.
Proof. destruct o as [[]|]; simpl; auto. Qed.

Lemma same_kind_trans a b c : same_kind a b → same_kind b c → same_kind a c.
Proof.
  destruct a as [[]|], b as [[]|], c as [[]|]; simpl; try tauto.
  intros [-> ->] [-> ->]. auto.
Qed.

Lemma strip_script_ambient p name script_bin script removed_from s :
  let r := strip_script p name script_bin script removed_from s in
  environ (st r) = environ s ∧ cwd (st r) = cwd s ∧ clock (st r) = clock s.
Proof.
  cbv zeta. rewrite strip_script_reply. cbv zeta.
  destruct (content_at s (Path.join script_bin script)) as [c|]; [|auto].
  destruct (search p c); auto.
Qed.

Lemma strip_script_kind p name script_bin script removed_from s q :
  same_kind (Path.lookup s q)
            (Path.lookup (st (strip_script p name script_bin script removed_from s)) q).
Proof.
  rewrite strip_script_reply. cbv zeta.
  destruct (content_at s (Path.join script_bin script)) as [c|] eqn:Hc;
    [|apply same_kind_refl].
  destruct (search p c); [|apply same_kind_refl]. cbn [st].
  rewrite lookup_overwritten.
  destruct (q =? "")%string eqn:Hq.
  { unfold Path.lookup. rewrite Hq. exact I. }
  destruct (decide _) as [Heq|]; [|apply same_kind_refl].
  unfold content_at in Hc.
  destruct (Path.lookup s (Path.join script_bin script)) as [[t d|]|] eqn:E; try discriminate.
  apply lookup_file_key in E as [_ Hkey].
  unfold Path.lookup. rewrite Hq, <- Heq, Hkey. exact I.
Qed.

Lemma strip_script_written p name script_bin script removed_from s :
  Forall (fun path => path = Path.join script_bin script)
         (writes (evs (strip_script p name script_bin script removed_from s))).
Proof.
  rewrite strip_script_reply. cbv zeta.
  destruct (content_at s (Path.join script_bin script)) as [c|]; [|constructor].
  destruct (search p c); repeat constructor.
Qed.

Lemma strip_scripts_keeps p name script_bin scripts : ∀ removed_from s,
  let r := strip_scripts p name script_bin scripts removed_from s in
  (environ (st r) = environ s ∧ cwd (st r) = cwd s ∧ clock (st r) = clock s)
  ∧ (∀ q, same_kind (Path.lookup s q) (Path.lookup (st r) q))
  ∧ Forall (fun path => ∃ script, script ∈ scripts ∧ path = Path.join script_bin script)
           (writes (evs r)).
Proof.
  induction scripts as [|script rest IH]; intros removed_from s; cbv zeta.
  - cbn. repeat split; try constructor. intros q. apply same_kind_refl.
  - cbn [strip_scripts]. unfold bind.
    destruct (strip_script_ambient p name script_bin script removed_from s) as (He & Hc & Hk).
    pose proof (strip_script_kind p name script_bin script removed_from s) as Hkind.
    pose proof (strip_script_written p name script_bin script removed_from s) as Hw.
    assert (Hw' : Forall (fun path => ∃ x, x ∈ script :: rest ∧ path = Path.join script_bin x)
                    (writes (evs (strip_script p name script_bin script removed_from s)))).
    { eapply Forall_impl; [exact Hw|]. intros path ->. exists script. split; [constructor | reflexivity]. }
    destruct (res (strip_script p name script_bin script removed_from s)) as [acc|e];
      cbn [res st evs].
    + destruct (IH acc (st (strip_script p name script_bin script removed_from s)))
        as ((He1 & Hc1 & Hk1) & Hkind1 & Hw1).
      split; [repeat split; congruence|]. split.
      * intros q. eapply same_kind_trans; [apply Hkind | apply Hkind1].
      * rewrite writes_app. apply Forall_app. split; [exact Hw'|].
        eapply Forall_impl; [exact Hw1|]. intros path (x & Hx & ->).
        exists x. split; [now constructor | reflexivity].
    + split; [auto|]. split; [exact Hkind | exact Hw'].
Qed.

End NormalizerFrame.

Lemma runs_writes l : Forall a_write l → runs l = [].
Proof.
  induction 1 as [|e l He _ IH]; [reflexivity|].
  destruct e; simpl in *; try contradiction. exact IH.
Qed.

(** X11. The normalizer only rewrites files in place. It starts no
    process; it leaves the environment variables, the working directory
    and the clock as they were; at every path there is afterwards what
    there was before, except that a file may have been replaced by a file:
    nothing is created or deleted and no directory is touched; and each
    path it writes is an entry of the script directory of the
    environment. *)
Theorem normalizer_only_rewrites_scripts W tox env s :
  let script_bin := bindir tox env None in
  let r := strip_version_from_entry_scripts W tox env s in
  runs (evs r) = []
  ∧ (environ (st r) = environ s ∧ cwd (st r) = cwd s ∧ clock (st r) = clock s)
  ∧ (∀ q, same_kind (Path.lookup s q) (Path.lookup (st r) q))
  ∧ (∀ path, path ∈ writes (evs r) →
       ∃ t entries script,
         Path.lookup s script_bin = Some (Dir t entries)
         ∧ script ∈ entries ∧ path = Path.join script_bin script).
Proof.
  cbv zeta. rewrite strip_version_reply. cbv zeta.
  assert (Hnone : ∀ (o : pyval + exn),
    let r := Reply o s [EvCall (InStrip env)] in
    runs (evs r) = []
    ∧ (environ (st r) = environ s ∧ cwd (st r) = cwd s ∧ clock (st r) = clock s)
    ∧ (∀ q, same_kind (Path.lookup s q) (Path.lookup (st r) q))
    ∧ (∀ path, path ∈ writes (evs r) →
         ∃ t entries script,
           Path.lookup s (bindir tox env None) = Some (Dir t entries)
           ∧ script ∈ entries ∧ path = Path.join (bindir tox env None) script)).
  { intros o. cbn. repeat split; try reflexivity.
    - intros q. apply NormalizerFrame.same_kind_refl.
    - intros path Hin. inversion Hin. }
  destruct (Path.lookup s (bindir tox env None)) as [node|] eqn:Hbin; [|apply Hnone].
  destruct (Re.atoms_of (product_name W (tox_repo tox))) as [p|]; [|apply Hnone].
  destruct node as [t d|t entries]; [apply Hnone|].
  destruct (NormalizerFrame.strip_scripts_keeps p (product_name W (tox_repo tox))
              (bindir tox env None) entries [] s) as (Hamb & Hkind & Hw).
  pose proof (strip_scripts_writes p (product_name W (tox_repo tox))
                (bindir tox env None) entries [] s) as Hall.
  assert (Hwr : ∀ path,
            path ∈ writes (evs (strip_scripts p (product_name W (tox_repo tox))
                                  (bindir tox env None) entries [] s)) →
            ∃ t0 entries0 script,
              Some (Dir t entries) = Some (Dir t0 entries0)
              ∧ script ∈ entries0 ∧ path = Path.join (bindir tox env None) script).
  { intros path Hin. rewrite Forall_forall in Hw.
    destruct (Hw path Hin) as (script & Hs & ->). exists t, entries, script. auto. }
  destruct (res (strip_scripts p _ _ entries [] s)) as [removed_from|e];
    cbn [res st evs runs writes].
  - rewrite runs_app, writes_app, (runs_writes _ Hall).
    destruct (nonempty removed_from); cbn [runs writes app];
      rewrite app_nil_r; repeat split; try apply Hamb; assumption.
  - rewrite (runs_writes _ Hall). repeat split; try apply Hamb; assumption.
Qed.

(** X12. For a product name without regular-expression characters and a
    script directory whose entries name different files, a normalization
    that returns leaves in every script the text in which each occurrence
    of the name followed by [==] and a run of digits and dots is replaced
    by the name: a script without an occurrence keeps its text. *)
Theorem plain_name_normalization W tox env s t entries :
  let name := product_name W (tox_repo tox) in
  let script_bin := bindir tox env None in
  let r := strip_version_from_entry_scripts W tox env s in
  plain name = true →
  Path.lookup s script_bin = Some (Dir t entries) →
  NoDup (map (fun script => Path.resolve s (Path.join script_bin script)) entries) →
  res r = inl PyNone →
  ∀ script c, script ∈ entries →
    content_at s (Path.join script_bin script) = Some c →
    content_at (st r) (Path.join script_bin script) = Some (spec_normalize name c).
Proof.
  intros name script_bin r Hplain Hbin Hdup Hres script c Hin Hc.
  unfold r in *. rewrite strip_version_reply in *. cbv zeta in *.
  fold name in Hres |- *. fold script_bin in Hres |- *.
  rewrite Hbin, (PlainNames.plain_atoms name Hplain) in *.
  destruct (res (strip_scripts (literals name) name script_bin entries [] s))
    as [removed_from|e] eqn:Hloop; [|discriminate].
  cbn [st].
  now apply (Normalizer.pass_effect_plain name script_bin entries [] s removed_from).
Qed.

(** ** Repeated normalization *)

Module Passes.
Import Re ReFacts.

Lemma atoms_of_length name : ∀ p, atoms_of name = Some p → List.length p = String.length name.
Proof.
  induction name as [|c name IH]; intros p H; simpl in H.
  - now injection H as <-.
  - destruct (atoms_of name) as [q|]; [|discriminate].
    destruct (Ascii.eqb c "."); [|destruct (special c); [discriminate|]];
      injection H as <-; simpl; now rewrite (IH q).
Qed.

Lemma match_atoms_length p : ∀ s r,
  match_atoms p s = Some r → String.length s = (List.length p + String.length r)%nat.
Proof.
  induction p as [|a p IH]; intros s r H; simpl in H.
  - now injection H as ->.
  - destruct s as [|c s]; [discriminate|].
    destruct (atom_matches a c); [|discriminate]. simpl. now rewrite (IH s r H).
Qed.

Lemma span_ver_le v : (span_ver v <= String.length v)%nat.
Proof. induction v as [|c v IH]; simpl; [lia|]. destruct (is_ver c); simpl; lia. Qed.

(** A match lies within the text and is at least three characters longer
    than the name part. *)
Lemma match_at_bounds p s n :
  match_at p s = Some n → (List.length p + 3 <= n <= String.length s)%nat.
Proof.
  unfold match_at. destruct (match_atoms p s) as [r|] eqn:Hr; [|discriminate].
  apply match_atoms_length in Hr.
  destruct (eqeq r) as [v|] eqn:Hv; [|discriminate].
  assert (Hlen : String.length r = (2 + String.length v)%nat).
  { unfold eqeq in Hv. destruct r as [|a [|b r]]; try discriminate.
    destruct (Ascii.eqb a "=" && Ascii.eqb b "="); [|discriminate].
    now injection Hv as ->. }
  pose proof (span_ver_le v). destruct (span_ver v) as [|k]; [discriminate|].
  intros [= <-]. lia.
Qed.

Lemma drop_length n : ∀ s,
  (n <= String.length s)%nat → String.length (Str.drop n s) = (String.length s - n)%nat.
Proof.
  induction n as [|n IH]; intros s H; [simpl; lia|].
  destruct s as [|c s]; simpl in *; [lia|]. apply IH. lia.
Qed.

Lemma append_length a b : String.length (a ++ b) = (String.length a + String.length b)%nat.
Proof. induction a as [|c a IH]; simpl; [reflexivity | now rewrite IH]. Qed.

(** The substitution never lengthens a text, and shortens it by three
    characters at least where the pattern matches. *)
Lemma sub_length p repl : (String.length repl <= List.length p)%nat →
  ∀ n s, (String.length s <= n)%nat →
    (String.length (sub p repl s) <= String.length s)%nat
    ∧ (search p s = true → (String.length (sub p repl s) + 3 <= String.length s)%nat).
Proof.
  intros Hrepl. induction n as [|n IH]; intros s Hlen.
  - destruct s; [|simpl in Hlen; lia]. rewrite sub_nil. cbn [search].
    rewrite match_at_nil. split; [lia | discriminate].
  - destruct s as [|c s].
    { rewrite sub_nil. cbn [search]. rewrite match_at_nil. split; [simpl; lia | discriminate]. }
    destruct (match_at p (String c s)) as [m|] eqn:E.
    + rewrite (sub_match _ _ _ _ E), append_length.
      pose proof (match_at_bounds _ _ _ E) as Hb.
      pose proof (drop_length m (String c s) ltac:(lia)) as Hd.
      destruct (IH (Str.drop m (String c s))) as [Hle _]; [simpl in *; lia|].
      split; [lia | intros _; lia].
    + rewrite sub_no_match by assumption. cbn [search]. rewrite E.
      destruct (IH s) as [Hle Hlt]; [simpl in Hlen; lia|].
      simpl. split; [lia | intros H; specialize (Hlt H); lia].
Qed.

Lemma passes_settled p name n : ∀ c, search p c = false → passes n p name c = c.
Proof.
  induction n as [|n IH]; intros c H; [reflexivity|].
  cbn [passes]. rewrite (sub_no_search _ _ _ H). now apply IH.
Qed.

End Passes.

(** X13. Normalization settles. Every pass that rewrites a script makes it
    at least three characters shorter and a pass that finds nothing leaves
    it as it is, so that after as many passes as the script has characters
    (a third of them is enough) no occurrence of the pattern is left,
    whatever the script held. *)
Theorem repeated_normalization_settles name p c :
  Re.atoms_of name = Some p →
  (Re.search p c = true → (String.length (Re.sub p name c) + 3 <= String.length c)%nat)
  ∧ (Re.search p c = false → Re.sub p name c = c)
  ∧ (∀ n, (String.length c <= 3 * n)%nat → Re.search p (passes n p name c) = false).
Proof.
  intros Hp.
  assert (Hrepl : (String.length name <= List.length p)%nat)
    by (rewrite (Passes.atoms_of_length name p Hp); lia).
  split; [|split].
  - intros H. now apply (Passes.sub_length p name Hrepl (String.length c) c).
  - apply ReFacts.sub_no_search.
  - intros n. revert c. induction n as [|n IH]; intros c Hlen.
    + destruct c; [|simpl in Hlen; lia]. cbn. now rewrite ReFacts.match_at_nil.
    + destruct (Re.search p c) eqn:E.
      * cbn [passes]. apply IH.
        pose proof (proj2 (Passes.sub_length p name Hrepl (String.length c) c (le_n _)) E). lia.
      * rewrite Passes.passes_settled by exact E. exact E.
Qed.

(** ** Worked instances of the further properties *)

Lemma venv_directories_leave_path_witness :
  strip_venv_path (Demo.start "mytool") = Reply (inl tt) (Demo.start "mytool") []
  ∧ strip_venv_path Demo2.in_venv_without_path
    = Reply (inr (KeyError "PATH")) Demo2.in_venv_without_path []
  ∧ ∃ new_path,
      strip_venv_path Demo2.in_venv
      = Reply (inl tt)
          (set_environ (<["PATH" := new_path]> (environ Demo2.in_venv)) Demo2.in_venv) []
      ∧ (∀ p, p ≠ "" →
           (p ∈ Str.split_on ":" new_path ↔
            p ∈ Str.split_on ":" "/ws/venv/bin:/usr/bin:/opt/gone/bin"
            ∧ Path.exists_ Demo2.in_venv p = true
            ∧ Str.startswith "/ws/venv" p = false))
      ∧ (kept_path_entries Demo2.in_venv "/ws/venv" "/ws/venv/bin:/usr/bin:/opt/gone/bin" ≠ [] →
         Str.split_on ":" new_path
         = kept_path_entries Demo2.in_venv "/ws/venv" "/ws/venv/bin:/usr/bin:/opt/gone/bin").
Proof.
  split; [|split].
  - apply (proj1 (venv_directories_leave_path (Demo.start "mytool"))). reflexivity.
  - apply (proj1 (proj2 (venv_directories_leave_path Demo2.in_venv_without_path)) "/ws/venv");
      reflexivity.
  - apply (proj2 (proj2 (venv_directories_leave_path Demo2.in_venv)) "/ws/venv"
             "/ws/venv/bin:/usr/bin:/opt/gone/bin"); reflexivity.
Defined.

Example venv_path_example :
  environ (st (strip_venv_path Demo2.in_venv)) !! "PATH" = Some "/usr/bin".
Proof. reflexivity. Qed.

Lemma prepare_outcome_witness :
  let W := Demo.world "mytool" None Demo.all_succeed in
  let c := Call ["py26"; "setup.py"; "py33"] false false false true None false in
  ∃ x, res (prepare W c (Demo.start "mytool")) = inl x
       ∧ s_repo x = Demo.repo
       ∧ s_envs x = ["py26"; "py33"]
       ∧ s_pytest_args x = "-s /ws/mytool/setup.py".
Proof.
  intros W c.
  destruct (prepare_outcome W c (Demo.start "mytool")) as (_ & _ & _ & _ & _ & _ & Hx).
  eexists. split; [reflexivity|].
  destruct (Hx _ eq_refl) as [Hrepo Henvs].
  split; [exact Hrepo|]. split; [exact Henvs | reflexivity].
Defined.

Lemma pytest_args_exported_witness :
  let W := Demo.world "mytool" None Demo.all_succeed in
  let c := Call ["py26"; "setup.py"] false false false true (Some "slow") false in
  environ (st (prepare W c (Demo.start "mytool"))) !! "PYTESTARGS"
  = Some "-s -k slow /ws/mytool/setup.py".
Proof.
  intros W c.
  exact (proj2 (pytest_args_exported W c (Demo.start "mytool")
                  (Setting Demo.tox Demo.repo ["py26"] "-s -k slow /ws/mytool/setup.py")
                  eq_refl)).
Defined.

Lemma redevelop_call_reads_name_again_witness :
  let W := Demo.world "mytool" None Demo.all_succeed in
  (s_envs (Setting Demo.tox Demo.repo ["py26"; "py27"] "/ws/mytool/docs") = ["py26"; "py27"]
   ∧ s_pytest_args (Setting Demo.tox Demo.repo ["py26"; "py27"] "/ws/mytool/docs")
     = "/ws/mytool/docs"
   ∧ environ (st (prepare W (Call ["docs"] false true false false None false) Demo2.with_docs))
       !! "PYTESTARGS" = Some "/ws/mytool/docs")
  ∧ s_envs (Setting Demo.tox Demo.repo ["docs"] "") = ["docs"].
Proof.
  intros W. split.
  - apply (proj2 (redevelop_call_reads_name_again W "docs" Demo2.with_docs
                    (Setting Demo.tox Demo.repo ["py26"; "py27"] "/ws/mytool/docs") eq_refl)).
    reflexivity.
  - apply (proj1 (redevelop_call_reads_name_again W "docs" (Demo.start "mytool")
                    (Setting Demo.tox Demo.repo ["docs"] "") eq_refl)).
    reflexivity.
Defined.

Lemma tox_command_names_batch_witness :
  tox_command Demo.tox [] true = Argv ["tox"; "-c"; "/ws/mytool/tox.ini"; "-r"]
  ∧ ∃ value, tox_command Demo.tox ["py26"; "py27"] false
             = Argv ["tox"; "-c"; "/ws/mytool/tox.ini"; "-e"; value]
             ∧ Str.split_on "," value = ["py26"; "py27"].
Proof.
  split.
  - apply (proj1 (tox_command_names_batch Demo.tox [] true ltac:(constructor))). reflexivity.
  - apply (proj2 (tox_command_names_batch Demo.tox ["py26"; "py27"] false
                    ltac:(repeat constructor))). discriminate.
Defined.

Lemma dependencies_only_reports_witness :
  let W := Demo.world "mytool" None Demo.all_succeed in
  let r := test W Demo2.report_both Demo2.with_interpreter in
  calls (evs r) `prefix_of` InTest Demo2.report_both :: map InShow ["py27"; "py26"]
  ∧ Forall (fun cmd => ∃ env, env ∈ ["py27"; "py26"] ∧ cmd = reporter_command W Demo.tox env)
           (runs (evs r))
  ∧ writes (evs r) = []
  ∧ res r = inr (SystemExit 1)
  ∧ runs (evs r) = [reporter_command W Demo.tox "py27"].
Proof.
  intros W r.
  destruct (dependencies_only_reports W Demo2.report_both Demo2.with_interpreter
              Demo2.report_setting Demo2.with_interpreter eq_refl eq_refl)
    as (Hc & Hr & Hw & _).
  split; [exact Hc|]. split; [exact Hr|]. split; [exact Hw|].
  split; vm_compute; reflexivity.
Defined.

Lemma missing_executables_are_skipped_witness :
  let W := Demo.world "mytool" None Demo.all_succeed in
  let r := run_commands W Demo.tox Demo.repo "" ["py26"] "py26" (Demo.start "mytool") in
  res r = inl tt
  ∧ st r = Demo.start "mytool"
  ∧ runs (evs r) = []
  ∧ logged ERROR (evs r) = ["/ws/mytool/.tox/py26/bin/py.test does not exist"].
Proof.
  intros W.
  apply (missing_executables_are_skipped W Demo.tox Demo.repo "" ["py26"] "py26"
           (Demo.start "mytool")).
  intros command Hin. apply list_elem_of_In in Hin.
  destruct Hin as [<-|[]]. reflexivity.
Defined.

Lemma commands_fail_only_by_exit_status_witness :
  let W := Demo.world "mytool" None Demo2.tests_fail in
  ∃ command code,
    command ∈ commands Demo.tox "py27" ∧ code ≠ 0
    ∧ RunError (Shell ". /ws/mytool/.tox/py27/bin/activate; /ws/mytool/.tox/py27/bin/py.test  tests") 1
      = RunError (Shell (command_line (envdir Demo.tox "py27") "" command)) code.
Proof.
  intros W.
  apply (commands_fail_only_by_exit_status W Demo.tox Demo.repo "" ["py27"] "py27"
           (Demo.start "mytool")).
  - apply list_elem_of_In. simpl. left. reflexivity.
  - vm_compute. reflexivity.
Defined.

Lemma failing_command_ends_run_witness :
  let W := Demo.world "mytool" None Demo2.tests_fail in
  let line := Shell (command_line (envdir Demo.tox "py27") "" "py.test {env:PYTESTARGS:} tests") in
  let p := spawn W line (Some Demo.repo) (Demo.start "mytool") in
  let envs := ["py27"; "py26"] in
  let r := for_each envs (test_env W (test_redevelop W) Demo.tox Demo.repo "" envs)
             (Demo.start "mytool") in
  res r = inr (RunError line (p_exit p))
  ∧ st r = after p (Demo.start "mytool")
  ∧ runs (evs r) = [line]
  ∧ calls (evs r) = [].
Proof.
  intros W.
  apply (failing_command_ends_run W Demo.tox Demo.repo "" "py27" ["py26"]
           (Demo.start "mytool") (Dir 20 ["bin"]) 10 "py.test {env:PYTESTARGS:} tests" []).
  - reflexivity.
  - reflexivity.
  - simpl. lia.
  - reflexivity.
  - reflexivity.
  - vm_compute. discriminate.
Defined.

Lemma linker_needs_the_interpreter_witness :
  let W := Demo.world "mytool" (Some "libA") Demo.interpreter_fails in
  let q := spawn W (requires_command W Demo.tox "py27") None (Demo.start "mytool") in
  install_editable_dependencies W Demo.tox "py27" false (Demo.start "mytool")
  = Reply (inr (RunError (requires_command W Demo.tox "py27") (p_exit q)))
      (after q (Demo.start "mytool"))
      [EvCall (InEditable "py27");
       EvRun (requires_command W Demo.tox "py27") None false (p_exit q)].
Proof.
  intros W.
  apply (linker_needs_the_interpreter W Demo.tox "py27" false (Demo.start "mytool")).
  - reflexivity.
  - vm_compute. discriminate.
Defined.

Lemma plain_name_normalization_witness :
  let W := Demo.world "mytool" None Demo.all_succeed in
  let s := Demo.start "mytool==1.0 --flag" in
  let r := strip_version_from_entry_scripts W Demo.tox "py27" s in
  content_at (st r) (Path.join (bindir Demo.tox "py27" None) "mytool")
  = Some (spec_normalize "mytool" "mytool==1.0 --flag")
  ∧ content_at (st r) (Path.join (bindir Demo.tox "py27" None) "py.test")
    = Some (spec_normalize "mytool" "othertool --flag").
Proof.
  intros W s.
  pose proof (plain_name_normalization W Demo.tox "py27" s 20 ["mytool"; "py.test"]
                eq_refl eq_refl) as H.
  assert (Hnodup : NoDup (map (fun script =>
            Path.resolve s (Path.join (bindir Demo.tox "py27" None) script))
            ["mytool"; "py.test"])).
  { apply NoDup_ListNoDup. vm_compute.
    constructor; [intros [H'|[]]; discriminate|].
    constructor; [intros []|]. constructor. }
  specialize (H Hnodup eq_refl).
  split; apply H.
  - apply list_elem_of_In. simpl. left. reflexivity.
  - reflexivity.
  - apply list_elem_of_In. simpl. right. left. reflexivity.
  - reflexivity.
Defined.

Lemma repeated_normalization_settles_witness :
  (String.length (Re.sub (literals "mytool") "mytool" "mytool==1.0==2.0") + 3
   <= String.length "mytool==1.0==2.0")%nat
  ∧ Re.sub (literals "mytool") "mytool" "othertool --flag" = "othertool --flag"
  ∧ Re.search (literals "mytool") (passes 6 (literals "mytool") "mytool" "mytool==1.0==2.0")
    = false.
Proof.
  destruct (repeated_normalization_settles "mytool" (literals "mytool") "mytool==1.0==2.0"
              eq_refl) as (Hshorter & _ & Hsettles).
  destruct (repeated_normalization_settles "mytool" (literals "mytool") "othertool --flag"
              eq_refl) as (_ & Hsame & _).
  split; [apply Hshorter; reflexivity|].
  split; [apply Hsame; reflexivity|].
  apply Hsettles. simpl. lia.
Defined.

(** * The loop of [setup.py] that calls [test] *)

Module DevelopFacts.

Lemma chdir_reply p s :
  chdir p s = if is_dir s p then Reply (inl tt) (set_cwd (Path.resolve s p) s) []
              else Reply (inr (OSError p)) s [].
Proof. unfold chdir. rewrite bind_get. destruct (is_dir s p); reflexivity. Qed.

Lemma absolute_nonempty d : Str.startswith "/" d = true → String.eqb d "" = false.
Proof. destruct d; [discriminate | reflexivity]. Qed.

Lemma resolve_absolute s d : Str.startswith "/" d = true → Path.resolve s d = d.
Proof. intros H. unfold Path.resolve, Path.join. now rewrite H. Qed.

Lemma is_dir_absolute s d :
  Str.startswith "/" d = true → is_dir s d = fs_is_dir (fs s) d.
Proof.
  intros H. unfold is_dir, fs_is_dir, Path.lookup.
  now rewrite (absolute_nonempty _ H), (resolve_absolute _ _ H).
Qed.

(** What [try ... finally: os.chdir(d)] lets out: the failure of the
    [chdir], or what was pending when it ran. *)
Lemma finally_chdir body handler d s e :
  res (try_except_finally body handler (chdir d) s) = inr e →
  e = OSError d
  ∨ (res (body s) = inr e ∧ is_Exception e = false)
  ∨ (∃ e0, res (body s) = inr e0 ∧ is_Exception e0 = true
           ∧ res (handler e0 (st (body s))) = inr e).
Proof.
  unfold try_except_finally.
  destruct (res (body s)) as [u|e0] eqn:Ebody.
  - rewrite chdir_reply. destruct (is_dir (st (body s)) d); cbn [res].
    + rewrite Ebody. discriminate.
    + intros [= <-]. now left.
  - destruct (is_Exception e0) eqn:Eexc.
    + cbn [st res]. rewrite chdir_reply.
      destruct (is_dir (st (handler e0 (st (body s)))) d); cbn [res].
      * intros H. right. right. exists e0. auto.
      * intros [= <-]. now left.
    + rewrite chdir_reply. destruct (is_dir (st (body s)) d); cbn [res].
      * rewrite Ebody. intros [= <-]. right. left. auto.
      * intros [= <-]. now left.
Qed.

Lemma develop_product_error W describe develop d product s e :
  res (develop_product W describe develop d product s) = inr e →
  e = OSError d ∨ is_Exception e = false.
Proof.
  unfold develop_product. rewrite bind_emit. cbn [res]. intros H.
  apply finally_chdir in H as [H|[[_ H]|(e0 & _ & _ & H)]]; auto.
  discriminate.
Qed.

End DevelopFacts.

(** X14. No exception of a product's development stops the loop of
    [setup_product_group], except the ones that are not of class
    [Exception]: what comes out of the loop is the failure to return to
    the directory it started in, or an error such as [SystemExit]. *)
Theorem development_errors W describe develop product_group s e :
  res (develop_environments W describe develop product_group s) = inr e →
  e = OSError (cwd s) ∨ is_Exception e = false.
Proof.
  unfold develop_environments, getcwd. rewrite bind_assoc, bind_get.
  rewrite (bind_pure _ _ _ (cwd s) eq_refl).
  intros H. apply for_each_res in H as (product & s' & _ & H).
  now apply DevelopFacts.develop_product_error in H.
Qed.

Lemma develop_product_goes_on W describe develop d product s :
  Str.startswith "/" d = true →
  keeps_directories develop →
  (∀ s' e, res (develop s') = inr e → is_Exception e = true) →
  fs_is_dir (fs s) d = true →
  let r := develop_product W describe develop d product s in
  res r = inl tt
  ∧ cwd (st r) = d
  ∧ fs_is_dir (fs (st r)) d = true
  ∧ ∃ rest, logged INFO (evs r) = developing product :: rest.
Proof.
  intros Habs Hkeeps Hexc Hdir r. subst r.
  unfold develop_product. rewrite bind_emit. cbn [res st evs logged].
  unfold try_except_finally.
  set (body := bind (chdir (product_path W product)) (fun _ => develop)).
  assert (Hbody : fs_is_dir (fs (st (body s))) d = true
                  ∧ ∀ e, res (body s) = inr e → is_Exception e = true).
  { unfold body, bind. rewrite DevelopFacts.chdir_reply.
    destruct (is_dir s (product_path W product)); cbn [res st].
    - split; [now apply Hkeeps | apply Hexc].
    - split; [exact Hdir | now intros e [= <-]]. }
  destruct Hbody as [Hfs Hres].
  destruct (res (body s)) as [[]|e] eqn:Ebody.
  - rewrite DevelopFacts.chdir_reply, (DevelopFacts.is_dir_absolute _ _ Habs), Hfs.
    cbn [res st evs]. rewrite Ebody, (DevelopFacts.resolve_absolute _ _ Habs).
    repeat split; eauto.
  - rewrite (Hres e eq_refl). cbn [st res evs emit].
    rewrite DevelopFacts.chdir_reply, (DevelopFacts.is_dir_absolute _ _ Habs), Hfs.
    cbn [res st evs]. rewrite (DevelopFacts.resolve_absolute _ _ Habs).
    repeat split; eauto.
Qed.

(** The loop goes on after a failure. *)
Lemma develop_loop_goes_on W describe develop product_group s :
  Str.startswith "/" (cwd s) = true →
  fs_is_dir (fs s) (cwd s) = true →
  keeps_directories develop →
  (∀ s' e, res (develop s') = inr e → is_Exception e = true) →
  let r := develop_environments W describe develop product_group s in
  res r = inl tt
  ∧ cwd (st r) = cwd s
  ∧ map developing (expand_product_groups W [product_group]) `sublist_of` logged INFO (evs r).
Proof.
  intros Habs Hdir Hkeeps Hexc r. subst r.
  unfold develop_environments, getcwd. rewrite bind_assoc, bind_get.
  rewrite (bind_pure _ _ _ (cwd s) eq_refl).
  set (d := cwd s) in *.
  assert (Hcwd : cwd s = d) by reflexivity. clearbody d.
  revert s Hdir Hcwd.
  induction (expand_product_groups W [product_group]) as [|product l IH]; intros s Hdir Hcwd.
  - cbn. repeat split; [exact Hcwd | constructor].
  - cbn [for_each map].
    destruct (develop_product_goes_on W describe develop d product s Habs Hkeeps Hexc Hdir)
      as (Hres & Hcwd' & Hdir' & rest & Hlog).
    unfold bind. rewrite Hres. cbn [res st evs].
    destruct (IH _ Hdir' Hcwd') as (IHres & IHcwd & IHlog).
    split; [exact IHres|]. split; [exact IHcwd|].
    rewrite logged_app, Hlog. cbn [app].
    apply sublist_skip. now apply sublist_inserts_l.
Qed.

(** X15. A product whose development raises an [Exception] does not keep
    the others from being developed. If the callee leaves directories in
    place and raises nothing but [Exception]s, the loop returns normally,
    back in the directory it started in, and every product of the group
    has been announced, in the order of the group: a repository that is
    missing and a failing [test] are logged as errors and passed over. *)
Theorem development_goes_on W describe develop product_group s :
  Str.startswith "/" (cwd s) = true →
  fs_is_dir (fs s) (cwd s) = true →
  keeps_directories develop →
  (∀ s' e, res (develop s') = inr e → is_Exception e = true) →
  let r := develop_environments W describe develop product_group s in
  res r = inl tt
  ∧ cwd (st r) = cwd s
  ∧ map developing (expand_product_groups W [product_group]) `sublist_of` logged INFO (evs r).
Proof. apply develop_loop_goes_on. Qed.

(** X16. [SystemExit] is not an [Exception]: when the callee raises it for
    a product, the [except] clause does not apply. The working directory
    is put back by the [finally] block and the error leaves the loop: no
    error is logged and the products after it are not developed. *)
Theorem exit_ends_development W describe develop product_group product rest s e :
  expand_product_groups W [product_group] = product :: rest →
  Str.startswith "/" (cwd s) = true →
  is_dir s (product_path W product) = true →
  let s1 := set_cwd (Path.resolve s (product_path W product)) s in
  res (develop s1) = inr e →
  is_Exception e = false →
  fs_is_dir (fs (st (develop s1))) (cwd s) = true →
  let r := develop_environments W describe develop product_group s in
  res r = inr e
  ∧ st r = set_cwd (cwd s) (st (develop s1))
  ∧ evs r = EvLog INFO (developing product) :: evs (develop s1).
Proof.
  intros Hgroup Habs Hrepo s1 Hres Hexc Hdir r. subst r.
  unfold develop_environments, getcwd. rewrite bind_assoc, bind_get.
  rewrite (bind_pure _ _ _ (cwd s) eq_refl), Hgroup.
  assert (Hone : develop_product W describe develop (cwd s) product s
                 = Reply (inr e) (set_cwd (cwd s) (st (develop s1)))
                     (EvLog INFO (developing product) :: evs (develop s1))).
  { unfold develop_product. rewrite bind_emit. unfold try_except_finally.
    assert (Hbody : bind (chdir (product_path W product)) (fun _ => develop) s
                    = Reply (inr e) (st (develop s1)) (evs (develop s1))).
    { unfold bind. rewrite DevelopFacts.chdir_reply, Hrepo. cbn [res st evs].
      fold s1. now rewrite Hres. }
    rewrite Hbody. cbn [res st evs]. rewrite Hexc. cbn [res st evs].
    rewrite DevelopFacts.chdir_reply, (DevelopFacts.is_dir_absolute _ _ Habs), Hdir.
    cbn [res st evs]. rewrite (DevelopFacts.resolve_absolute _ _ Habs).
    now rewrite app_nil_r. }
  rewrite (for_each_raises _ _ _ _ e); rewrite Hone; auto.
Qed.

(** * What [test] changes and raises *)

Section Frame.

Variable W : outside.
Variable R : sys → sys → Prop.
Variable P : exn → Prop.

Hypothesis R_refl : ∀ s, R s s.
Hypothesis R_trans : ∀ s1 s2 s3, R s1 s2 → R s2 s3 → R s1 s3.
Hypothesis R_spawn : ∀ cmd dir s, R s (after (spawn W cmd dir s) s).
Hypothesis R_environ : ∀ k v s,
  k = "PATH" ∨ k = "PYTESTARGS" → R s (set_environ (<[k := v]> (environ s)) s).
Hypothesis R_overwrite : ∀ s path c0 c,
  content_at s path = Some c0 → R s (overwritten s path c).

Hypothesis P_repo : ∀ s, repo_check W s = false → P (SystemExit 1).
Hypothesis P_key : P (KeyError "PATH").
Hypothesis P_run : ∀ cmd code, code ≠ 0 → P (RunError cmd code).
Hypothesis P_os : ∀ p, P (OSError p).
Hypothesis P_io : ∀ p, P (IOError p).
Hypothesis P_pattern : ∀ repo,
  Re.atoms_of (product_name W repo) = None →
  P (PatternOutsideFragment (product_name W repo)).

Local Abbreviation ok := (sound R P).

Lemma sound_ret {A} (a : A) : ok (ret a).
Proof. intros s. split; [apply R_refl | discriminate]. Qed.

Lemma sound_raise {A} e : P e → ok (@raise A e).
Proof. intros H s. split; [apply R_refl | now intros e' [= <-]]. Qed.

Lemma sound_emit ev : ok (emit ev).
Proof. intros s. split; [apply R_refl | discriminate]. Qed.

Lemma sound_bind {A B} (m : M A) (f : A → M B) :
  ok m → (∀ a, ok (f a)) → ok (bind m f).
Proof.
  intros Hm Hf s. destruct (Hm s) as [HR HP]. unfold bind.
  destruct (res (m s)) as [a|e] eqn:E; cbn [res st].
  - destruct (Hf a (st (m s))) as [HR' HP']. split; [eauto | exact HP'].
  - split; [exact HR | intros e' [= <-]; now apply HP].
Qed.

Lemma sound_get {B} (f : sys → M B) : (∀ s, ok (f s)) → ok (bind get f).
Proof. intros Hf s. rewrite bind_get. apply Hf. Qed.

Lemma sound_for_each {A} (l : list A) (body : A → M unit) :
  (∀ x, x ∈ l → ok (body x)) → ok (for_each l body).
Proof.
  induction l as [|x l IH]; intros H; cbn [for_each]; [apply sound_ret|].
  apply sound_bind; [apply H; constructor|].
  intros _. apply IH. intros y Hy. apply H. now constructor.
Qed.

Lemma sound_run cmd dir silent raises : ok (run W cmd dir silent raises).
Proof.
  intros s. rewrite run_reply. cbv zeta. cbn [res st]. split; [apply R_spawn|].
  destruct raises; cbn [andb]; [|discriminate].
  destruct (p_exit (spawn W cmd dir s) =? 0) eqn:E; cbn [negb]; [discriminate|].
  intros e [= <-]. apply P_run. now apply Z.eqb_neq.
Qed.

Lemma sound_path_exists p : ok (path_exists p).
Proof. unfold path_exists. apply sound_get. intros s. apply sound_ret. Qed.

Lemma sound_stat_mtime p : ok (stat_mtime p).
Proof.
  unfold stat_mtime. apply sound_get. intros s.
  destruct (Path.lookup s p); [apply sound_ret | apply sound_raise, P_os].
Qed.

Lemma sound_listdir p : ok (listdir p).
Proof.
  unfold listdir. apply sound_get. intros s.
  destruct (Path.lookup s p) as [[]|]; try apply sound_ret; apply sound_raise, P_os.
Qed.

Lemma sound_strip_scripts p name script_bin scripts :
  ∀ removed_from, ok (strip_scripts p name script_bin scripts removed_from).
Proof.
  induction scripts as [|script rest IH]; intros removed_from; cbn [strip_scripts].
  - apply sound_ret.
  - apply sound_bind; [|intros a; apply IH].
    intros s. rewrite Normalizer.strip_script_reply. cbv zeta.
    destruct (content_at s (Path.join script_bin script)) as [c|] eqn:E; cbn [res st].
    + destruct (Re.search p c); cbn [res st].
      * split; [now apply R_overwrite with c | discriminate].
      * split; [apply R_refl | discriminate].
    + split; [apply R_refl | intros e [= <-]; apply P_io].
Qed.

Lemma sound_strip_version tox env : ok (strip_version_from_entry_scripts W tox env).
Proof.
  unfold strip_version_from_entry_scripts.
  apply sound_bind; [apply sound_emit | intros _].
  apply sound_bind; [apply sound_path_exists | intros [|]]; [|apply sound_ret].
  destruct (Re.atoms_of (product_name W (tox_repo tox))) as [p|] eqn:E.
  - apply sound_bind; [apply sound_listdir | intros scripts].
    apply sound_bind; [apply sound_strip_scripts | intros removed_from].
    apply sound_bind; [|intros _; apply sound_ret].
    destruct (nonempty removed_from); [apply sound_emit | apply sound_ret].
  - apply sound_raise, P_pattern, E.
Qed.

Lemma sound_log_exception title (body : M unit) :
  (∀ s, R s (st (body s))) → ok (log_exception title body).
Proof.
  intros H s. unfold log_exception. specialize (H s).
  destruct (res (body s)) as [u|e] eqn:E.
  - split; [exact H | rewrite E; discriminate].
  - cbn [res st]. split; [exact H | discriminate].
Qed.

Lemma sound_install_editable pip dbg lib : ok (install_editable W pip dbg lib).
Proof.
  unfold install_editable.
  apply sound_bind; [apply sound_emit | intros _].
  apply sound_log_exception. intros s.
  refine (proj1 (sound_bind _ _ (sound_run _ _ _ _) _ s)). intros _.
  apply sound_bind; [apply sound_run | intros _; apply sound_ret].
Qed.

Lemma sound_install_editable_dependencies tox env dbg :
  ok (install_editable_dependencies W tox env dbg).
Proof.
  unfold install_editable_dependencies.
  apply sound_bind; [apply sound_emit | intros _].
  destruct (negb (truthy (editable_product_dependencies W))); [apply sound_ret|].
  apply sound_bind; [apply sound_run | intros out].
  apply sound_get. intros s.
  apply sound_for_each. intros lib _. apply sound_install_editable.
Qed.

Lemma sound_show_installed_dependencies tox env :
  P (SystemExit 1) → ok (show_installed_dependencies W tox env).
Proof.
  intros Hexit. unfold show_installed_dependencies.
  apply sound_bind; [apply sound_emit | intros _].
  apply sound_bind; [apply sound_path_exists | intros ex].
  apply sound_bind.
  - destruct (negb ex); [|apply sound_ret].
    apply sound_bind; [apply sound_emit | intros _; now apply sound_raise].
  - intros _. apply sound_bind; [apply sound_run | intros _; apply sound_ret].
Qed.

Lemma sound_must_redevelop repo envdir : ok (must_redevelop repo envdir).
Proof.
  unfold must_redevelop, requirements_updated.
  apply sound_bind; [apply sound_path_exists | intros ex].
  destruct (negb ex); [apply sound_ret|].
  apply sound_bind; [apply sound_stat_mtime | intros t].
  apply sound_bind; [apply sound_path_exists | intros has_requirements].
  apply sound_bind.
  - destruct has_requirements; [|apply sound_ret].
    apply sound_bind; [apply sound_stat_mtime | intros t'; apply sound_ret].
  - intros t'. apply sound_bind; [apply sound_stat_mtime | intros t''; apply sound_ret].
Qed.

(** Inside the loop over [envs] the last name of the batch exists. *)
Lemma sound_run_command repo envdir pytest_args envs env command :
  env ∈ envs → ok (run_command W repo envdir pytest_args envs env command).
Proof.
  intros Hin s. rewrite run_command_reply. cbv zeta.
  destruct (Path.exists_ s (command_path envdir command)); cbn [res st].
  - destruct (last_nonempty _ _ Hin) as [y ->].
    destruct (p_exit _ =? 0) eqn:E; cbn [res st]; (split; [apply R_spawn|]).
    + discriminate.
    + intros e [= <-]. apply P_run. now apply Z.eqb_neq.
  - split; [apply R_refl | discriminate].
Qed.

Lemma sound_run_commands tox repo pytest_args envs env :
  env ∈ envs → ok (run_commands W tox repo pytest_args envs env).
Proof.
  intros Hin. unfold run_commands.
  apply sound_bind.
  - destruct (1 <? length envs)%nat; [apply sound_emit | apply sound_ret].
  - intros _. apply sound_for_each. intros command _. now apply sound_run_command.
Qed.

Lemma sound_synchronize tox repo envs rc dbg : ok (synchronize W tox repo envs rc dbg).
Proof.
  unfold synchronize.
  apply sound_bind; [apply sound_run | intros _].
  apply sound_for_each. intros env _.
  apply sound_bind; [apply sound_strip_version | intros _].
  apply sound_install_editable_dependencies.
Qed.

Lemma sound_prepare c : ok (prepare W c).
Proof.
  intros s. rewrite prepare_reply. cbv zeta.
  destruct (repo_check W s) eqn:Echeck.
  - assert (Hvenv : R s (without_venv_path s)).
    { unfold without_venv_path.
      destruct (environ s !! "VIRTUAL_ENV"); [|apply R_refl].
      destruct (environ s !! "PATH"); [|apply R_refl].
      apply R_environ. now left. }
    assert (Hargs : ∀ a b l s', R s' (st (set_pytest_args a b l s'))).
    { intros a b l s'. rewrite set_pytest_args_reply.
      destruct (a || truthy b || nonempty l); cbn [st]; [|apply R_refl].
      apply R_environ. now right. }
    destruct (environ s !! "VIRTUAL_ENV"), (environ s !! "PATH"); cbn [res st];
      try (split; [eapply R_trans; [exact Hvenv | apply Hargs] | discriminate]).
    split; [apply R_refl | intros e [= <-]; exact P_key].
  - cbn [res st]. split; [apply R_refl | intros e [= <-]; now apply P_repo with s].
Qed.

Lemma sound_test_open self c :
  (dependencies c = true → P (SystemExit 1)) →
  (dependencies c = false → redevelop c || recreate c = false →
   ∀ env, ok (self (Call [env] false true false false None false))) →
  ok (test_open W self c).
Proof.
  intros Hexit Hself. unfold test_open.
  apply sound_bind; [apply sound_emit | intros _].
  apply sound_bind; [apply sound_prepare | intros x].
  destruct (dependencies c).
  - apply sound_for_each. intros env _. now apply sound_show_installed_dependencies, Hexit.
  - destruct (redevelop c || recreate c); [apply sound_synchronize|].
    apply sound_for_each. intros env Hin. unfold test_env.
    apply sound_bind; [apply sound_must_redevelop | intros [|]].
    + now apply Hself.
    + now apply sound_run_commands.
Qed.

Lemma sound_test c :
  (dependencies c = true → P (SystemExit 1)) → ok (test W c).
Proof.
  intros Hexit. apply sound_test_open; [exact Hexit|].
  intros _ _ env. apply sound_test_open; cbn [dependencies redevelop recreate orb];
    intros; discriminate.
Qed.

End Frame.

Lemma directories_kept_refl s : directories_kept s s.
Proof. intros p H. exact H. Qed.

Lemma directories_kept_trans s1 s2 s3 :
  directories_kept s1 s2 → directories_kept s2 s3 → directories_kept s1 s3.
Proof. intros H12 H23 p H. apply H23, H12, H. Qed.

Lemma directories_kept_overwrite s path c0 c :
  content_at s path = Some c0 → directories_kept s (overwritten s path c).
Proof.
  unfold content_at. intros Hc p Hp.
  destruct (Path.lookup s path) as [[t d|]|] eqn:E; try discriminate.
  apply Normalizer.lookup_file_key in E as [_ Hkey].
  unfold overwritten, set_fs, fs_is_dir in *. cbn [fs].
  destruct (decide (Path.resolve s path = p)) as [Heq|Hne].
  - rewrite <- Heq, Hkey in Hp. discriminate.
  - now rewrite lookup_insert_ne.
Qed.

Lemma same_place_refl s : same_place s s.
Proof. split; auto. Qed.

Lemma same_place_trans s1 s2 s3 : same_place s1 s2 → same_place s2 s3 → same_place s1 s3.
Proof.
  intros [Hc He] [Hc' He']. split; [congruence|].
  intros k H1 H2. rewrite He', He; auto.
Qed.

Lemma same_place_environ k v s :
  k = "PATH" ∨ k = "PYTESTARGS" → same_place s (set_environ (<[k := v]> (environ s)) s).
Proof.
  intros Hk. split; [reflexivity|]. intros k' H1 H2. cbn [set_environ environ].
  apply lookup_insert_ne. destruct Hk; congruence.
Qed.

(** X17. [test] removes no directory: whatever it is called with, and
    whether it returns or raises, every directory that was there is still
    a directory afterwards, as long as the processes it starts leave the
    directories in place. Its own writes replace files by files. *)
Theorem test_keeps_directories W c :
  processes_keep_directories W → keeps_directories (test W c).
Proof.
  intros Hspawn s.
  refine (proj1 (sound_test W directories_kept (fun _ => True)
                   directories_kept_refl directories_kept_trans Hspawn _
                   directories_kept_overwrite _ _ _ _ _ _ c _ s));
    try (intros; exact I).
  intros k v s' _ p Hp. exact Hp.
Qed.

(** X18. [test] stays where it is: it never changes the working directory
    and, of the environment variables, it sets [PATH] and [PYTESTARGS]
    only. This holds for every call, also for one that raises. *)
Theorem test_stays_in_place W c s :
  same_place s (st (test W c s)).
Proof.
  refine (proj1 (sound_test W same_place (fun _ => True)
                   same_place_refl same_place_trans _ same_place_environ _
                   _ _ _ _ _ _ c _ s));
    try (intros; exact I).
  - intros cmd dir s'. split; auto.
  - intros s' path c0 c' _. split; auto.
Qed.








(** X20. The loop of [setup_product_group] with the [test] command of
    [test.py] as its callee. In a workspace where the repository check
    passes, the product names are in the modelled fragment and no process
    removes a directory, every error of a redevelop run is an [Exception]:
    the loop logs it, returns to the directory it started in and goes on,
    so that it returns normally having announced every product. *)
Theorem development_of_products W describe product_group s :
  (∀ s', repo_check W s' = true) →
  (∀ repo, Re.atoms_of (product_name W repo) ≠ None) →
  processes_keep_directories W →
  Str.startswith "/" (cwd s) = true →
  fs_is_dir (fs s) (cwd s) = true →
  let r := develop_environments W describe (test W test_redevelop_call) product_group s in
  res r = inl tt
  ∧ cwd (st r) = cwd s
  ∧ map developing (expand_product_groups W [product_group]) `sublist_of` logged INFO (evs r).
Proof.
  intros Hcheck Hname Hspawn Habs Hdir.
  apply develop_loop_goes_on; [exact Habs | exact Hdir | |].
  - intros s'.
    refine (proj1 (sound_test W directories_kept (fun _ => True)
                     directories_kept_refl directories_kept_trans Hspawn _
                     directories_kept_overwrite _ _ _ _ _ _ test_redevelop_call _ s'));
      try (intros; exact I).
    intros k v s'' _ p Hp. exact Hp.
  - intros s' e.
    refine (proj2 (sound_test W (fun _ _ => True) (fun e => is_Exception e = true)
                     _ _ _ _ _ _ _ _ _ _ _ test_redevelop_call _ s') e);
      try (intros; exact I); try (intros; reflexivity).
    + intros s'' H. rewrite Hcheck in H. discriminate.
    + intros repo H. now apply Hname in H.
    + discriminate.
Qed.

(** ** Worked instances: the loop of [setup.py], what [test] changes *)

Lemma development_errors_witness :
  SystemExit 1 = OSError (cwd Demo2.workspace) ∨ is_Exception (SystemExit 1) = false.
Proof.
  apply (development_errors Demo2.not_a_repo Demo2.describe
           (test Demo2.not_a_repo test_redevelop_call) "mytool" Demo2.workspace).
  vm_compute. reflexivity.
Defined.

Lemma development_goes_on_witness :
  let W := Demo.world "mytool" None Demo.all_succeed in
  let r := develop_environments W Demo2.describe Demo2.tox_is_missing "mytool"
             Demo2.workspace in
  res r = inl tt
  ∧ cwd (st r) = "/ws"
  ∧ map developing ["mytool"] `sublist_of` logged INFO (evs r).
Proof.
  intros W.
  apply (development_goes_on W Demo2.describe Demo2.tox_is_missing "mytool" Demo2.workspace).
  - reflexivity.
  - reflexivity.
  - intros s p H. exact H.
  - intros s e [= <-]. reflexivity.
Defined.

Example failed_development_is_logged :
  logged ERROR (evs (develop_environments (Demo.world "mytool" None Demo.all_succeed)
                       Demo2.describe Demo2.tox_is_missing "mytool" Demo2.workspace))
  = ["Error occurred when developing mytool: command failed"].
Proof. reflexivity. Qed.

Lemma exit_ends_development_witness :
  let W := Demo2.not_a_repo in
  let s1 := set_cwd "/ws/mytool" Demo2.workspace in
  let r := develop_environments W Demo2.describe (test W test_redevelop_call) "mytool"
             Demo2.workspace in
  res r = inr (SystemExit 1)
  ∧ st r = set_cwd "/ws" (st (test W test_redevelop_call s1))
  ∧ evs r = EvLog INFO (developing "mytool") :: evs (test W test_redevelop_call s1).
Proof.
  intros W.
  apply (exit_ends_development W Demo2.describe (test W test_redevelop_call) "mytool"
           "mytool" [] Demo2.workspace (SystemExit 1)); reflexivity.
Defined.

Lemma test_keeps_directories_witness :
  fs_is_dir (fs (st (test (Demo.world "mytool" None Demo.all_succeed) Demo.redevelop_both
                       (Demo.start "mytool==1.0 --flag"))))
            "/ws/mytool/.tox/py27/bin" = true.
Proof.
  apply (test_keeps_directories (Demo.world "mytool" None Demo.all_succeed)
           Demo.redevelop_both).
  - intros cmd dir s p H. exact H.
  - reflexivity.
Defined.


Lemma development_of_products_witness :
  let W := Demo.world "mytool" None Demo.tox_fails in
  let r := develop_environments W Demo2.describe (test W test_redevelop_call) "mytool"
             Demo2.workspace in
  res r = inl tt
  ∧ cwd (st r) = "/ws"
  ∧ map developing ["mytool"] `sublist_of` logged INFO (evs r).
Proof.
  intros W.
  apply (development_of_products W Demo2.describe "mytool" Demo2.workspace).
  - intros s. reflexivity.
  - intros repo. vm_compute. discriminate.
  - intros cmd dir s p H. exact H.
  - reflexivity.
  - reflexivity.
Defined.

(** * A second normalization *)

Module SecondPass.
Import Re ReFacts Normalizer.

Lemma readable_nonempty s q : content_at s q ≠ None → (q =? "")%string = false.
Proof.
  unfold content_at, Path.lookup. destruct (q =? "")%string; [|reflexivity].
  intros H. now contradiction H.
Qed.

(** A file that can be read can still be read after a turn. *)
Lemma strip_script_keeps_readable p name script_bin script removed_from s q :
  content_at s q ≠ None →
  content_at (st (strip_script p name script_bin script removed_from s)) q ≠ None.
Proof.
  intros Hq. rewrite strip_script_reply. cbv zeta.
  destruct (content_at s (Path.join script_bin script)) as [c|]; [|exact Hq].
  destruct (search p c); [|exact Hq]. cbn [st].
  unfold content_at. rewrite lookup_overwritten, (readable_nonempty _ _ Hq).
  destruct (decide _); [discriminate | exact Hq].
Qed.

Lemma strip_scripts_keeps_readable p name script_bin scripts : ∀ removed_from s q,
  content_at s q ≠ None →
  content_at (st (strip_scripts p name script_bin scripts removed_from s)) q ≠ None.
Proof.
  induction scripts as [|script rest IH]; intros removed_from s q Hq; [exact Hq|].
  cbn [strip_scripts]. unfold bind.
  pose proof (strip_script_keeps_readable p name script_bin script removed_from s q Hq) as H.
  destruct (res (strip_script p name script_bin script removed_from s)); cbn [st]; auto.
Qed.

(** A pass that returns has read every entry, and leaves every entry
    readable. *)
Lemma returned_pass_readable p name script_bin scripts : ∀ removed_from s l,
  res (strip_scripts p name script_bin scripts removed_from s) = inl l →
  ∀ script, script ∈ scripts →
    content_at (st (strip_scripts p name script_bin scripts removed_from s))
               (Path.join script_bin script) ≠ None.
Proof.
  induction scripts as [|first rest IH]; intros removed_from s l Hres script Hin.
  { inversion Hin. }
  cbn [strip_scripts] in *. unfold bind in *.
  pose proof (strip_script_reply p name script_bin first removed_from s) as Hturn.
  cbv zeta in Hturn.
  destruct (res (strip_script p name script_bin first removed_from s)) as [acc|e] eqn:E;
    [|discriminate].
  cbn [res st] in *. apply elem_of_cons in Hin as [->|Hin].
  - apply strip_scripts_keeps_readable.
    destruct (content_at s (Path.join script_bin first)) as [c|] eqn:Hc.
    + apply strip_script_keeps_readable. now rewrite Hc.
    + rewrite Hturn in E. discriminate.
  - now apply (IH acc _ l).
Qed.

(** A pass over readable entries returns. *)
Lemma readable_pass_returns p name script_bin scripts : ∀ removed_from s,
  (∀ script, script ∈ scripts → content_at s (Path.join script_bin script) ≠ None) →
  ∃ l, res (strip_scripts p name script_bin scripts removed_from s) = inl l.
Proof.
  induction scripts as [|first rest IH]; intros removed_from s Hall; [now exists removed_from|].
  cbn [strip_scripts]. unfold bind.
  assert (Hrest : ∀ script, script ∈ rest →
            content_at (st (strip_script p name script_bin first removed_from s))
                       (Path.join script_bin script) ≠ None).
  { intros script Hin. apply strip_script_keeps_readable, Hall. now constructor. }
  pose proof (strip_script_reply p name script_bin first removed_from s) as Hturn.
  cbv zeta in Hturn.
  destruct (content_at s (Path.join script_bin first)) as [c|] eqn:Hc.
  - destruct (res (strip_script p name script_bin first removed_from s)) as [acc|e] eqn:E.
    + cbn [res st]. apply IH, Hrest.
    + rewrite Hturn in E. destruct (search p c); discriminate.
  - contradiction (Hall first ltac:(constructor)).
Qed.

Lemma strip_scripts_cwd p name script_bin scripts : ∀ removed_from s,
  cwd (st (strip_scripts p name script_bin scripts removed_from s)) = cwd s.
Proof.
  induction scripts as [|script rest IH]; intros removed_from s; [reflexivity|].
  cbn [strip_scripts]. unfold bind.
  pose proof (strip_script_cwd p name script_bin script removed_from s) as H.
  destruct (res (strip_script p name script_bin script removed_from s)); cbn [st];
    [now rewrite IH | exact H].
Qed.

(** What the second of two passes leaves in a script that the first one
    did not settle. *)
Lemma unsettled_script_is_rewritten p name script_bin scripts removed_from again s l script c :
  atoms_of name = Some p →
  NoDup (map (fun script => Path.resolve s (Path.join script_bin script)) scripts) →
  let first := strip_scripts p name script_bin scripts removed_from s in
  let second := strip_scripts p name script_bin scripts again (st first) in
  res first = inl l →
  script ∈ scripts →
  content_at s (Path.join script_bin script) = Some c →
  search p (sub p name c) = true →
  (∃ l', res second = inl l')
  ∧ content_at (st first) (Path.join script_bin script) = Some (sub p name c)
  ∧ content_at (st second) (Path.join script_bin script) = Some (sub p name (sub p name c))
  ∧ sub p name (sub p name c) ≠ sub p name c.
Proof.
  intros Hatoms Hdup first second Hfirst Hin Hc Hagain.
  assert (Hone : content_at (st first) (Path.join script_bin script) = Some (sub p name c)).
  { unfold first. rewrite (pass_effect _ _ _ _ _ _ _ Hdup Hfirst script c Hin Hc).
    destruct (search p c) eqn:E; [reflexivity|]. now rewrite (sub_no_search _ _ _ E). }
  destruct (readable_pass_returns p name script_bin scripts again (st first)) as [l' Hsecond].
  { intros x Hx. now apply (returned_pass_readable p name script_bin scripts removed_from s l). }
  assert (Hdup' : NoDup (map (fun script => Path.resolve (st first) (Path.join script_bin script))
                           scripts)).
  { unfold Path.resolve, first. now rewrite strip_scripts_cwd. }
  split; [eauto|]. split; [exact Hone|]. split.
  - unfold second. rewrite (pass_effect _ _ _ _ _ _ _ Hdup' Hsecond script _ Hin Hone).
    now rewrite Hagain.
  - intros Heq.
    destruct (Passes.sub_length p name ltac:(rewrite (Passes.atoms_of_length _ _ Hatoms); lia)
                (String.length (sub p name c)) (sub p name c) ltac:(lia)) as [_ Hshort].
    specialize (Hshort Hagain). rewrite Heq in Hshort. lia.
Qed.

End SecondPass.

(** C5, as the code has it. The substitution makes one pass over a script
    and does not look at its own output again. So a second normalization
    right after the first changes nothing exactly in a script directory
    where the text the first pass leaves in every script holds no
    occurrence of the pattern any more. If that is so for every script, the
    second normalization writes no file, logs no list of modified scripts,
    leaves the state as the first left it and ends as the first did. If it
    is not so for a script, among entries that name different files and
    after a first normalization that returned, the second normalization
    returns too and rewrites that script. A script without an occurrence
    never stands in the way, whatever else it pins; and for a name without
    regular-expression characters, a script does not either when each of
    its [==] before a digit or a dot belongs to an occurrence the first
    pass replaces. *)
Theorem second_normalization_changes_nothing W tox env s p :
  let name := product_name W (tox_repo tox) in
  let script_bin := bindir tox env None in
  Re.atoms_of name = Some p →
  let first := strip_version_from_entry_scripts W tox env s in
  let second := strip_version_from_entry_scripts W tox env (st first) in
  ((∀ t entries script c,
      Path.lookup s script_bin = Some (Dir t entries) → script ∈ entries →
      content_at s (Path.join script_bin script) = Some c →
      one_pass_enough p name c) →
   second = Reply (res first) (st first) [EvCall (InStrip env)])
  ∧ (∀ t entries script c,
       Path.lookup s script_bin = Some (Dir t entries) →
       NoDup (map (fun script => Path.resolve s (Path.join script_bin script)) entries) →
       res first = inl PyNone →
       script ∈ entries →
       content_at s (Path.join script_bin script) = Some c →
       Re.search p (Re.sub p name c) = true →
       res second = inl PyNone
       ∧ content_at (st first) (Path.join script_bin script) = Some (Re.sub p name c)
       ∧ content_at (st second) (Path.join script_bin script)
         = Some (Re.sub p name (Re.sub p name c))
       ∧ content_at (st second) (Path.join script_bin script)
         ≠ content_at (st first) (Path.join script_bin script))
  ∧ (∀ c, Re.search p c = false → one_pass_enough p name c)
  ∧ (plain name = true → name ≠ "" → Str.mem "=" name = false →
     ∀ c, stray_pin p 0 c = false → one_pass_enough p name c).
Proof.
  intros name script_bin Hatoms first second.
  assert (Hfirst : first = strip_version_from_entry_scripts W tox env s) by reflexivity.
  assert (Hsecond : second = strip_version_from_entry_scripts W tox env (st first))
    by reflexivity.
  rewrite (strip_version_reply W tox env s) in Hfirst. cbv zeta in Hfirst.
  fold name in Hfirst. fold script_bin in Hfirst. rewrite Hatoms in Hfirst.
  rewrite (strip_version_reply W tox env (st first)) in Hsecond. cbv zeta in Hsecond.
  fold name in Hsecond. fold script_bin in Hsecond. rewrite Hatoms in Hsecond.
  clearbody first second.
  split; [|split; [|split]].
  - intros Henough.
    destruct (Path.lookup s script_bin) as [[t d|t entries]|] eqn:Hbin.
    + subst first. cbn [st res] in *. now rewrite Hbin in Hsecond.
    + set (r := strip_scripts p name script_bin entries [] s) in *.
      assert (Hst : st first = st r) by (subst first; now destruct (res r)).
      assert (Hdir : Path.lookup (st r) script_bin = Some (Dir t entries)).
      { unfold r. rewrite Normalizer.strip_scripts_frame; [exact Hbin|].
        unfold settled, content_at. now rewrite Hbin. }
      assert (Hpass : strip_scripts p name script_bin entries [] (st r)
                      = Reply (match res r with inl _ => inl [] | inr e => inr e end) (st r) []).
      { apply (Normalizer.second_pass p name script_bin
                 (fun q => ∃ script, script ∈ entries ∧ q = Path.join script_bin script)
                 entries [] s).
        - intros script Hin. eauto.
        - intros q c (script & Hin & ->) Hc. now apply (Henough t entries script c).
        - reflexivity. }
      rewrite Hst, Hdir, Hpass in Hsecond. cbn [res st evs] in Hsecond.
      subst first second. destruct (res r); reflexivity.
    + subst first. cbn [st res] in *. now rewrite Hbin in Hsecond.
  - intros t entries script c Hbin Hdup Hret Hin Hc Hagain.
    rewrite Hbin in Hfirst.
    set (r := strip_scripts p name script_bin entries [] s) in *.
    destruct (res r) as [l|e] eqn:Hr; [|subst first; discriminate].
    assert (Hst : st first = st r) by (subst first; reflexivity).
    assert (Hdir : Path.lookup (st r) script_bin = Some (Dir t entries)).
    { unfold r. rewrite Normalizer.strip_scripts_frame; [exact Hbin|].
      unfold settled, content_at. now rewrite Hbin. }
    rewrite Hst, Hdir in Hsecond.
    destruct (SecondPass.unsettled_script_is_rewritten p name script_bin entries [] [] s l
                script c Hatoms Hdup Hr Hin Hc Hagain) as ([l' Hl'] & Hone & Htwo & Hne).
    fold r in Hl', Hone, Htwo. rewrite Hl' in Hsecond. rewrite Hst.
    assert (Hst2 : st second = st (strip_scripts p name script_bin entries [] (st r)))
      by (subst second; reflexivity).
    rewrite Hst2. split; [subst second; reflexivity|]. split; [exact Hone|].
    split; [exact Htwo|]. rewrite Hone, Htwo. intros [= Heq]. now apply Hne.
  - intros c Hc. unfold one_pass_enough. now rewrite (ReFacts.sub_no_search _ _ _ Hc).
  - intros Hplain Hne Heq c Hstray.
    rewrite (PlainNames.plain_atoms name Hplain) in Hatoms. injection Hatoms as <-.
    now apply (Idempotence.no_stray_settles name Hplain Hne Heq).
Qed.

Lemma second_normalization_changes_nothing_witness :
  let W := Demo.world "my.tool" None Demo.all_succeed in
  let wrapper := "__requires__ = 'my.tool==1.4.2'  # tested with pytest==2.5.1" in
  let first := strip_version_from_entry_scripts W Demo.tox "py27" (Demo.start wrapper) in
  content_at (st first) "/ws/mytool/.tox/py27/bin/mytool"
  = Some "__requires__ = 'my.tool'  # tested with pytest==2.5.1"
  ∧ strip_version_from_entry_scripts W Demo.tox "py27" (st first)
    = Reply (res first) (st first) [EvCall (InStrip "py27")].
Proof.
  intros W wrapper. split; [reflexivity|].
  apply (proj1 (second_normalization_changes_nothing W Demo.tox "py27" (Demo.start wrapper)
                  (default [] (Re.atoms_of "my.tool")) eq_refl)).
  intros t entries script c Hdir Hin Hc.
  vm_compute in Hdir. injection Hdir as <- <-.
  apply list_elem_of_In in Hin. simpl in Hin.
  destruct Hin as [<-|[<-|[]]]; vm_compute in Hc; injection Hc as <-; reflexivity.
Defined.
